(** * A shallow embedding of the multi-server MCP client

    The development follows [mcp-client/multi_server_client.py] (class
    [MultiServerMCPClient]) and the adapter of [mcp-client/client.py]
    (class [MCPClient]).  Python text is a list of Unicode code points,
    dictionaries are insertion-ordered association lists, raised
    exceptions are values of an error type, and everything the client
    obtains from outside (the file system, the subprocess transport, the
    session library, the two model vendors) is an explicit oracle. *)

From Stdlib Require Import List NArith ZArith Lia String Ascii Bool Arith
  Permutation DecimalString.
Import ListNotations.

Set Implicit Arguments.
Set Warnings "-register-all".

(* ================================================================== *)
(** * Python text: [str] as a sequence of code points                  *)
(* ================================================================== *)

Module Str.

Definition str := list N.

(** Decoder for the literals of this file, which are written in UTF-8. *)
Fixpoint utf8_decode (bs : list N) : str :=
  match bs with
  | [] => []
  | b :: r =>
    if (b <? 128)%N then b :: utf8_decode r
    else if (b <? 224)%N then
      match r with
      | b1 :: r' => ((b - 192) * 64 + (b1 - 128))%N :: utf8_decode r'
      | _ => []
      end
    else if (b <? 240)%N then
      match r with
      | b1 :: b2 :: r' =>
        ((b - 224) * 4096 + (b1 - 128) * 64 + (b2 - 128))%N :: utf8_decode r'
      | _ => []
      end
    else
      match r with
      | b1 :: b2 :: b3 :: r' =>
        ((b - 240) * 262144 + (b1 - 128) * 4096 + (b2 - 128) * 64 + (b3 - 128))%N
          :: utf8_decode r'
      | _ => []
      end
  end.

Definition lit (s : string) : str :=
  utf8_decode (map N_of_ascii (list_ascii_of_string s)).

(** The two characters that a literal of this file cannot hold. *)
Definition nl : str := [10%N].
Definition dq : str := [34%N].

Fixpoint eqb (a b : str) : bool :=
  match a, b with
  | [], [] => true
  | x :: a', y :: b' => (x =? y)%N && eqb a' b'
  | _, _ => false
  end.

(** [str.isspace] for one code point, as [str.strip()] uses it. *)
Definition isspace (c : N) : bool :=
  ((9 <=? c) && (c <=? 13) || (28 <=? c) && (c <=? 32)
   || (c =? 133) || (c =? 160) || (c =? 5760)
   || (8192 <=? c) && (c <=? 8202)
   || (c =? 8232) || (c =? 8233) || (c =? 8239) || (c =? 8287)
   || (c =? 12288))%N.

Fixpoint lstrip (s : str) : str :=
  match s with
  | c :: r => if isspace c then lstrip r else s
  | [] => []
  end.

Definition rstrip (s : str) : str := rev (lstrip (rev s)).

(** [s.strip()] *)
Definition strip (s : str) : str := rstrip (lstrip s).

(** [s.startswith(p)] *)
Fixpoint startswith (p s : str) : bool :=
  match p, s with
  | [], _ => true
  | x :: p', y :: s' => (x =? y)%N && startswith p' s'
  | _ :: _, [] => false
  end.

(** [s.endswith(p)] *)
Definition endswith (p s : str) : bool := startswith (rev p) (rev s).

(** [p in s] *)
Fixpoint contains (p s : str) : bool :=
  startswith p s || match s with [] => false | _ :: r => contains p r end.

(** The first occurrence of a non-empty separator: the text before it and
    the text after it. *)
Fixpoint find_split (sep s : str) : option (str * str) :=
  if startswith sep s then Some ([], skipn (List.length sep) s)
  else match s with
       | [] => None
       | c :: r =>
         match find_split sep r with
         | Some (a, b) => Some (c :: a, b)
         | None => None
         end
       end.

(** [s.split(sep, 1)] for a non-empty [sep] *)
Definition split1 (sep s : str) : list str :=
  match find_split sep s with
  | Some (a, b) => [a; b]
  | None => [s]
  end.

(** [s.split(c)] for a separator of one character *)
Fixpoint split_char (c : N) (s : str) : list str :=
  match s with
  | [] => [[]]
  | x :: r =>
    if (x =? c)%N then [] :: split_char c r
    else match split_char c r with
         | h :: t => (x :: h) :: t
         | [] => [[x]]
         end
  end.

(** [sep.join(l)] *)
Fixpoint join (sep : str) (l : list str) : str :=
  match l with
  | [] => []
  | [x] => x
  | x :: r => x ++ sep ++ join sep r
  end.

End Str.
Import Str.

(* ================================================================== *)
(** * Python dictionaries keyed by text                                *)
(* ================================================================== *)

(** A [dict] keeps its keys in insertion order; assigning to a key that
    is present replaces the value where the key stands. *)
Module Dict.

Section WithValue.
Variable V : Type.

Definition dict := list (str * V).

Fixpoint get (k : str) (d : dict) : option V :=
  match d with
  | [] => None
  | (k', v) :: d' => if Str.eqb k k' then Some v else get k d'
  end.

Fixpoint set (k : str) (v : V) (d : dict) : dict :=
  match d with
  | [] => [(k, v)]
  | (k', v') :: d' =>
    if Str.eqb k k' then (k, v) :: d' else (k', v') :: set k v d'
  end.

Definition keys (d : dict) : list str := map fst d.
Definition values (d : dict) : list V := map snd d.

End WithValue.

Arguments get {V} k d.
Arguments set {V} k v d.
Arguments keys {V} d.
Arguments values {V} d.

End Dict.

(* ================================================================== *)
(** * Exceptions and fallible computations                             *)
(* ================================================================== *)

(** A raised exception: an instance of Python's [Exception] with its
    class and the text that [str(e)] gives.  Signals outside that class
    (interpreter exit, keyboard interrupt) are not part of the model. *)
Inductive exn_class :=
| FileNotFoundError | ValueError | JSONDecodeError | IndexError
| AttributeError | TypeError | RuntimeError.

Record exn := Exn { exn_kind : exn_class; exn_text : str }.

(** A call either returns a value or raises. *)
Inductive res (A : Type) :=
| Ret (a : A)
| Raise (e : exn).
Arguments Ret {A} a.
Arguments Raise {A} e.

Definition raises {A} (m : res A) : bool :=
  match m with Ret _ => false | Raise _ => true end.

(* ================================================================== *)
(** * JSON values and [json.loads]                                     *)
(* ================================================================== *)

(** What [json.loads] builds: [None], [bool], [int], [float] (kept as
    the number's text), [str], [list] and [dict]. *)
Inductive json :=
| JNull
| JBool (b : bool)
| JInt (z : Z)
| JFloat (lexeme : str)
| JStr (s : str)
| JArr (l : list json)
| JObj (d : list (str * json)).

(** The empty argument object [{}]. *)
Definition empty_args : json := JObj [].

Module Json.

Definition is_ws (c : N) : bool :=
  ((c =? 32) || (c =? 9) || (c =? 10) || (c =? 13))%N.

Fixpoint skip_ws (s : str) : str :=
  match s with
  | c :: r => if is_ws c then skip_ws r else s
  | [] => []
  end.

Definition is_digit (c : N) : bool := ((48 <=? c) && (c <=? 57))%N.

Definition hex_val (c : N) : option N :=
  if is_digit c then Some (c - 48)%N
  else if ((97 <=? c) && (c <=? 102))%N then Some (c - 87)%N
  else if ((65 <=? c) && (c <=? 70))%N then Some (c - 55)%N
  else None.

Definition hex4 (a b c d : N) : option N :=
  match hex_val a, hex_val b, hex_val c, hex_val d with
  | Some x, Some y, Some z, Some w => Some (x * 4096 + y * 256 + z * 16 + w)%N
  | _, _, _, _ => None
  end.

Definition unescape (c : N) : option N :=
  if (c =? 34)%N then Some 34%N          (* quote *)
  else if (c =? 92)%N then Some 92%N     (* backslash *)
  else if (c =? 47)%N then Some 47%N     (* slash *)
  else if (c =? 98)%N then Some 8%N      (* b *)
  else if (c =? 102)%N then Some 12%N    (* f *)
  else if (c =? 110)%N then Some 10%N    (* n *)
  else if (c =? 114)%N then Some 13%N    (* r *)
  else if (c =? 116)%N then Some 9%N     (* t *)
  else None.

(** A scan either fails with the decoder's message or gives a value and
    the text that is left. *)
Definition scan (A : Type) := (str + A * str)%type.

Definition emit (c : N) (k : scan str) : scan str :=
  match k with
  | inr (out, r) => inr (c :: out, r)
  | inl e => inl e
  end.

Definition is_high (u : N) : bool := ((55296 <=? u) && (u <=? 56319))%N.
Definition is_low (u : N) : bool := ((56320 <=? u) && (u <=? 57343))%N.

(** The body of a string, after its opening quote. *)
Fixpoint scanstring (s : str) : scan str :=
  match s with
  | [] => inl (lit "Unterminated string starting at")
  | c :: r =>
    if (c =? 34)%N then inr ([], r)
    else if (c =? 92)%N then
      match r with
      | [] => inl (lit "Unterminated string starting at")
      | e :: r1 =>
        if (e =? 117)%N then
          match r1 with
          | h1 :: h2 :: h3 :: h4 :: r2 =>
            match hex4 h1 h2 h3 h4 with
            | None => inl (lit "Invalid \uXXXX escape")
            | Some uni =>
              match r2 with
              | b :: v :: r2' =>
                if is_high uni && (b =? 92)%N && (v =? 117)%N then
                  match r2' with
                  | g1 :: g2 :: g3 :: g4 :: r3 =>
                    match hex4 g1 g2 g3 g4 with
                    | None => inl (lit "Invalid \uXXXX escape")
                    | Some uni2 =>
                      if is_low uni2
                      then emit (65536 + (uni - 55296) * 1024 + (uni2 - 56320))%N
                                (scanstring r3)
                      else emit uni (scanstring r2)
                    end
                  | _ => inl (lit "Invalid \uXXXX escape")
                  end
                else emit uni (scanstring r2)
              | _ => emit uni (scanstring r2)
              end
            end
          | _ => inl (lit "Invalid \uXXXX escape")
          end
        else match unescape e with
             | Some c' => emit c' (scanstring r1)
             | None => inl (lit "Invalid \escape")
             end
      end
    else if (c <? 32)%N then inl (lit "Invalid control character at")
    else emit c (scanstring r)
  end.

Fixpoint span_digits (s : str) : str * str :=
  match s with
  | c :: r =>
    if is_digit c then let (d, r') := span_digits r in (c :: d, r') else ([], s)
  | [] => ([], [])
  end.

Definition digits_value (d : str) : Z :=
  fold_left (fun acc c => (acc * 10 + Z.of_N (c - 48))%Z) d 0%Z.

(** The number pattern of the decoder:
    an integer part, then a fraction and an exponent when present. *)
Definition scan_number (s : str) : option (json * str) :=
  let (neg, s1) := match s with
                   | c :: r => if (c =? 45)%N then (true, r) else (false, s)
                   | [] => (false, s)
                   end in
  let int_part :=
    match s1 with
    | c :: r =>
      if (c =? 48)%N then Some ([c], r)
      else if is_digit c then let (d, r') := span_digits s1 in Some (d, r')
      else None
    | [] => None
    end in
  match int_part with
  | None => None
  | Some (ds, s2) =>
    let (frac, s3) :=
      match s2 with
      | c :: r =>
        if (c =? 46)%N then
          match span_digits r with
          | ([], _) => ([], s2)
          | (fd, r') => (c :: fd, r')
          end
        else ([], s2)
      | [] => ([], s2)
      end in
    let (ex, s4) :=
      match s3 with
      | c :: r =>
        if ((c =? 101) || (c =? 69))%N then
          let (sg, r1) := match r with
                          | g :: r' =>
                            if ((g =? 43) || (g =? 45))%N then ([g], r') else ([], r)
                          | [] => ([], r)
                          end in
          match span_digits r1 with
          | ([], _) => ([], s3)
          | (ed, r') => (c :: sg ++ ed, r')
          end
        else ([], s3)
      | [] => ([], s3)
      end in
    match frac, ex with
    | [], [] =>
      Some (JInt (if neg then - digits_value ds else digits_value ds)%Z, s4)
    | _, _ =>
      Some (JFloat ((if neg then [45%N] else []) ++ ds ++ frac ++ ex), s4)
    end
  end.

Definition expect_word (w : str) (v : json) (s : str) : option (json * str) :=
  if startswith w s then Some (v, skipn (List.length w) s) else None.

Definition scan_constant (s : str) : option (json * str) :=
  match expect_word (lit "null") JNull s with
  | Some x => Some x
  | None =>
  match expect_word (lit "true") (JBool true) s with
  | Some x => Some x
  | None =>
  match expect_word (lit "false") (JBool false) s with
  | Some x => Some x
  | None =>
  match scan_number s with
  | Some x => Some x
  | None =>
  match expect_word (lit "NaN") (JFloat (lit "NaN")) s with
  | Some x => Some x
  | None =>
  match expect_word (lit "Infinity") (JFloat (lit "Infinity")) s with
  | Some x => Some x
  | None => expect_word (lit "-Infinity") (JFloat (lit "-Infinity")) s
  end end end end end end.

(** [scan_value] is the decoder's [scan_once]; [scan_members] and
    [scan_elements] are the loops of an object and of an array, entered
    after the opening bracket and the white space behind it.  The fuel
    bounds the nesting of calls. *)
Fixpoint scan_value (fuel : nat) (s : str) : scan json :=
  match fuel with
  | O => inl (lit "maximum recursion depth exceeded")
  | S f =>
    match s with
    | [] => inl (lit "Expecting value")
    | c :: r =>
      if (c =? 34)%N then
        match scanstring r with
        | inr (t, r') => inr (JStr t, r')
        | inl e => inl e
        end
      else if (c =? 123)%N then
        match skip_ws r with
        | c' :: r' =>
          if (c' =? 125)%N then inr (JObj [], r')
          else match scan_members f (c' :: r') with
               | inr (d, r'') => inr (JObj d, r'')
               | inl e => inl e
               end
        | [] => inl (lit "Expecting property name enclosed in double quotes")
        end
      else if (c =? 91)%N then
        match skip_ws r with
        | c' :: r' =>
          if (c' =? 93)%N then inr (JArr [], r')
          else match scan_elements f (c' :: r') with
               | inr (l, r'') => inr (JArr l, r'')
               | inl e => inl e
               end
        | [] => inl (lit "Expecting value")
        end
      else match scan_constant s with
           | Some x => inr x
           | None => inl (lit "Expecting value")
           end
    end
  end
with scan_members (fuel : nat) (s : str) : scan (list (str * json)) :=
  match fuel with
  | O => inl (lit "maximum recursion depth exceeded")
  | S f =>
    match s with
    | c :: r =>
      if (c =? 34)%N then
        match scanstring r with
        | inl e => inl e
        | inr (key, r1) =>
          match skip_ws r1 with
          | c1 :: r2 =>
            if (c1 =? 58)%N then
              match scan_value f (skip_ws r2) with
              | inl e => inl e
              | inr (v, r3) =>
                match skip_ws r3 with
                | c3 :: r4 =>
                  if (c3 =? 125)%N then inr ([(key, v)], r4)
                  else if (c3 =? 44)%N then
                    match scan_members f (skip_ws r4) with
                    | inr (d, r5) => inr ((key, v) :: d, r5)
                    | inl e => inl e
                    end
                  else inl (lit "Expecting ',' delimiter")
                | [] => inl (lit "Expecting ',' delimiter")
                end
              end
            else inl (lit "Expecting ':' delimiter")
          | [] => inl (lit "Expecting ':' delimiter")
          end
        end
      else inl (lit "Expecting property name enclosed in double quotes")
    | [] => inl (lit "Expecting property name enclosed in double quotes")
    end
  end
with scan_elements (fuel : nat) (s : str) : scan (list json) :=
  match fuel with
  | O => inl (lit "maximum recursion depth exceeded")
  | S f =>
    match scan_value f s with
    | inl e => inl e
    | inr (v, r1) =>
      match skip_ws r1 with
      | c :: r2 =>
        if (c =? 93)%N then inr ([v], r2)
        else if (c =? 44)%N then
          match scan_elements f (skip_ws r2) with
          | inr (l, r3) => inr (v :: l, r3)
          | inl e => inl e
          end
        else inl (lit "Expecting ',' delimiter")
      | [] => inl (lit "Expecting ',' delimiter")
      end
    end
  end.

(** A [dict] built from the pairs of an object keeps, for a repeated
    key, the last value at the place of the first. *)
Fixpoint normalise (v : json) : json :=
  match v with
  | JArr l => JArr (map normalise l)
  | JObj d =>
    JObj (fold_left (fun acc kv => Dict.set (fst kv) (normalise (snd kv)) acc) d [])
  | _ => v
  end.

(** [json.loads(s)]: one value between optional white space.  The
    position that the library appends to its messages is left out. *)
Definition loads (s : str) : res json :=
  match scan_value (2 * List.length s + 2) (skip_ws s) with
  | inl e => Raise (Exn JSONDecodeError e)
  | inr (v, r) =>
    match skip_ws r with
    | [] => Ret (normalise v)
    | _ :: _ => Raise (Exn JSONDecodeError (lit "Extra data"))
    end
  end.

End Json.

(* ================================================================== *)
(** * Data model of the client                                         *)
(* ================================================================== *)

(** [ServerConfig] (dataclass). *)
Record ServerConfig := {
  name : str;
  description : str;
  script_path : str;
  enabled : bool;
  config : Dict.dict json
}.

(** A tool as a server announces it in the answer to [list_tools].  The
    schema is a JSON-Schema object. *)
Record mcp_tool := {
  mcp_name : str;
  mcp_description : option str;
  inputSchema : Dict.dict json
}.

(** A tool as the client keeps it: the dictionary with the keys [name],
    [description], [input_schema] and, in the multi-server client,
    [server]. *)
Record tool := {
  tool_name : str;
  tool_description : option str;
  input_schema : Dict.dict json;
  server : option str
}.

(** [ServerConnection] (dataclass).  The session and the two streams of
    the transport are handles. *)
Record ServerConnection := {
  conn_config : ServerConfig;
  session : nat;
  stdio : nat;
  write : nat;
  tools : list tool
}.

(** What an [AsyncExitStack] holds: the context managers that were
    entered and are to be left on [aclose]. *)
Inductive resource :=
| StdioTransport (handle : nat)
| Session (handle : nat).

Definition resource_eqb (a b : resource) : bool :=
  match a, b with
  | StdioTransport x, StdioTransport y => Nat.eqb x y
  | Session x, Session y => Nat.eqb x y
  | _, _ => false
  end.

(** The lines printed while connecting. *)
Inductive line :=
| PrintTools (server_name : str) (names : list str)
    (* 服务器 {name} 提供工具: [...] *)
| PrintConnectError (server_name : str) (e : exn)
    (* 连接服务器 {name} 时出错: {e} *)
| PrintFailed (server_name : str) (e : exn)
    (* 连接服务器 {name} 失败: {result} *)
| PrintConnected (server_name : str).
    (* 成功连接到服务器: {name} *)

Inductive provider := Anthropic | Qwen.

Record model_settings := {
  model : option str;
  max_tokens : option Z
}.

(** The fields of [MultiServerMCPClient].  [exit_stack] lists the entered
    context managers, the last one first; [next_handle] numbers the
    handles the transport gives out; [console] is what was printed. *)
Record client := {
  server_configs : list ServerConfig;
  model_config : model_settings;
  client_type : provider;
  servers : Dict.dict ServerConnection;
  tool_server_map : Dict.dict str;
  exit_stack : list resource;
  next_handle : nat;
  console : list line
}.

(** [__init__], after the configuration file is loaded. *)
Definition new_client (cfgs : list ServerConfig) (m : model_settings)
    (p : provider) : client :=
  {| server_configs := cfgs; model_config := m; client_type := p;
     servers := []; tool_server_map := []; exit_stack := [];
     next_handle := 0; console := [] |}.

Definition with_servers (c : client) (s : Dict.dict ServerConnection) : client :=
  {| server_configs := server_configs c; model_config := model_config c;
     client_type := client_type c; servers := s;
     tool_server_map := tool_server_map c; exit_stack := exit_stack c;
     next_handle := next_handle c; console := console c |}.

Definition with_tool_server_map (c : client) (m : Dict.dict str) : client :=
  {| server_configs := server_configs c; model_config := model_config c;
     client_type := client_type c; servers := servers c;
     tool_server_map := m; exit_stack := exit_stack c;
     next_handle := next_handle c; console := console c |}.

Definition with_exit_stack (c : client) (s : list resource) : client :=
  {| server_configs := server_configs c; model_config := model_config c;
     client_type := client_type c; servers := servers c;
     tool_server_map := tool_server_map c; exit_stack := s;
     next_handle := next_handle c; console := console c |}.

Definition with_next_handle (c : client) (n : nat) : client :=
  {| server_configs := server_configs c; model_config := model_config c;
     client_type := client_type c; servers := servers c;
     tool_server_map := tool_server_map c; exit_stack := exit_stack c;
     next_handle := n; console := console c |}.

Definition print (l : line) (c : client) : client :=
  {| server_configs := server_configs c; model_config := model_config c;
     client_type := client_type c; servers := servers c;
     tool_server_map := tool_server_map c; exit_stack := exit_stack c;
     next_handle := next_handle c; console := console c ++ [l] |}.

(** [exit_stack.enter_async_context] once the manager was entered. *)
Definition push (r : resource) (c : client) : client :=
  with_exit_stack c (r :: exit_stack c).

(* ================================================================== *)
(** * Server connection manager                                        *)
(* ================================================================== *)

Record StdioServerParameters := {
  command : str;
  args : list str
}.

(** What the outside answers to one connection attempt: entering
    [stdio_client], entering [ClientSession], [session.initialize()] and
    [session.list_tools()].  [None] is a normal return. *)
Record attempt := {
  spawn : StdioServerParameters -> option exn;
  open_session : option exn;
  initialize : option exn;
  list_tools : res (list mcp_tool)
}.

(** The world during one [connect_to_servers]: the file system and the
    answers to the attempt of each task, numbered as [gather] receives
    them. *)
Record world := {
  path_exists : str -> bool;
  attempt_of : nat -> attempt
}.

(** The suspension points of [_connect_to_server]. *)
Inductive stage :=
| Validate | Spawn (p : StdioServerParameters) | OpenSession | Initialize | ListTools.

(** A task of [asyncio.gather]: where the coroutine stands, or how it
    ended ([None]: it returned). *)
Inductive task_state :=
| Running (next : stage)
| Finished (result : option exn).

Record task := {
  t_config : ServerConfig;
  t_handle : nat;
  t_attempt : attempt;
  t_state : task_state
}.

Definition with_state (t : task) (s : task_state) : task :=
  {| t_config := t_config t; t_handle := t_handle t;
     t_attempt := t_attempt t; t_state := s |}.

(** Lines 147-152: the dictionaries built from the announced tools. *)
Definition tools_of (server_config : ServerConfig) (announced : list mcp_tool)
    : list tool :=
  map (fun t => {| tool_name := mcp_name t;
                   tool_description := mcp_description t;
                   input_schema := inputSchema t;
                   server := Some (name server_config) |}) announced.

(** Lines 165-166: every tool name is mapped to the server, one
    assignment after the other. *)
Definition map_tools (server_name : str) (ts : list tool) (m : Dict.dict str)
    : Dict.dict str :=
  fold_left (fun m t => Dict.set (tool_name t) server_name m) ts m.

(** Lines 154-168, which run without suspension: the connection is
    stored under the server's name, the tools are mapped, the list of
    tools is printed. *)
Definition register (server_config : ServerConfig) (handle : nat)
    (ts : list tool) (c : client) : client :=
  let connection := {| conn_config := server_config; session := handle;
                       stdio := handle; write := handle; tools := ts |} in
  let c := with_servers c (Dict.set (name server_config) connection (servers c)) in
  let c := with_tool_server_map c
             (map_tools (name server_config) ts (tool_server_map c)) in
  print (PrintTools (name server_config) (map tool_name ts)) c.

(** The [except] clause of [_connect_to_server]: print and raise again. *)
Definition fail (t : task) (e : exn) (c : client) : task * client :=
  (with_state t (Finished (Some e)),
   print (PrintConnectError (name (t_config t)) e) c).

(** The check of the script, lines 118-132. *)
Definition validate (w : world) (server_config : ServerConfig)
    : res StdioServerParameters :=
  let script_path := script_path server_config in
  if negb (path_exists w script_path) then
    Raise (Exn FileNotFoundError
             (lit "服务器脚本不存在: " ++ script_path))
  else
    let is_python := endswith (lit ".py") script_path in
    let is_js := endswith (lit ".js") script_path in
    if negb (is_python || is_js) then
      Raise (Exn ValueError (lit "服务器脚本必须是.py或.js文件"))
    else
      Ret {| command := if is_python then lit "python" else lit "node";
             args := [script_path] |}.

(** One step of [_connect_to_server]: from one suspension point to the
    next, or to the end of the coroutine. *)
Definition step_task (w : world) (t : task) (c : client) : task * client :=
  match t_state t with
  | Finished _ => (t, c)
  | Running Validate =>
    match validate w (t_config t) with
    | Raise e => fail t e c
    | Ret p => (with_state t (Running (Spawn p)), c)
    end
  | Running (Spawn p) =>
    match spawn (t_attempt t) p with
    | Some e => fail t e c
    | None => (with_state t (Running OpenSession),
               push (StdioTransport (t_handle t)) c)
    end
  | Running OpenSession =>
    match open_session (t_attempt t) with
    | Some e => fail t e c
    | None => (with_state t (Running Initialize),
               push (Session (t_handle t)) c)
    end
  | Running Initialize =>
    match initialize (t_attempt t) with
    | Some e => fail t e c
    | None => (with_state t (Running ListTools), c)
    end
  | Running ListTools =>
    match list_tools (t_attempt t) with
    | Raise e => fail t e c
    | Ret announced =>
      (with_state t (Finished None),
       register (t_config t) (t_handle t) (tools_of (t_config t) announced) c)
    end
  end.

(** The event loop resumes the task at position [i]. *)
Fixpoint step_at (w : world) (i : nat) (ts : list task) (c : client)
    {struct ts} : list task * client :=
  match ts, i with
  | [], _ => ([], c)
  | t :: r, O => let (t', c') := step_task w t c in (t' :: r, c')
  | t :: r, S j => let (r', c') := step_at w j r c in (t :: r', c')
  end.

(** The tasks are resumed in the order of a schedule. *)
Fixpoint run_schedule (w : world) (schedule : list nat) (ts : list task)
    (c : client) : list task * client :=
  match schedule with
  | [] => (ts, c)
  | i :: rest =>
    let (ts', c') := step_at w i ts c in run_schedule w rest ts' c'
  end.

(** [_connect_to_server], run from where the task stands to its end with
    no other task in between.  The coroutine has five suspension points:
    five steps end it. *)
Definition _connect_to_server (w : world) (t : task) (c : client) : task * client :=
  let (t1, c1) := step_task w t c in
  let (t2, c2) := step_task w t1 c1 in
  let (t3, c3) := step_task w t2 c2 in
  let (t4, c4) := step_task w t3 c3 in
  step_task w t4 c4.

(** When the schedule is used up, every task that still runs is brought
    to its end: [gather] waits for all of them. *)
Fixpoint finish_all (w : world) (ts : list task) (c : client)
    : list task * client :=
  match ts with
  | [] => ([], c)
  | t :: r =>
    let (t', c') := _connect_to_server w t c in
    let (r', c'') := finish_all w r c' in
    (t' :: r', c'')
  end.

(** [asyncio.gather] with [return_exceptions=True]: the
    tasks interleave at their suspension points as the schedule says;
    the results come back in the order of the tasks. *)
Definition gather (w : world) (schedule : list nat) (ts : list task)
    (c : client) : list task * client :=
  let (ts1, c1) := run_schedule w schedule ts c in
  finish_all w ts1 c1.

(** Lines 97-100: one task for each enabled configuration. *)
Fixpoint spawn_tasks (w : world) (first_handle i : nat)
    (enabled_configs : list ServerConfig) : list task :=
  match enabled_configs with
  | [] => []
  | server_config :: r =>
    {| t_config := server_config; t_handle := first_handle + i;
       t_attempt := attempt_of w i; t_state := Running Validate |}
      :: spawn_tasks w first_handle (S i) r
  end.

(** Lines 107-112: one line for each result. *)
Definition report_line (t : task) : list line :=
  match t_state t with
  | Finished (Some e) => [PrintFailed (name (t_config t)) e]
  | Finished None => [PrintConnected (name (t_config t))]
  | Running _ => []
  end.

Definition report (ts : list task) (c : client) : client :=
  fold_left (fun c t => fold_left (fun c l => print l c) (report_line t) c) ts c.

(** [connect_to_servers]. *)
Definition connect_to_servers (w : world) (schedule : list nat) (c : client)
    : client :=
  let enabled_configs := filter enabled (server_configs c) in
  match enabled_configs with
  | [] => c
  | _ :: _ =>
    let ts := spawn_tasks w (next_handle c) 0 enabled_configs in
    let c := with_next_handle c (next_handle c + List.length ts) in
    let (results, c) := gather w schedule ts c in
    report results c
  end.

(** [get_all_tools]. *)
Definition get_all_tools (c : client) : list tool :=
  flat_map (fun kv => tools (snd kv)) (servers c).

(** How a context manager leaves: it returns (and may ask to suppress the
    exception in flight) or it raises. *)
Inductive exit_outcome :=
| ExitReturns (suppress : bool)
| ExitRaises (e : exn).

(** [AsyncExitStack.aclose()]: every callback runs, the last entered
    first; an exception raised by one replaces the one in flight and does
    not stop the others; what is in flight at the end is raised. *)
Fixpoint unwind (leave : resource -> exit_outcome) (stack : list resource)
    (in_flight : option exn) : option exn :=
  match stack with
  | [] => in_flight
  | r :: rest =>
    match leave r with
    | ExitReturns suppress =>
      unwind leave rest (if suppress then None else in_flight)
    | ExitRaises e => unwind leave rest (Some e)
    end
  end.

Definition aclose (leave : resource -> exit_outcome) (c : client)
    : res unit * client :=
  (match unwind leave (exit_stack c) None with
   | Some e => Raise e
   | None => Ret tt
   end,
   with_exit_stack c []).

(** [cleanup]: the exception of [aclose] is caught and dropped. *)
Definition cleanup (leave : resource -> exit_outcome) (c : client)
    : res unit * client :=
  match aclose leave c with
  | (Raise e, c') => (Ret tt, c')
  | (Ret tt, c') => (Ret tt, c')
  end.

(* ================================================================== *)
(** * Tool dispatcher, provider adapters and conversation loop          *)
(* ================================================================== *)

Section Conversation.

(** The payload of a tool result ([result.content]) is opaque to the
    client; [str_of_payload] and [str_of_args] are what Python's [str]
    gives for a payload and for an argument object when they are put into
    a formatted string. *)
Variable payload : Type.
Variable str_of_payload : payload -> str.
Variable str_of_args : json -> str.

(** [json.loads]. *)
Variable json_loads : str -> res json.

(** The content of a message is text or the payload of a tool result. *)
Inductive content_t :=
| Text (s : str)
| Structured (p : payload).

Record message := {
  role : str;
  content : content_t
}.

Definition str_of_content (x : content_t) : str :=
  match x with
  | Text s => s
  | Structured p => str_of_payload p
  end.

(** A content block of the first vendor's answer.  A block of another
    class than the two the client looks for carries its class name. *)
Inductive block :=
| TextBlock (text : str)
| ToolUseBlock (block_name : str) (input : json) (text : option str)
| OtherBlock (class_name : str) (text : option str).

Record anthropic_request := {
  req_model : option str;
  req_max_tokens : Z;
  req_messages : list message;
  req_tools : option (list tool)
}.

Record qwen_request := {
  qreq_model : option str;
  qreq_messages : list message;
  qreq_max_tokens : Z
}.

Record qwen_response := {
  status_code : Z;
  response_message : str;
  output_content : str
}.

Record CallToolResult := {
  result_content : payload
}.

(** The collaborators.  The first argument counts the earlier calls of
    the same kind in the query, so that a collaborator may answer the
    same request differently each time. *)
Variable anthropic_create : nat -> anthropic_request -> res (list block).
Variable generation_call : nat -> qwen_request -> res qwen_response.
Variable session_call_tool : nat -> nat -> str -> json -> res CallToolResult.

(** What a query does, in order: the calls to the two vendors, the calls
    of [call_tool] ([Dispatch]) and the calls through a session
    ([TransportCall]). *)
Inductive event :=
| AnthropicCall (req : anthropic_request)
| QwenCall (req : qwen_request)
| Dispatch (tool_name : str) (tool_args : json)
| TransportCall (session_handle : nat) (tool_name : str) (tool_args : json).

Definition is_model_call (e : event) : bool :=
  match e with AnthropicCall _ | QwenCall _ => true | _ => false end.
Definition is_dispatch (e : event) : bool :=
  match e with Dispatch _ _ => true | _ => false end.
Definition is_transport_call (e : event) : bool :=
  match e with TransportCall _ _ _ => true | _ => false end.

Definition model_calls (evs : list event) : list event := filter is_model_call evs.
Definition dispatches (evs : list event) : list event := filter is_dispatch evs.
Definition transport_calls (evs : list event) : list event :=
  filter is_transport_call evs.

Definition unknown_tool (tool_name : str) : exn :=
  Exn ValueError (lit "未找到工具 " ++ tool_name ++ lit " 对应的服务器").

Definition server_unavailable (server_name : str) : exn :=
  Exn ValueError (lit "服务器 " ++ server_name ++ lit " 未连接").

(** [call_tool].  [n] counts the earlier calls through the transport.
    The guard [if not server_name] rejects a missing entry and an empty
    name alike; a [ServerConnection] is never falsy. *)
Definition call_tool (c : client) (n : nat) (tool_name : str) (tool_args : json)
    : res CallToolResult * list event :=
  match Dict.get tool_name (tool_server_map c) with
  | Some ((_ :: _) as server_name) =>
    match Dict.get server_name (servers c) with
    | Some server_connection =>
      (session_call_tool n (session server_connection) tool_name tool_args,
       [TransportCall (session server_connection) tool_name tool_args])
    | None => (Raise (server_unavailable server_name), [])
    end
  | _ => (Raise (unknown_tool tool_name), [])
  end.

Definition default_max_tokens (c : client) : Z :=
  match max_tokens (model_config c) with Some n => n | None => 1000%Z end.

(** [_call_model] for the first vendor. *)
Definition _call_model_anthropic (c : client) (n : nat)
    (messages : list message) (available_tools : list tool)
    : res (list block) * list event :=
  let req := {| req_model := model (model_config c);
                req_max_tokens := default_max_tokens c;
                req_messages := messages;
                req_tools := match available_tools with
                             | [] => None
                             | _ :: _ => Some available_tools
                             end |} in
  (anthropic_create n req, [AnthropicCall req]).

Definition py_str_option (o : option str) : str :=
  match o with Some s => s | None => lit "None" end.

(** [tool.get('input_schema', {}).get('properties')] when it is truthy:
    the names of the parameters.  In a JSON Schema [properties] is an
    object; an empty one is falsy. *)
Definition params_of (t : tool) : list str :=
  match Dict.get (lit "properties") (input_schema t) with
  | Some (JObj props) => Dict.keys props
  | _ => []
  end.

(** Lines 210-222 (and 73-85 of the single-server client): the messages
    in the second vendor's format. *)
Definition to_qwen (marker : str) (msg : message) : message :=
  if Str.eqb (role msg) (lit "tool")
  then {| role := lit "user";
          content := Text (marker ++ str_of_content (content msg)) |}
  else {| role := role msg; content := content msg |}.

Definition qwen_messages_of (marker : str) (messages : list message)
    : list message :=
  map (to_qwen marker) messages.

(** Lines 238-241 (109-112): the description of the tools goes into the
    first user message.  Concatenating text and a payload raises. *)
Definition add_tools_info (tools_info : str) (qwen_messages : list message)
    : res (list message) :=
  match qwen_messages with
  | first :: rest =>
    if Str.eqb (role first) (lit "user") then
      match content first with
      | Text s =>
        Ret ({| role := role first;
                content := Text (tools_info ++ nl ++ nl ++ s) |} :: rest)
      | Structured _ =>
        Raise (Exn TypeError
                 (lit "can only concatenate str (not " ++ dq ++ lit "list"
                      ++ dq ++ lit ") to str"))
      end
    else Ret ({| role := lit "user"; content := Text tools_info |} :: qwen_messages)
  | [] => Ret [{| role := lit "user"; content := Text tools_info |}]
  end.

(** The messages that are sent to the second vendor. *)
Definition qwen_payload (marker : str) (describe : list tool -> str)
    (messages : list message) (available_tools : list tool)
    : res (list message) :=
  let qwen_messages := qwen_messages_of marker messages in
  match available_tools with
  | [] => Ret qwen_messages
  | _ :: _ => add_tools_info (describe available_tools) qwen_messages
  end.

(** [MultiServerMCPClient._call_model], the branch of the second vendor. *)
Definition multi_marker : str := lit "工具结果: ".

Definition multi_tool_desc (t : tool) : str :=
  lit "- " ++ tool_name t ++ lit " (来自服务器: "
    ++ match server t with Some s => s | None => lit "未知" end
    ++ lit "): " ++ py_str_option (tool_description t)
    ++ match params_of t with
       | [] => []
       | params => lit " (参数: " ++ join (lit ", ") params ++ lit ")"
       end.

Definition multi_tools_info (available_tools : list tool) : str :=
  lit "可用工具:" ++ nl ++ join nl (map multi_tool_desc available_tools)
    ++ nl ++ nl ++ lit "要使用工具，请回复: TOOL_CALL: 工具名称 {"
    ++ dq ++ lit "参数1" ++ dq ++ lit ": " ++ dq ++ lit "值1" ++ dq ++ lit ", "
    ++ dq ++ lit "参数2" ++ dq ++ lit ": " ++ dq ++ lit "值2" ++ dq ++ lit "}".

(** [MCPClient._call_model], the branch of the second vendor. *)
Definition single_marker : str := lit "Tool result: ".

Definition single_tool_desc (t : tool) : str :=
  lit "- " ++ tool_name t ++ lit ": " ++ py_str_option (tool_description t)
    ++ match params_of t with
       | [] => []
       | params => lit " (parameters: " ++ join (lit ", ") params ++ lit ")"
       end.

Definition single_tools_info (available_tools : list tool) : str :=
  lit "Available tools:" ++ nl ++ join nl (map single_tool_desc available_tools)
    ++ nl ++ nl ++ lit "To use a tool, respond with: TOOL_CALL: tool_name {"
    ++ dq ++ lit "param1" ++ dq ++ lit ": " ++ dq ++ lit "value1" ++ dq ++ lit ", "
    ++ dq ++ lit "param2" ++ dq ++ lit ": " ++ dq ++ lit "value2" ++ dq ++ lit "}"
    ++ nl ++ nl ++ lit "Note: Common city coordinates for weather queries:"
    ++ nl ++ lit "- Sacramento: latitude=38.5816, longitude=-121.4944"
    ++ nl ++ lit "- San Francisco: latitude=37.7749, longitude=-122.4194"
    ++ nl ++ lit "- Los Angeles: latitude=34.0522, longitude=-118.2437"
    ++ nl ++ lit "- New York: latitude=40.7128, longitude=-74.0060"
    ++ nl ++ lit "- Detroit: latitude=42.3314, longitude=-83.0458"
    ++ nl ++ lit "- Beijing: latitude=39.9042, longitude=116.4074"
    ++ nl ++ lit "For other cities, use approximate coordinates or ask the user to provide them.".

(** [_call_model] for the second vendor. *)
Definition _call_model_qwen (c : client) (n : nat)
    (messages : list message) (available_tools : list tool)
    : res qwen_response * list event :=
  match qwen_payload multi_marker multi_tools_info messages available_tools with
  | Raise e => (Raise e, [])
  | Ret qwen_messages =>
    let req := {| qreq_model := model (model_config c);
                  qreq_messages := qwen_messages;
                  qreq_max_tokens := default_max_tokens c |} in
    (generation_call n req, [QwenCall req])
  end.

Record tool_result := {
  tr_call : str;
  tr_result : CallToolResult;
  tr_server : str
}.

(** The local state of [process_query]. *)
Record turn := {
  messages : list message;
  final_text : list str;
  tool_results : list tool_result;
  events : list event
}.

Definition say (s : str) (t : turn) : turn :=
  {| messages := messages t; final_text := final_text t ++ [s];
     tool_results := tool_results t; events := events t |}.

Definition add_message (m : message) (t : turn) : turn :=
  {| messages := messages t ++ [m]; final_text := final_text t;
     tool_results := tool_results t; events := events t |}.

Definition add_result (r : tool_result) (t : turn) : turn :=
  {| messages := messages t; final_text := final_text t;
     tool_results := tool_results t ++ [r]; events := events t |}.

Definition record (evs : list event) (t : turn) : turn :=
  {| messages := messages t; final_text := final_text t;
     tool_results := tool_results t; events := events t ++ evs |}.

(** [self.tool_server_map.get(tool_name, "未知")] *)
Definition server_name_of (c : client) (tool_name : str) : str :=
  match Dict.get tool_name (tool_server_map c) with
  | Some s => s
  | None => lit "未知"
  end.

Definition calling (server_name tool_name : str) (tool_args : json) : str :=
  lit "[调用服务器 " ++ server_name ++ lit " 的工具 " ++ tool_name
    ++ lit "，参数: " ++ str_of_args tool_args ++ lit "]".

(** [block.text], which not every block has. *)
Definition text_of (b : block) : res str :=
  match b with
  | TextBlock s => Ret s
  | ToolUseBlock _ _ (Some s) => Ret s
  | ToolUseBlock _ _ None =>
    Raise (Exn AttributeError
             (lit "'ToolUseBlock' object has no attribute 'text'"))
  | OtherBlock _ (Some s) => Ret s
  | OtherBlock cls None =>
    Raise (Exn AttributeError
             (lit "'" ++ cls ++ lit "' object has no attribute 'text'"))
  end.

(** [response.content[0].text] *)
Definition first_text (blocks : list block) : res str :=
  match blocks with
  | [] => Raise (Exn IndexError (lit "list index out of range"))
  | b :: _ => text_of b
  end.

Definition tool_call_failed (e : exn) : str := lit "工具调用失败: " ++ exn_text e.

(** Lines 275-301: one [tool_use] block. *)
Definition use_tool_anthropic (c : client) (available_tools : list tool)
    (tool_name : str) (tool_args : json) (text : option str) (t : turn) : turn :=
  let (r, evs) :=
    call_tool c (List.length (transport_calls (events t))) tool_name tool_args in
  let t := record (Dispatch tool_name tool_args :: evs) t in
  match r with
  | Raise e => say (tool_call_failed e) t
  | Ret result =>
    let server_name := server_name_of c tool_name in
    let t := add_result {| tr_call := tool_name; tr_result := result;
                           tr_server := server_name |} t in
    let t := say (calling server_name tool_name tool_args) t in
    let t := match text with
             | Some ((_ :: _) as s) =>
               add_message {| role := lit "assistant"; content := Text s |} t
             | _ => t
             end in
    let t := add_message {| role := lit "user";
                            content := Structured (result_content result) |} t in
    let (response, ev) :=
      _call_model_anthropic c (List.length (model_calls (events t)))
                            (messages t) available_tools in
    let t := record ev t in
    match response with
    | Raise e => say (tool_call_failed e) t
    | Ret blocks =>
      match first_text blocks with
      | Raise e => say (tool_call_failed e) t
      | Ret s => say s t
      end
    end
  end.

(** Lines 271-301: the body of the loop over the content blocks. *)
Definition process_block (c : client) (available_tools : list tool)
    (t : turn) (b : block) : turn :=
  match b with
  | TextBlock s => say s t
  | ToolUseBlock tool_name tool_args text =>
    use_tool_anthropic c available_tools tool_name tool_args text t
  | OtherBlock _ _ => t
  end.

Definition sentinel : str := lit "TOOL_CALL:".

(** Lines 314-319: the tool name and the arguments of a sentinel line. *)
Definition parse_tool_call (line : str) : res (str * json) :=
  match nth_error (split1 sentinel (strip line)) 1 with
  | None => Raise (Exn IndexError (lit "list index out of range"))
  | Some rest =>
    match split1 (lit " ") (strip rest) with
    | [] => Raise (Exn IndexError (lit "list index out of range"))
    | [p0] => Ret (strip p0, empty_args)
    | p0 :: p1 :: _ =>
      match json_loads (strip p1) with
      | Ret tool_args => Ret (strip p0, tool_args)
      | Raise e => Raise e
      end
    end
  end.

Definition parse_failed (e : exn) : str := lit "解析工具调用时出错: " ++ exn_text e.

(** The [except] clause of lines 342-344. *)
Definition recover (e : exn) (message_content : str) (t : turn) : turn :=
  say message_content (say (parse_failed e) t).

(** Lines 312-344: the [try] statement for the sentinel line. *)
Definition use_tool_qwen (c : client) (available_tools : list tool)
    (message_content line : str) (t : turn) : turn :=
  match parse_tool_call line with
  | Raise e => recover e message_content t
  | Ret (tool_name, tool_args) =>
    let (r, evs) :=
      call_tool c (List.length (transport_calls (events t))) tool_name tool_args in
    let t := record (Dispatch tool_name tool_args :: evs) t in
    match r with
    | Raise e => recover e message_content t
    | Ret result =>
      let server_name := server_name_of c tool_name in
      let t := add_result {| tr_call := tool_name; tr_result := result;
                             tr_server := server_name |} t in
      let t := say (calling server_name tool_name tool_args) t in
      let t := add_message {| role := lit "assistant";
                              content := Text message_content |} t in
      let t := add_message
                 {| role := lit "user";
                    content := Text (multi_marker
                                       ++ str_of_payload (result_content result)) |}
                 t in
      let (response, ev) :=
        _call_model_qwen c (List.length (model_calls (events t)))
                         (messages t) available_tools in
      let t := record ev t in
      match response with
      | Raise e => recover e message_content t
      | Ret response =>
        if (status_code response =? 200)%Z
        then say (output_content response) t
        else t
      end
    end
  end.

Definition is_sentinel_line (line : str) : bool := startswith sentinel (strip line).

(** Lines 310-348: the loop over the lines, left at the first sentinel
    line; its [else] clause runs when no line is one. *)
Fixpoint scan_lines (c : client) (available_tools : list tool)
    (message_content : str) (lines : list str) (t : turn) : turn :=
  match lines with
  | [] => say message_content t
  | line :: rest =>
    if is_sentinel_line line
    then use_tool_qwen c available_tools message_content line t
    else scan_lines c available_tools message_content rest t
  end.

Definition start (query : str) : turn :=
  {| messages := [{| role := lit "user"; content := Text query |}];
     final_text := []; tool_results := []; events := [] |}.

(** [process_query]: what it returns or raises, and the local state at
    that point. *)
Definition process_query (c : client) (query : str) : res str * turn :=
  let t := start query in
  let available_tools := get_all_tools c in
  match client_type c with
  | Anthropic =>
    let (response, ev) := _call_model_anthropic c 0 (messages t) available_tools in
    let t := record ev t in
    match response with
    | Raise e => (Raise e, t)
    | Ret blocks =>
      let t := fold_left (process_block c available_tools) blocks t in
      (Ret (join nl (final_text t)), t)
    end
  | Qwen =>
    let (response, ev) := _call_model_qwen c 0 (messages t) available_tools in
    let t := record ev t in
    match response with
    | Raise e => (Raise e, t)
    | Ret response =>
      let t :=
        if (status_code response =? 200)%Z then
          let message_content := output_content response in
          if contains sentinel message_content
          then scan_lines c available_tools message_content
                          (split_char 10 message_content) t
          else say message_content t
        else say (lit "错误: " ++ response_message response) t in
      (Ret (join nl (final_text t)), t)
    end
  end.

(** The request of the first model call of a query. *)
Definition first_anthropic_request (c : client) (query : str)
    : anthropic_request :=
  {| req_model := model (model_config c);
     req_max_tokens := default_max_tokens c;
     req_messages := [{| role := lit "user"; content := Text query |}];
     req_tools := match get_all_tools c with
                  | [] => None
                  | _ :: _ => Some (get_all_tools c)
                  end |}.

Definition first_qwen_request (c : client) (query : str) : qwen_request :=
  {| qreq_model := model (model_config c);
     qreq_messages :=
       [{| role := lit "user";
           content :=
             Text
                  match get_all_tools c with
                  | [] => query
                  | _ :: _ => multi_tools_info (get_all_tools c) ++ nl ++ nl ++ query
                  end |}];
     qreq_max_tokens := default_max_tokens c |}.

(** The texts of the text blocks of an answer. *)
Definition texts_of (blocks : list block) : list str :=
  flat_map (fun b => match b with TextBlock s => [s] | _ => [] end) blocks.

Definition is_tool_use (b : block) : bool :=
  match b with ToolUseBlock _ _ _ => true | _ => false end.

(** The turn after the first answer [r] of the second vendor. *)
Definition qwen_turn (c : client) (query : str) (r : qwen_response)
    : turn :=
  let t := record [QwenCall (first_qwen_request c query)] (start query) in
  if (status_code r =? 200)%Z then
    match find is_sentinel_line (split_char 10 (output_content r)) with
    | Some line =>
      use_tool_qwen c (get_all_tools c) (output_content r) line t
    | None => say (output_content r) t
    end
  else say (lit "错误: " ++ response_message r) t.

(** The turn after the first answer of the first vendor: the loop runs
    over all the blocks. *)
Definition anthropic_turn (c : client) (query : str) (blocks : list block)
    : turn :=
  fold_left (process_block c (get_all_tools c)) blocks
            (record [AnthropicCall (first_anthropic_request c query)]
                    (start query)).

End Conversation.

(* ================================================================== *)
(** * Histories of a client                                            *)
(* ================================================================== *)

(** The operations on a client.  [call_tool] reads the two maps and
    leaves the client as it is. *)
Inductive op :=
| ConnectToServers (w : world) (schedule : list nat)
| CallTool (tool_name : str) (tool_args : json)
| Cleanup (leave : resource -> exit_outcome).

Definition run_op (c : client) (o : op) : client :=
  match o with
  | ConnectToServers w schedule => connect_to_servers w schedule c
  | CallTool _ _ => c
  | Cleanup leave => snd (cleanup leave c)
  end.

Definition run (ops : list op) (c : client) : client := fold_left run_op ops c.

Definition is_cleanup (o : op) : bool :=
  match o with Cleanup _ => true | _ => false end.

(** A session is live from the moment its context is entered until the
    exit stack leaves it. *)
Definition live (c : client) (h : nat) : bool :=
  existsb (resource_eqb (Session h)) (exit_stack c).

(** An entry of the routing table names a connected server. *)
Definition entry_connected (c : client) (entry : str * str) : bool :=
  match Dict.get (snd entry) (servers c) with
  | Some _ => true
  | None => false
  end.

(** An entry of the routing table names a connected server whose session
    is live. *)
Definition entry_live (c : client) (entry : str * str) : bool :=
  match Dict.get (snd entry) (servers c) with
  | Some connection => live c (session connection)
  | None => false
  end.

Definition routing_connected (c : client) : bool :=
  forallb (entry_connected c) (tool_server_map c).

Definition routing_live (c : client) : bool :=
  forallb (entry_live c) (tool_server_map c).

(** The sessions of all stored connections are live. *)
Definition sessions_live (c : client) : bool :=
  forallb (fun kv => live c (session (snd kv))) (servers c).

(** How [_connect_to_server] ends for a configuration, whatever the
    interleaving: with the announced tools, or with an exception. *)
Definition outcome (w : world) (server_config : ServerConfig) (a : attempt)
    : res (list mcp_tool) :=
  match validate w server_config with
  | Raise e => Raise e
  | Ret p =>
    match spawn a p with
    | Some e => Raise e
    | None =>
      match open_session a with
      | Some e => Raise e
      | None =>
        match initialize a with
        | Some e => Raise e
        | None => list_tools a
        end
      end
    end
  end.

(** The outcomes of the enabled configurations, in the order of the
    tasks. *)
Fixpoint outcomes (w : world) (i : nat) (enabled_configs : list ServerConfig)
    : list (ServerConfig * res (list mcp_tool)) :=
  match enabled_configs with
  | [] => []
  | server_config :: r =>
    (server_config, outcome w server_config (attempt_of w i))
      :: outcomes w (S i) r
  end.

Definition succeeded (x : ServerConfig * res (list mcp_tool)) : bool :=
  negb (raises (snd x)).

(** The names of the servers that connect, and the number of those that
    connect and of those that fail. *)
Definition connected_names (w : world) (cfgs : list ServerConfig) : list str :=
  map (fun x => name (fst x))
      (filter succeeded (outcomes w 0 (filter enabled cfgs))).

Definition successes (w : world) (cfgs : list ServerConfig) : nat :=
  List.length (filter succeeded (outcomes w 0 (filter enabled cfgs))).

Definition failures (w : world) (cfgs : list ServerConfig) : nat :=
  List.length (filter (fun x => negb (succeeded x))
                      (outcomes w 0 (filter enabled cfgs))).

Definition is_connected_line (l : line) : bool :=
  match l with PrintConnected _ => true | _ => false end.

Definition is_failed_line (l : line) : bool :=
  match l with PrintFailed _ _ => true | _ => false end.

(** [list(self.servers.keys())] *)
Definition list_connected_servers (c : client) : list str := Dict.keys (servers c).

(** The exception a computation ends with, if any. *)
Definition err_of {A} (r : res A) : option exn :=
  match r with Ret _ => None | Raise e => Some e end.

(** How a task will end, read from where it stands. *)
Definition fate (w : world) (t : task) : option exn :=
  let a := t_attempt t in
  let from_list_tools := err_of (list_tools a) in
  let from_initialize :=
    match initialize a with Some e => Some e | None => from_list_tools end in
  let from_open_session :=
    match open_session a with Some e => Some e | None => from_initialize end in
  match t_state t with
  | Finished r => r
  | Running Validate => err_of (outcome w (t_config t) a)
  | Running (Spawn p) =>
    match spawn a p with Some e => Some e | None => from_open_session end
  | Running OpenSession => from_open_session
  | Running Initialize => from_initialize
  | Running ListTools => from_list_tools
  end.

Definition finished (t : task) : bool :=
  match t_state t with Finished _ => true | Running _ => false end.

Definition returned (t : task) : bool :=
  match t_state t with Finished None => true | _ => false end.

(** A task that is past the opening of its session holds a live one. *)
Definition holds_session (c : client) (t : task) : bool :=
  match t_state t with
  | Running Initialize | Running ListTools => live c (t_handle t)
  | _ => true
  end.

(** Some tasks are resumed, in any order. *)
Inductive steps (w : world) : list task * client -> list task * client -> Prop :=
| steps_refl x : steps w x x
| steps_step i ts c y : steps w (step_at w i ts c) y -> steps w (ts, c) y.

(** Two task lists that differ only in how far the tasks are. *)
Definition same_task (w : world) (t t' : task) : Prop :=
  t_config t' = t_config t /\ t_handle t' = t_handle t
  /\ t_attempt t' = t_attempt t /\ fate w t' = fate w t.

(** What the steps of the tasks leave alone. *)
Definition frame (c c' : client) : Prop :=
  server_configs c' = server_configs c
  /\ model_config c' = model_config c
  /\ client_type c' = client_type c
  /\ next_handle c' = next_handle c
  /\ filter is_connected_line (console c') = filter is_connected_line (console c)
  /\ filter is_failed_line (console c') = filter is_failed_line (console c)
  /\ (exists more, exit_stack c' = more ++ exit_stack c).

(** The steps a task still needs at most. *)
Definition remaining (t : task) : nat :=
  match t_state t with
  | Running Validate => 5
  | Running (Spawn _) => 4
  | Running OpenSession => 3
  | Running Initialize => 2
  | Running ListTools => 1
  | Finished _ => 0
  end.

(** The names of the servers whose tasks returned. *)
Definition done_names (ts : list task) : list str :=
  map (fun t => name (t_config t)) (filter returned ts).

(** Every entry of the routing table names a stored connection. *)
Definition routed (c : client) : Prop :=
  forall e, In e (tool_server_map c) -> entry_connected c e = true.

(** Every stored connection has a live session. *)
Definition sessions_ok (c : client) : Prop :=
  forall kv, In kv (servers c) -> live c (session (snd kv)) = true.

(* ================================================================== *)
(** * Sample configurations                                            *)
(* ================================================================== *)

Module Sample.

Definition server (n path : string) : ServerConfig :=
  {| name := lit n; description := lit n; script_path := lit path;
     enabled := true; config := [] |}.

Definition announces (n : string) : mcp_tool :=
  {| mcp_name := lit n; mcp_description := Some (lit n); inputSchema := [] |}.

(** A server that answers every request and announces the given tools. *)
Definition answering (ts : list mcp_tool) : attempt :=
  {| spawn := fun _ => None; open_session := None; initialize := None;
     list_tools := Ret ts |}.

(** A server whose handshake fails. *)
Definition silent : attempt :=
  {| spawn := fun _ => None; open_session := None;
     initialize := Some (Exn RuntimeError (lit "Connection closed"));
     list_tools := Ret [] |}.

Definition settings : model_settings :=
  {| model := Some (lit "qwen-turbo"); max_tokens := Some 1000%Z |}.

(** The three servers of the test script; the script of the first one is
    not in the repository. *)
Definition three_servers : list ServerConfig :=
  [ server "weather" "../mcp-server/weather/weather.py";
    server "calculator" "../mcp-server/calculator/calculator.py";
    server "text_processor" "../mcp-server/text_processor/text_processor.py" ].

Definition files : world :=
  {| path_exists := fun p => negb (Str.eqb p (lit "../mcp-server/weather/weather.py"));
     attempt_of := fun i =>
       match i with
       | 1 => answering [announces "add"; announces "subtract"]
       | 2 => silent
       | _ => answering []
       end |}.

(** One server with one tool. *)
Definition calculator_only : list ServerConfig :=
  [ server "calculator" "calculator.py" ].

Definition calculator_world : world :=
  {| path_exists := fun _ => true;
     attempt_of := fun _ => answering [announces "add"] |}.

Definition calculator_client (p : provider) : client :=
  connect_to_servers calculator_world [] (new_client calculator_only settings p).

(** Two servers that announce the same tool. *)
Definition twins : list ServerConfig := [ server "a" "a.py"; server "b" "b.js" ].

Definition twins_world : world :=
  {| path_exists := fun _ => true;
     attempt_of := fun _ => answering [announces "foo"] |}.

(** Every context manager leaves without an error. *)
Definition quiet : resource -> exit_outcome := fun _ => ExitReturns false.

(** Leaving a session raises. *)
Definition noisy : resource -> exit_outcome :=
  fun r => match r with
           | Session _ => ExitRaises (Exn RuntimeError (lit "cancel scope"))
           | StdioTransport _ => ExitReturns false
           end.

End Sample.

Module SampleCalls.

(** A transport whose servers answer every call with the tool's name. *)
Definition echo : nat -> nat -> str -> json -> res (CallToolResult str) :=
  fun _ _ tool_name _ => Ret {| result_content := tool_name |}.

(** A client to which server [a] and then a server with the empty name
    were registered, both with the tool [foo]. *)
Definition nameless_last : client :=
  register {| name := []; description := []; script_path := lit "b.py";
              enabled := true; config := [] |} 1
           (tools_of {| name := []; description := []; script_path := lit "b.py";
                        enabled := true; config := [] |}
                     [Sample.announces "foo"])
    (register (Sample.server "a" "a.py") 0
              (tools_of (Sample.server "a" "a.py") [Sample.announces "foo"])
              (new_client [] Sample.settings Qwen)).

End SampleCalls.

Module SampleTalk.

(** The second vendor answers the first call with the given text, and
    every later call with the text [3]. *)
Definition says (first : str) : nat -> qwen_request str -> res qwen_response :=
  fun n _ =>
    Ret {| status_code := 200; response_message := lit "OK";
           output_content := match n with O => first | S _ => lit "3" end |}.

(** The first vendor answers the first call with the given blocks, and
    every later call with the text [3]. *)
Definition answers (blocks : list block)
    : nat -> anthropic_request str -> res (list block) :=
  fun n _ => Ret match n with O => blocks | S _ => [TextBlock (lit "3")] end.

(** The payload of a result is text here.  The argument object is shown
    by its number of members; the samples do not depend on it. *)
Definition show_payload (p : str) : str := p.
Definition show_args (a : json) : str :=
  match a with JObj [] => lit "{}" | _ => lit "{...}" end.

Definition ask (c : client) (first : str) : res str * turn str :=
  process_query show_payload show_args Json.loads (answers []) (says first)
                SampleCalls.echo c (lit "1+2?").

Definition ask_anthropic (c : client) (blocks : list block) : res str * turn str :=
  process_query show_payload show_args Json.loads (answers blocks) (says [])
                SampleCalls.echo c (lit "1+2?").

(** [TOOL_CALL: add {"a": 1, "b": 2}] *)
Definition sentinel_line : str :=
  lit "TOOL_CALL: add {" ++ dq ++ lit "a" ++ dq ++ lit ": 1, "
    ++ dq ++ lit "b" ++ dq ++ lit ": 2}".

(** The answer of three lines of the specification. *)
Definition example : str :=
  lit "I will help." ++ nl ++ sentinel_line ++ nl ++ lit "extra".

(** Two sentinel lines, the first with arguments that are no JSON. *)
Definition two_sentinels : str :=
  lit "TOOL_CALL: add {bad" ++ nl ++ lit "TOOL_CALL: add {}".

(** One sentinel line with arguments that are no JSON. *)
Definition malformed : str := lit "TOOL_CALL: add {bad".

End SampleTalk.

Module SampleTranscript.

(** A transcript with a tool message, and the tools of the calculator. *)
Definition transcript : list (message str) :=
  [ {| role := lit "user"; content := Text str (lit "1+2?") |};
    {| role := lit "assistant"; content := Text str (lit "TOOL_CALL: add {}") |};
    {| role := lit "tool"; content := Text str (lit "3") |} ].

Definition available_tools : list tool :=
  get_all_tools (Sample.calculator_client Qwen).

End SampleTranscript.

(* ================================================================== *)
(** * The registry after the connections                               *)
(* ================================================================== *)

(** The connection that [_connect_to_server] stores for a configuration
    (lines 155-161). *)
Definition connection_of (server_config : ServerConfig) (handle : nat)
    (announced : list mcp_tool) : ServerConnection :=
  {| conn_config := server_config; session := handle; stdio := handle;
     write := handle; tools := tools_of server_config announced |}.

(** The entry of [servers] that a task wrote, once it returned. *)
Definition registration (t : task) : option (str * ServerConnection) :=
  match t_state t, list_tools (t_attempt t) with
  | Finished None, Ret announced =>
    Some (name (t_config t),
          connection_of (t_config t) (t_handle t) announced)
  | _, _ => None
  end.

(** The tools that a task announced to the routing table, once it
    returned. *)
Definition announced_by (t : task) : list str :=
  match t_state t, list_tools (t_attempt t) with
  | Finished None, Ret announced => map mcp_name announced
  | _, _ => []
  end.

(** The enabled configuration at position [i] connects and announces
    the given tools. *)
Definition connects (w : world) (cfgs : list ServerConfig) (i : nat)
    (server_config : ServerConfig) (announced : list mcp_tool) : Prop :=
  nth_error (outcomes w 0 (filter enabled cfgs)) i
  = Some (server_config, Ret announced).

(** The two maps of a client and the tasks of a [gather] agree: what is
    stored comes from the maps before or from a task that returned, and
    what a task that returned has written is still there. *)
Record registry_agrees (servers0 : Dict.dict ServerConnection)
    (routes0 : Dict.dict str) (ts : list task) (c : client) : Prop := {
  stored_sound :
    forall kv, In kv (servers c) ->
      In kv servers0 \/ exists t, In t ts /\ registration t = Some kv;
  stored_complete :
    forall t kv, In t ts -> registration t = Some kv -> In kv (servers c);
  routed_sound :
    forall e, In e (tool_server_map c) ->
      In e routes0
      \/ exists t, In t ts /\ name (t_config t) = snd e
                   /\ In (fst e) (announced_by t);
  routed_complete :
    forall t tool_name, In t ts -> In tool_name (announced_by t) ->
      exists s, Dict.get tool_name (tool_server_map c) = Some s
}.

(** The names of the servers of the tasks. *)
Definition names_of (ts : list task) : list str :=
  map (fun t => name (t_config t)) ts.

(* ================================================================== *)
(** * The requests that follow a tool result                           *)
(* ================================================================== *)

Section FollowUp.

Variable payload : Type.
Variable str_of_payload : payload -> str.

(** The transcript of the second vendor's branch after a tool result
    (lines 328-335): the question, the answer that asked for the tool,
    and the result as a user message. *)
Definition qwen_transcript (query message_content : str)
    (result : CallToolResult payload) : list (message payload) :=
  [ {| role := lit "user"; content := Text payload query |};
    {| role := lit "assistant"; content := Text payload message_content |};
    {| role := lit "user";
       content := Text payload
                    (multi_marker ++ str_of_payload (result_content result)) |} ].

(** The request of the model call of line 338: the first request with
    the answer and the result behind its one message. *)
Definition follow_up_qwen_request (c : client) (query message_content : str)
    (result : CallToolResult payload) : qwen_request payload :=
  {| qreq_model := model (model_config c);
     qreq_messages :=
       qreq_messages (first_qwen_request payload c query)
         ++ skipn 1 (qwen_transcript query message_content result);
     qreq_max_tokens := default_max_tokens c |}.

(** The transcript of the first vendor's branch after the result of one
    [tool_use] block (lines 286-294): the text of the block is added only
    when the block has one that is not empty. *)
Definition anthropic_transcript (query : str) (text : option str)
    (result : CallToolResult payload) : list (message payload) :=
  {| role := lit "user"; content := Text payload query |}
    :: match text with
       | Some ((_ :: _) as s) =>
         [{| role := lit "assistant"; content := Text payload s |}]
       | _ => []
       end
    ++ [{| role := lit "user";
           content := Structured (result_content result) |}].

(** The request of the model call of line 297. *)
Definition follow_up_anthropic_request (c : client) (query : str)
    (text : option str) (result : CallToolResult payload)
    : anthropic_request payload :=
  {| req_model := model (model_config c);
     req_max_tokens := default_max_tokens c;
     req_messages := anthropic_transcript query text result;
     req_tools := match get_all_tools c with
                  | [] => None
                  | _ :: _ => Some (get_all_tools c)
                  end |}.

(** The dispatches that the [tool_use] blocks of an answer ask for. *)
Definition asked_for (blocks : list block) : list (event payload) :=
  flat_map (fun b => match b with
                     | ToolUseBlock tool_name tool_args _ =>
                       [Dispatch payload tool_name tool_args]
                     | _ => []
                     end) blocks.

(** The numbers of calls of a turn: every result comes from a call
    through a session, every such call from a dispatch, and every model
    call but the first from a result. *)
Definition counted (t : turn payload) : Prop :=
  List.length (tool_results t) <= List.length (transport_calls (events t))
  /\ List.length (transport_calls (events t))
     <= List.length (dispatches (events t))
  /\ List.length (model_calls (events t)) <= 1 + List.length (tool_results t).

End FollowUp.

(** A line in the form that the description of the tools asks the model
    for (line 235): the sentinel, the name of the tool and, when there
    are arguments, their text. *)
Definition tool_call_line (tool_name : str) (args_text : option str) : str :=
  sentinel ++ lit " " ++ tool_name
    ++ match args_text with
       | Some s => lit " " ++ s
       | None => []
       end.

Module SampleAnswers.

(** The second vendor rejects every call. *)
Definition refuses : nat -> qwen_request str -> res qwen_response :=
  fun _ _ =>
    Ret {| status_code := 401; response_message := lit "InvalidApiKey";
           output_content := [] |}.

(** A [tool_use] block for [add], between two text blocks. *)
Definition with_tool_use : list block :=
  [ TextBlock (lit "I will add."); ToolUseBlock (lit "add") empty_args None;
    TextBlock (lit "Done.") ].

(** What [add] returns through the transport of [SampleCalls.echo]. *)
Definition added : CallToolResult str := {| result_content := lit "add" |}.

End SampleAnswers.

(* ================================================================== *)
(** * The exit stack after the connections                             *)
(* ================================================================== *)

(** What one connection attempt enters into the exit stack, the last
    one first: the transport once the process was started (line 135), the
    session once it was opened (line 139).  What fails afterwards takes
    nothing from the stack. *)
Definition entered (w : world) (server_config : ServerConfig) (a : attempt)
    (handle : nat) : list resource :=
  match validate w server_config with
  | Raise _ => []
  | Ret p =>
    match spawn a p with
    | Some _ => []
    | None =>
      match open_session a with
      | Some _ => [StdioTransport handle]
      | None => [Session handle; StdioTransport handle]
      end
    end
  end.

(** What the attempts for the enabled configurations enter. *)
Fixpoint entered_by (w : world) (first_handle i : nat)
    (enabled_configs : list ServerConfig) : list resource :=
  match enabled_configs with
  | [] => []
  | server_config :: r =>
    entered w server_config (attempt_of w i) (first_handle + i)
      ++ entered_by w first_handle (S i) r
  end.

(** What a task has entered where it stands. *)
Definition held (w : world) (t : task) : list resource :=
  match t_state t with
  | Running Validate | Running (Spawn _) => []
  | Running OpenSession => [StdioTransport (t_handle t)]
  | Running Initialize | Running ListTools | Finished None =>
    [Session (t_handle t); StdioTransport (t_handle t)]
  | Finished (Some _) => entered w (t_config t) (t_attempt t) (t_handle t)
  end.

(** Where a task stands agrees with the answers to its attempt. *)
Definition on_course (w : world) (t : task) : Prop :=
  match t_state t with
  | Running Validate | Finished (Some _) => True
  | Running (Spawn p) => validate w (t_config t) = Ret p
  | Running OpenSession =>
    exists p, validate w (t_config t) = Ret p /\ spawn (t_attempt t) p = None
  | Running Initialize | Running ListTools | Finished None =>
    entered w (t_config t) (t_attempt t) (t_handle t)
    = [Session (t_handle t); StdioTransport (t_handle t)]
  end.

(** Every session of an exit stack lies above the transport it runs on:
    [aclose] leaves the session first. *)
Definition sessions_above_transports (stack : list resource) : Prop :=
  forall h above below,
    stack = above ++ Session h :: below -> In (StdioTransport h) below.

(** The handle of a resource. *)
Definition handle_of (r : resource) : nat :=
  match r with StdioTransport h | Session h => h end.

(** An exit stack as the client keeps it: every context manager is on it
    once, every session above its transport, and the handles are older
    than the next one. *)
Definition tidy (c : client) : Prop :=
  NoDup (exit_stack c)
  /\ sessions_above_transports (exit_stack c)
  /\ Forall (fun r => handle_of r < next_handle c) (exit_stack c).

(* ================================================================== *)
(** * The interactive loop and the entry point                         *)
(* ================================================================== *)

(** [str(n)] for a length. *)
Definition str_of_nat (n : nat) : str :=
  lit (NilZero.string_of_uint (Nat.to_uint n)).

(** What reaches the terminal: the arguments of [print] and the prompts
    of [input]. *)
Inductive output :=
| Printed (s : str)
| Prompt (s : str).

(** What a call of [input] does: it returns the line that was typed, it
    raises an exception (an [EOFError] when the input is closed), or it
    is interrupted from the keyboard, which is no [Exception]. *)
Inductive input_event :=
| Typed (line : str)
| InputRaises (e : exn)
| Interrupted.

(** [_show_servers] *)
Definition _show_servers (c : client) : list output :=
  Printed (nl ++ lit "已连接的服务器:")
    :: map (fun kv =>
              Printed (lit "- " ++ fst kv ++ lit ": "
                         ++ description (conn_config (snd kv)) ++ lit " ("
                         ++ str_of_nat (List.length (tools (snd kv)))
                         ++ lit " 个工具)"))
           (servers c).

(** The line of [_show_tools] for one tool. *)
Definition tool_line (t : tool) : output :=
  Printed (lit "  - " ++ tool_name t ++ lit ": "
             ++ py_str_option (tool_description t)).

(** [_show_tools] *)
Definition _show_tools (c : client) : list output :=
  Printed (nl ++ lit "所有可用工具:")
    :: flat_map (fun kv =>
                   Printed (nl ++ lit "服务器 " ++ fst kv ++ lit ":")
                     :: map tool_line (tools (snd kv)))
                (servers c).

(** How [chat_loop] stands after some inputs: it was left by [quit], it
    was interrupted, or it waits for the next line. *)
Inductive chat_end :=
| Quit
| KeyboardInterrupt
| AwaitsInput.

Section Chat.

Variable payload : Type.
Variable str_of_payload : payload -> str.
Variable str_of_args : json -> str.
Variable json_loads : str -> res json.

(** [str.lower] *)
Variable lower : str -> str.

(** The collaborators; the first argument is the number of the query in
    the loop, the second counts the calls within the query. *)
Variable anthropic_create
  : nat -> nat -> anthropic_request payload -> res (list block).
Variable generation_call : nat -> nat -> qwen_request payload -> res qwen_response.
Variable session_call_tool
  : nat -> nat -> nat -> str -> json -> res (CallToolResult payload).

(** The state of the loop: what was written to the terminal, and the
    queries that were given to [process_query], each with its turn. *)
Record chat := {
  terminal : list output;
  asked : list (str * turn payload)
}.

Definition emit (o : list output) (s : chat) : chat :=
  {| terminal := terminal s ++ o; asked := asked s |}.

Definition error_line (e : exn) : output :=
  Printed (nl ++ lit "错误: " ++ exn_text e).

(** The query with the number [k]. *)
Definition nth_query (k : nat) (c : client) (query : str)
    : res str * turn payload :=
  process_query str_of_payload str_of_args json_loads (anthropic_create k)
                (generation_call k) (session_call_tool k) c query.

(** Lines 364-381: the loop, for the calls of [input] that are given. *)
Fixpoint iterate (c : client) (inputs : list input_event) (s : chat)
    : chat_end * chat :=
  let s := emit [Prompt (nl ++ lit "查询: ")] s in
  match inputs with
  | [] => (AwaitsInput, s)
  | Interrupted :: _ => (KeyboardInterrupt, s)
  | InputRaises e :: rest => iterate c rest (emit [error_line e] s)
  | Typed line :: rest =>
    let query := strip line in
    if Str.eqb (lower query) (lit "quit") then (Quit, s)
    else if Str.eqb (lower query) (lit "servers")
    then iterate c rest (emit (_show_servers c) s)
    else if Str.eqb (lower query) (lit "tools")
    then iterate c rest (emit (_show_tools c) s)
    else
      let (r, t) := nth_query (List.length (asked s)) c query in
      let s := {| terminal := terminal s; asked := asked s ++ [(query, t)] |} in
      match r with
      | Ret response => iterate c rest (emit [Printed (nl ++ response)] s)
      | Raise e => iterate c rest (emit [error_line e] s)
      end
  end.

Definition banner : list output :=
  [ Printed (nl ++ lit "多服务器MCP客户端已启动!");
    Printed (lit "输入查询或输入 'quit' 退出。");
    Printed (lit "输入 'servers' 查看已连接的服务器。");
    Printed (lit "输入 'tools' 查看所有可用工具。") ].

(** [chat_loop] *)
Definition chat_loop (c : client) (inputs : list input_event)
    : chat_end * chat :=
  iterate c inputs {| terminal := banner; asked := [] |}.

(** How [main] ends: it returns, it leaves through [sys.exit], the
    interrupt goes on to the caller, or the loop still waits for a
    line. *)
Inductive main_end :=
| Returns
| Exits (code : Z)
| Interrupt
| Awaits.

(** [client.model_config.get('provider')] as it is written out. *)
Variable provider_text : client -> str.

(** [main], lines 416-434.  [construct] is what
    [MultiServerMCPClient(args.config)] gives.  The third component is
    the client when [main] ends, if one was constructed. *)
Definition main (construct : res client) (w : world) (schedule : list nat)
    (inputs : list input_event) (leave : resource -> exit_outcome)
    : main_end * list output * option client :=
  match construct with
  | Raise e => (Exits 1, [Printed (lit "错误: " ++ exn_text e)], None)
  | Ret c =>
    let c := connect_to_servers w schedule c in
    match servers c with
    | [] =>
      (Exits 1, [Printed (lit "没有成功连接到任何服务器")],
       Some (snd (cleanup leave c)))
    | _ :: _ =>
      let out :=
        [ Printed (nl ++ lit "使用模型: " ++ provider_text c ++ lit " - "
                     ++ py_str_option (model (model_config c)));
          Printed (lit "已连接 " ++ str_of_nat (List.length (servers c))
                     ++ lit " 个服务器") ] in
      match chat_loop c inputs with
      | (Quit, s) =>
        (Returns, out ++ terminal s, Some (snd (cleanup leave c)))
      | (KeyboardInterrupt, s) =>
        (Interrupt, out ++ terminal s, Some (snd (cleanup leave c)))
      | (AwaitsInput, s) => (Awaits, out ++ terminal s, Some c)
      end
    end
  end.

(** ** What the inputs are to the loop *)

(** The input ends the loop. *)
Definition stops (ev : input_event) : bool :=
  match ev with
  | Typed line => Str.eqb (lower (strip line)) (lit "quit")
  | InputRaises _ => false
  | Interrupted => true
  end.

(** The input is a question for the model, and not one of the commands. *)
Definition question_of (ev : input_event) : list str :=
  match ev with
  | Typed line =>
    if Str.eqb (lower (strip line)) (lit "quit")
       || Str.eqb (lower (strip line)) (lit "servers")
       || Str.eqb (lower (strip line)) (lit "tools")
    then []
    else [strip line]
  | _ => []
  end.

(** The inputs that the loop reads: those before the first that ends
    it. *)
Fixpoint read (inputs : list input_event) : list input_event :=
  match inputs with
  | [] => []
  | ev :: rest => if stops ev then [] else ev :: read rest
  end.

(** The first model call of a query. *)
Definition first_call (c : client) (query : str) : event payload :=
  match client_type c with
  | Anthropic => AnthropicCall (first_anthropic_request payload c query)
  | Qwen => QwenCall (first_qwen_request payload c query)
  end.

End Chat.

Module SampleChat.

(** [str.lower] on text whose letters are those of ASCII. *)
Definition lower (s : str) : str :=
  map (fun c => if ((65 <=? c) && (c <=? 90))%N then (c + 32)%N else c) s.

(** A session at the terminal: a question, the command [tools], a failure
    of [input], and [quit] in capitals with blanks around it; the line
    behind it is never read. *)
Definition session : list input_event :=
  [ Typed (lit "1+2?"); Typed (lit "tools");
    InputRaises (Exn RuntimeError (lit "EOF when reading a line"));
    Typed (lit "  QUIT "); Typed (lit "2+2?") ].

Definition chat (c : client) (inputs : list input_event)
    : chat_end * chat str :=
  chat_loop SampleTalk.show_payload SampleTalk.show_args Json.loads lower
            (fun _ => SampleTalk.answers [])
            (fun _ => SampleTalk.says (lit "It is 3."))
            (fun _ => SampleCalls.echo) c inputs.

Definition run_main (construct : res client) (w : world)
    (inputs : list input_event) : main_end * list output * option client :=
  main SampleTalk.show_payload SampleTalk.show_args Json.loads lower
       (fun _ => SampleTalk.answers [])
       (fun _ => SampleTalk.says (lit "It is 3."))
       (fun _ => SampleCalls.echo) (fun _ => lit "qwen")
       construct w [] inputs Sample.noisy.

End SampleChat.

(* ================================================================== *)
(** * The single-server client                                         *)
(* ================================================================== *)

(** The fields of [MCPClient] ([mcp-client/client.py]): the session is
    [None] until a server is connected. *)
Record MCPClient := {
  mc_model_config : model_settings;
  mc_client_type : provider;
  mc_session : option nat;
  mc_exit_stack : list resource
}.

(** [__init__], once the model client is initialised. *)
Definition new_MCPClient (m : model_settings) (p : provider) : MCPClient :=
  {| mc_model_config := m; mc_client_type := p; mc_session := None;
     mc_exit_stack := [] |}.

Definition mc_push (r : resource) (c : MCPClient) : MCPClient :=
  {| mc_model_config := mc_model_config c; mc_client_type := mc_client_type c;
     mc_session := mc_session c; mc_exit_stack := r :: mc_exit_stack c |}.

Definition mc_with_session (h : nat) (c : MCPClient) : MCPClient :=
  {| mc_model_config := mc_model_config c; mc_client_type := mc_client_type c;
     mc_session := Some h; mc_exit_stack := mc_exit_stack c |}.

(** [connect_to_server], lines 122-149.  The script is not looked for in
    the file system; the session is stored as soon as its context is
    entered, before the handshake.  It returns the names that it
    prints. *)
Definition single_connect_to_server (a : attempt) (handle : nat)
    (c : MCPClient) (server_script_path : str) : res (list str) * MCPClient :=
  let is_python := endswith (lit ".py") server_script_path in
  let is_js := endswith (lit ".js") server_script_path in
  if negb (is_python || is_js) then
    (Raise (Exn ValueError (lit "Server script must be a .py or .js file")), c)
  else
    let server_params :=
      {| command := if is_python then lit "python" else lit "node";
         args := [server_script_path] |} in
    match spawn a server_params with
    | Some e => (Raise e, c)
    | None =>
      let c := mc_push (StdioTransport handle) c in
      match open_session a with
      | Some e => (Raise e, c)
      | None =>
        let c := mc_with_session handle (mc_push (Session handle) c) in
        match initialize a with
        | Some e => (Raise e, c)
        | None =>
          match list_tools a with
          | Raise e => (Raise e, c)
          | Ret announced => (Ret (map mcp_name announced), c)
          end
        end
      end
    end.

(** [cleanup], lines 273-275: what [aclose] raises leaves the method. *)
Definition single_cleanup (leave : resource -> exit_outcome) (c : MCPClient)
    : res unit * MCPClient :=
  (match unwind leave (mc_exit_stack c) None with
   | Some e => Raise e
   | None => Ret tt
   end,
   {| mc_model_config := mc_model_config c; mc_client_type := mc_client_type c;
      mc_session := mc_session c; mc_exit_stack := [] |}).

(** Lines 161-165: the tools as the single-server client keeps them,
    without the key [server]. *)
Definition single_tools_of (announced : list mcp_tool) : list tool :=
  map (fun t => {| tool_name := mcp_name t;
                   tool_description := mcp_description t;
                   input_schema := inputSchema t;
                   server := None |}) announced.

Section SingleConversation.

Variable payload : Type.
Variable str_of_payload : payload -> str.
Variable str_of_args : json -> str.
Variable json_loads : str -> res json.

(** The collaborators.  [session_list_tools] is [session.list_tools()]
    for the session with the given handle; the first argument of the
    others counts the earlier calls of the same kind in the query. *)
Variable anthropic_create : nat -> anthropic_request payload -> res (list block).
Variable generation_call : nat -> qwen_request payload -> res qwen_response.
Variable session_list_tools : nat -> res (list mcp_tool).
Variable session_call_tool : nat -> nat -> str -> json -> res (CallToolResult payload).

Definition single_max_tokens (c : MCPClient) : Z :=
  match max_tokens (mc_model_config c) with Some n => n | None => 1000%Z end.

(** [_call_model], lines 61-69. *)
Definition single_call_model_anthropic (c : MCPClient) (n : nat)
    (messages : list (message payload)) (available_tools : list tool)
    : res (list block) * list (event payload) :=
  let req := {| req_model := model (mc_model_config c);
                req_max_tokens := single_max_tokens c;
                req_messages := messages;
                req_tools := match available_tools with
                             | [] => None
                             | _ :: _ => Some available_tools
                             end |} in
  (anthropic_create n req, [AnthropicCall req]).

(** [_call_model], lines 71-120. *)
Definition single_call_model_qwen (c : MCPClient) (n : nat)
    (messages : list (message payload)) (available_tools : list tool)
    : res qwen_response * list (event payload) :=
  match qwen_payload str_of_payload single_marker single_tools_info messages
                     available_tools with
  | Raise e => (Raise e, [])
  | Ret qwen_messages =>
    let req := {| qreq_model := model (mc_model_config c);
                  qreq_messages := qwen_messages;
                  qreq_max_tokens := single_max_tokens c |} in
    (generation_call n req, [QwenCall req])
  end.

(** The local state of [process_query]; a tool result is kept with the
    name of the tool. *)
Record single_turn := {
  st_messages : list (message payload);
  st_final_text : list str;
  st_tool_results : list (str * CallToolResult payload);
  st_events : list (event payload)
}.

Definition st_say (s : str) (t : single_turn) : single_turn :=
  {| st_messages := st_messages t; st_final_text := st_final_text t ++ [s];
     st_tool_results := st_tool_results t; st_events := st_events t |}.

Definition st_add_message (m : message payload) (t : single_turn) : single_turn :=
  {| st_messages := st_messages t ++ [m]; st_final_text := st_final_text t;
     st_tool_results := st_tool_results t; st_events := st_events t |}.

Definition st_add_result (tool_name : str) (r : CallToolResult payload)
    (t : single_turn) : single_turn :=
  {| st_messages := st_messages t; st_final_text := st_final_text t;
     st_tool_results := st_tool_results t ++ [(tool_name, r)];
     st_events := st_events t |}.

Definition st_record (evs : list (event payload)) (t : single_turn) : single_turn :=
  {| st_messages := st_messages t; st_final_text := st_final_text t;
     st_tool_results := st_tool_results t; st_events := st_events t ++ evs |}.

Definition st_start (query : str) : single_turn :=
  {| st_messages := [{| role := lit "user"; content := Text payload query |}];
     st_final_text := []; st_tool_results := []; st_events := [] |}.

Definition single_calling (tool_name : str) (tool_args : json) : str :=
  lit "[Calling tool " ++ tool_name ++ lit " with args "
    ++ str_of_args tool_args ++ lit "]".

(** Lines 179-200: one [tool_use] block.  Nothing is caught here: the
    first component is the exception that leaves the method. *)
Definition single_use_tool_anthropic (c : MCPClient) (h : nat)
    (available_tools : list tool) (tool_name : str) (tool_args : json)
    (text : option str) (t : single_turn) : option exn * single_turn :=
  let n := List.length (transport_calls (st_events t)) in
  let t := st_record [TransportCall payload h tool_name tool_args] t in
  match session_call_tool n h tool_name tool_args with
  | Raise e => (Some e, t)
  | Ret result =>
    let t := st_add_result tool_name result t in
    let t := st_say (single_calling tool_name tool_args) t in
    let t := match text with
             | Some ((_ :: _) as s) =>
               st_add_message {| role := lit "assistant";
                                 content := Text payload s |} t
             | _ => t
             end in
    let t := st_add_message {| role := lit "user";
                               content := Structured (result_content result) |}
                            t in
    let (response, ev) :=
      single_call_model_anthropic c (List.length (model_calls (st_events t)))
                                  (st_messages t) available_tools in
    let t := st_record ev t in
    match response with
    | Raise e => (Some e, t)
    | Ret blocks =>
      match first_text blocks with
      | Raise e => (Some e, t)
      | Ret s => (None, st_say s t)
      end
    end
  end.

(** Lines 175-200: the loop over the content blocks, which an exception
    leaves. *)
Fixpoint single_blocks (c : MCPClient) (h : nat) (available_tools : list tool)
    (blocks : list block) (t : single_turn) : option exn * single_turn :=
  match blocks with
  | [] => (None, t)
  | TextBlock s :: rest =>
    single_blocks c h available_tools rest (st_say s t)
  | ToolUseBlock tool_name tool_args text :: rest =>
    match single_use_tool_anthropic c h available_tools tool_name tool_args
                                    text t with
    | (Some e, t) => (Some e, t)
    | (None, t) => single_blocks c h available_tools rest t
    end
  | OtherBlock _ _ :: rest => single_blocks c h available_tools rest t
  end.

Definition single_parse_failed (e : exn) : str :=
  lit "Error parsing tool call: " ++ exn_text e.

(** The [except] clause of lines 240-242. *)
Definition single_recover (e : exn) (message_content : str) (t : single_turn)
    : single_turn :=
  st_say message_content (st_say (single_parse_failed e) t).

(** Lines 211-242: the [try] statement for the sentinel line. *)
Definition single_use_tool_qwen (c : MCPClient) (h : nat)
    (available_tools : list tool) (message_content line : str)
    (t : single_turn) : single_turn :=
  match parse_tool_call json_loads line with
  | Raise e => single_recover e message_content t
  | Ret (tool_name, tool_args) =>
    let n := List.length (transport_calls (st_events t)) in
    let t := st_record [TransportCall payload h tool_name tool_args] t in
    match session_call_tool n h tool_name tool_args with
    | Raise e => single_recover e message_content t
    | Ret result =>
      let t := st_add_result tool_name result t in
      let t := st_say (single_calling tool_name tool_args) t in
      let t := st_add_message {| role := lit "assistant";
                                 content := Text payload message_content |} t in
      let t := st_add_message
                 {| role := lit "user";
                    content := Text payload
                                 (single_marker
                                    ++ str_of_payload (result_content result)) |}
                 t in
      let (response, ev) :=
        single_call_model_qwen c (List.length (model_calls (st_events t)))
                               (st_messages t) available_tools in
      let t := st_record ev t in
      match response with
      | Raise e => single_recover e message_content t
      | Ret response =>
        if (status_code response =? 200)%Z
        then st_say (output_content response) t
        else t
      end
    end
  end.

(** Lines 209-246: the loop over the lines. *)
Fixpoint single_scan_lines (c : MCPClient) (h : nat)
    (available_tools : list tool) (message_content : str) (lines : list str)
    (t : single_turn) : single_turn :=
  match lines with
  | [] => st_say message_content t
  | line :: rest =>
    if is_sentinel_line line
    then single_use_tool_qwen c h available_tools message_content line t
    else single_scan_lines c h available_tools message_content rest t
  end.

(** [process_query], lines 151-253. *)
Definition single_process_query (c : MCPClient) (query : str)
    : res str * single_turn :=
  let t := st_start query in
  match mc_session c with
  | None =>
    (Raise (Exn AttributeError
              (lit "'NoneType' object has no attribute 'list_tools'")), t)
  | Some h =>
    match session_list_tools h with
    | Raise e => (Raise e, t)
    | Ret announced =>
      let available_tools := single_tools_of announced in
      match mc_client_type c with
      | Anthropic =>
        let (response, ev) :=
          single_call_model_anthropic c 0 (st_messages t) available_tools in
        let t := st_record ev t in
        match response with
        | Raise e => (Raise e, t)
        | Ret blocks =>
          match single_blocks c h available_tools blocks t with
          | (Some e, t) => (Raise e, t)
          | (None, t) => (Ret (join nl (st_final_text t)), t)
          end
        end
      | Qwen =>
        let (response, ev) :=
          single_call_model_qwen c 0 (st_messages t) available_tools in
        let t := st_record ev t in
        match response with
        | Raise e => (Raise e, t)
        | Ret response =>
          let t :=
            if (status_code response =? 200)%Z then
              let message_content := output_content response in
              if contains sentinel message_content
              then single_scan_lines c h available_tools message_content
                                     (split_char 10 message_content) t
              else st_say message_content t
            else st_say (lit "Error: " ++ response_message response) t in
          (Ret (join nl (st_final_text t)), t)
        end
      end
    end
  end.

(** The first requests of a query, which hold the question alone. *)
Definition single_first_anthropic_request (c : MCPClient) (query : str)
    (announced : list mcp_tool) : anthropic_request payload :=
  {| req_model := model (mc_model_config c);
     req_max_tokens := single_max_tokens c;
     req_messages := [{| role := lit "user"; content := Text payload query |}];
     req_tools := match single_tools_of announced with
                  | [] => None
                  | _ :: _ => Some (single_tools_of announced)
                  end |}.

Definition single_first_qwen_request (c : MCPClient) (query : str)
    (announced : list mcp_tool) : qwen_request payload :=
  {| qreq_model := model (mc_model_config c);
     qreq_messages :=
       [{| role := lit "user";
           content :=
             Text payload
                  match single_tools_of announced with
                  | [] => query
                  | _ :: _ =>
                    single_tools_info (single_tools_of announced)
                      ++ nl ++ nl ++ query
                  end |}];
     qreq_max_tokens := single_max_tokens c |}.

End SingleConversation.

Section SingleChat.

Variable payload : Type.
Variable str_of_payload : payload -> str.
Variable str_of_args : json -> str.
Variable json_loads : str -> res json.
Variable lower : str -> str.

(** The collaborators; the first argument is the number of the query in
    the loop. *)
Variable anthropic_create
  : nat -> nat -> anthropic_request payload -> res (list block).
Variable generation_call : nat -> nat -> qwen_request payload -> res qwen_response.
Variable session_list_tools : nat -> nat -> res (list mcp_tool).
Variable session_call_tool
  : nat -> nat -> nat -> str -> json -> res (CallToolResult payload).

Record single_chat := {
  s_terminal : list output;
  s_asked : list (str * single_turn payload)
}.

Definition s_emit (o : list output) (s : single_chat) : single_chat :=
  {| s_terminal := s_terminal s ++ o; s_asked := s_asked s |}.

Definition single_error_line (e : exn) : output :=
  Printed (nl ++ lit "Error: " ++ exn_text e).

Definition single_nth_query (k : nat) (c : MCPClient) (query : str)
    : res str * single_turn payload :=
  single_process_query str_of_payload str_of_args json_loads
                       (anthropic_create k) (generation_call k)
                       (session_list_tools k) (session_call_tool k) c query.

(** Lines 260-271: the loop, for the calls of [input] that are given. *)
Fixpoint single_iterate (c : MCPClient) (inputs : list input_event)
    (s : single_chat) : chat_end * single_chat :=
  let s := s_emit [Prompt (nl ++ lit "Query: ")] s in
  match inputs with
  | [] => (AwaitsInput, s)
  | Interrupted :: _ => (KeyboardInterrupt, s)
  | InputRaises e :: rest =>
    single_iterate c rest (s_emit [single_error_line e] s)
  | Typed line :: rest =>
    let query := strip line in
    if Str.eqb (lower query) (lit "quit") then (Quit, s)
    else
      let (r, t) := single_nth_query (List.length (s_asked s)) c query in
      let s := {| s_terminal := s_terminal s;
                  s_asked := s_asked s ++ [(query, t)] |} in
      match r with
      | Ret response =>
        single_iterate c rest (s_emit [Printed (nl ++ response)] s)
      | Raise e => single_iterate c rest (s_emit [single_error_line e] s)
      end
  end.

(** [chat_loop], lines 255-271. *)
Definition single_chat_loop (c : MCPClient) (inputs : list input_event)
    : chat_end * single_chat :=
  single_iterate c inputs
    {| s_terminal := [ Printed (nl ++ lit "MCP Client Started!");
                       Printed (lit "Type your queries or 'quit' to exit.") ];
       s_asked := [] |}.

(** How [main] of the single-server client ends: it returns, it leaves
    through [sys.exit], an exception leaves it, the name [client] is not
    bound when the [finally] clause uses it, the interrupt goes on to the
    caller, or the loop still waits for a line. *)
Inductive single_main_end :=
| SingleReturns
| SingleExits (code : Z)
| SingleRaises (e : exn)
| SingleUnboundLocalError
| SingleInterrupt
| SingleAwaits.

(** What [print] writes for the names of the tools, and for the provider
    and the model. *)
Variable connected_text : list str -> str.
Variable using_text : MCPClient -> str.

(** What the [finally] clause of line 327 makes of the way the [try]
    statement was left. *)
Definition single_finally (leave : resource -> exit_outcome) (c : MCPClient)
    (ending : single_main_end) (out : list output)
    : single_main_end * list output * option MCPClient :=
  match single_cleanup leave c with
  | (Raise e, c') => (SingleRaises e, out, Some c')
  | (Ret _, c') => (ending, out, Some c')
  end.

(** [main], lines 319-328.  [construct] is what [MCPClient(model_config)]
    gives. *)
Definition single_main (construct : res MCPClient) (a : attempt) (handle : nat)
    (server_script : str) (inputs : list input_event)
    (leave : resource -> exit_outcome)
    : single_main_end * list output * option MCPClient :=
  match construct with
  | Raise e =>
    (SingleUnboundLocalError, [Printed (lit "Error: " ++ exn_text e)], None)
  | Ret c =>
    match single_connect_to_server a handle c server_script with
    | (Raise e, c) =>
      single_finally leave c (SingleExits 1)
                     [Printed (lit "Error: " ++ exn_text e)]
    | (Ret names, c) =>
      let out := [ Printed (connected_text names); Printed (using_text c) ] in
      match single_chat_loop c inputs with
      | (Quit, s) => single_finally leave c SingleReturns (out ++ s_terminal s)
      | (KeyboardInterrupt, s) =>
        single_finally leave c SingleInterrupt (out ++ s_terminal s)
      | (AwaitsInput, s) => (SingleAwaits, out ++ s_terminal s, Some c)
      end
    end
  end.

End SingleChat.

Module SampleSingle.

(** A single-server client that is connected to the calculator. *)
Definition connected (p : provider) : MCPClient :=
  snd (single_connect_to_server (Sample.answering [Sample.announces "add"]) 0
         (new_MCPClient Sample.settings p) (lit "calculator.py")).

Definition lists : nat -> res (list mcp_tool) :=
  fun _ => Ret [Sample.announces "add"].

(** A transport that has lost its server. *)
Definition broken : nat -> nat -> str -> json -> res (CallToolResult str) :=
  fun _ _ _ _ => Raise (Exn RuntimeError (lit "Connection closed")).

Definition ask (c : MCPClient) (blocks : list block) (first : str)
    : res str * single_turn str :=
  single_process_query SampleTalk.show_payload SampleTalk.show_args Json.loads
                       (SampleTalk.answers blocks) (SampleTalk.says first)
                       lists broken c (lit "1+2?").

End SampleSingle.

(* ================================================================== *)
(** * Facts about text and dictionaries                                *)
(* ================================================================== *)

Lemma str_eqb_spec (a b : str) : reflect (a = b) (Str.eqb a b).
Proof.
  revert b; induction a as [|x a IH]; intros [|y b]; simpl;
    try (constructor; congruence).
  destruct (N.eqb_spec x y) as [->|Hne]; simpl.
  - destruct (IH b) as [->|Hne]; constructor; congruence.
  - constructor; congruence.
Qed.

Lemma str_eqb_refl (a : str) : Str.eqb a a = true.
Proof. destruct (str_eqb_spec a a); congruence. Qed.

Lemma str_eqb_eq (a b : str) : Str.eqb a b = true <-> a = b.
Proof. destruct (str_eqb_spec a b); split; congruence. Qed.

Lemma str_eqb_neq (a b : str) : Str.eqb a b = false <-> a <> b.
Proof. destruct (str_eqb_spec a b); split; congruence. Qed.

Lemma startswith_app (p s : str) : startswith p (p ++ s) = true.
Proof. induction p; simpl; [reflexivity|]. now rewrite N.eqb_refl. Qed.

Lemma startswith_prefix (p s : str) :
  startswith p s = true -> exists r, s = p ++ r.
Proof.
  revert s; induction p as [|x p IH]; intros s H; simpl in *.
  - now exists s.
  - destruct s as [|y s]; [discriminate|].
    apply andb_prop in H as [Hx Hp]. apply N.eqb_eq in Hx as ->.
    destruct (IH _ Hp) as [r ->]. now exists r.
Qed.

(** A line that starts with a marker contains it: the membership test of
    the caller never hides a line that the scan would accept. *)
Lemma startswith_contains (p s : str) :
  startswith p s = true -> contains p s = true.
Proof. destruct s; simpl; intros ->; reflexivity. Qed.

Section DictFacts.

Variable V : Type.
Implicit Types (d : Dict.dict V) (v : V) (k : str).

Lemma dict_get_set_same k v d : Dict.get k (Dict.set k v d) = Some v.
Proof.
  induction d as [|[k' v'] d IH]; simpl.
  - now rewrite str_eqb_refl.
  - destruct (Str.eqb k k') eqn:E; simpl; rewrite ?str_eqb_refl, ?E; auto.
Qed.

Lemma dict_get_set_other k k' v d :
  k' <> k -> Dict.get k' (Dict.set k v d) = Dict.get k' d.
Proof.
  intros Hne. induction d as [|[k0 v0] d IH]; simpl.
  - apply str_eqb_neq in Hne. now rewrite Hne.
  - destruct (Str.eqb k k0) eqn:E; simpl.
    + apply str_eqb_eq in E as <-.
      apply str_eqb_neq in Hne. now rewrite Hne.
    + now rewrite IH.
Qed.

Lemma dict_get_set k k' v d :
  Dict.get k' (Dict.set k v d) = if Str.eqb k' k then Some v else Dict.get k' d.
Proof.
  destruct (str_eqb_spec k' k) as [->|Hne].
  - apply dict_get_set_same.
  - now apply dict_get_set_other.
Qed.

Lemma dict_get_Some_In_keys k d :
  (exists v, Dict.get k d = Some v) <-> In k (Dict.keys d).
Proof.
  induction d as [|[k' v'] d IH]; simpl.
  - split; [intros [? ?]; discriminate | tauto].
  - destruct (str_eqb_spec k k') as [->|Hne].
    + split; eauto.
    + rewrite IH. split; [tauto | intros [?|?]; congruence].
Qed.

Lemma dict_In_keys_set k k' v d :
  In k' (Dict.keys (Dict.set k v d)) <-> k' = k \/ In k' (Dict.keys d).
Proof.
  rewrite <- !dict_get_Some_In_keys, dict_get_set.
  destruct (str_eqb_spec k' k) as [->|Hne]; split; eauto;
    intros [?|?]; eauto; congruence.
Qed.

Lemma dict_In_set k v d e : In e (Dict.set k v d) -> e = (k, v) \/ In e d.
Proof.
  induction d as [|[k0 v0] d IH]; simpl.
  - intros [<-|[]]; auto.
  - destruct (Str.eqb k k0); simpl; intros [<-|H]; auto.
    destruct (IH H); auto.
Qed.

Lemma dict_get_Some_In k v d : Dict.get k d = Some v -> In (k, v) d.
Proof.
  induction d as [|[k0 v0] d IH]; simpl; [discriminate|].
  destruct (str_eqb_spec k k0) as [->|Hne]; [intros [= ->]|]; auto.
Qed.

Lemma dict_NoDup_keys_set k v d : NoDup (Dict.keys d) -> NoDup (Dict.keys (Dict.set k v d)).
Proof.
  induction d as [|[k0 v0] d IH]; simpl; intro H.
  - constructor; [tauto | constructor].
  - inversion H as [|? ? Hn Hd]; subst.
    destruct (str_eqb_spec k k0) as [->|Hne]; simpl.
    + constructor; assumption.
    + constructor; [|auto].
      intro Hin. apply dict_In_keys_set in Hin as [?|?]; congruence.
Qed.

End DictFacts.

Lemma contains_intro (p a b : str) : contains p (a ++ p ++ b) = true.
Proof.
  induction a as [|x a IH]; simpl.
  - destruct (p ++ b) eqn:E; simpl; rewrite <- ?E, startswith_app; reflexivity.
  - rewrite IH. apply orb_true_r.
Qed.

Lemma lstrip_suffix (s : str) : exists a, s = a ++ lstrip s.
Proof.
  induction s as [|c r [a IH]]; simpl.
  - now exists [].
  - destruct (isspace c).
    + exists (c :: a). simpl. now rewrite <- IH.
    + now exists [].
Qed.

Lemma strip_infix (s : str) : exists a b, s = a ++ strip s ++ b.
Proof.
  unfold strip, rstrip.
  destruct (lstrip_suffix s) as [a Ha].
  destruct (lstrip_suffix (rev (lstrip s))) as [a' Ha'].
  exists a, (rev a'). rewrite <- rev_app_distr, <- Ha', rev_involutive. exact Ha.
Qed.

Lemma split_char_head (c : N) (s : str) :
  exists h t b, split_char c s = h :: t /\ s = h ++ b.
Proof.
  induction s as [|x r (h & t & b & E & Hr)]; simpl.
  - now exists [], [], [].
  - destruct (x =? c)%N.
    + now exists [], (split_char c r), (x :: r).
    + rewrite E. exists (x :: h), t, b. simpl. now rewrite <- Hr.
Qed.

Lemma split_char_infix (c : N) (s line : str) :
  In line (split_char c s) -> exists a b, s = a ++ line ++ b.
Proof.
  revert line; induction s as [|x r IH]; intros line; simpl.
  - intros [<-|[]]. now exists [], [].
  - destruct (x =? c)%N.
    + intros [<-|H]; [now exists [], (x :: r)|].
      destruct (IH _ H) as (a & b & E). exists (x :: a), b. simpl. now rewrite <- E.
    + destruct (split_char_head c r) as (h & t & b & E & Hr). rewrite E in *.
      intros [<-|H].
      * exists [], b. simpl. now rewrite <- Hr.
      * destruct (IH line (or_intror H)) as (a & b' & E').
        exists (x :: a), b'. simpl. now rewrite <- E'.
Qed.

Lemma find_split_startswith (sep s : str) :
  startswith sep s = true ->
  find_split sep s = Some ([], skipn (List.length sep) s).
Proof. destruct s; simpl; intros ->; reflexivity. Qed.

(** A sentinel line is only found in a text that contains the sentinel:
    the test of line 308 never keeps the scan from a line it would
    accept. *)
Lemma sentinel_line_contains (message_content line : str) :
  In line (split_char 10 message_content) ->
  is_sentinel_line line = true ->
  contains sentinel message_content = true.
Proof.
  intros Hin Hs.
  destruct (split_char_infix _ _ _ Hin) as (a & b & ->).
  destruct (strip_infix line) as (a1 & b1 & E1).
  destruct (startswith_prefix _ _ Hs) as (r & E2).
  rewrite E1, E2.
  replace (a ++ (a1 ++ (sentinel ++ r) ++ b1) ++ b)
    with ((a ++ a1) ++ sentinel ++ (r ++ b1 ++ b))
    by (rewrite <- !app_assoc; reflexivity).
  apply contains_intro.
Qed.

(* ================================================================== *)
(** * Facts about the connection manager                               *)
(* ================================================================== *)

Section ConnectionFacts.

Variable w : world.

Lemma steps_trans x y z : steps w x y -> steps w y z -> steps w x z.
Proof.
  induction 1 as [x | i ts c y H IH]; intro Hz; [assumption|].
  eapply steps_step; eauto.
Qed.

Lemma run_schedule_steps schedule ts c :
  steps w (ts, c) (run_schedule w schedule ts c).
Proof.
  revert ts c; induction schedule as [|i rest IH]; intros ts c; simpl.
  - apply steps_refl.
  - destruct (step_at w i ts c) as [ts' c'] eqn:E.
    eapply steps_step. rewrite E. apply IH.
Qed.

Lemma steps_tail t x y :
  steps w x y -> steps w (t :: fst x, snd x) (t :: fst y, snd y).
Proof.
  induction 1 as [x | i ts c y H IH]; [apply steps_refl|].
  simpl in *. apply steps_step with (i := S i). simpl.
  destruct (step_at w i ts c) as [ts' c']; exact IH.
Qed.

Lemma steps_head t r c t' c' :
  step_task w t c = (t', c') -> steps w (t :: r, c) (t' :: r, c').
Proof.
  intros E. apply steps_step with (i := 0). simpl. rewrite E.
  apply steps_refl.
Qed.

Lemma connect_to_server_steps t r c :
  steps w (t :: r, c) (fst (_connect_to_server w t c) :: r, snd (_connect_to_server w t c)).
Proof.
  unfold _connect_to_server.
  destruct (step_task w t c) as [t1 c1] eqn:E1.
  destruct (step_task w t1 c1) as [t2 c2] eqn:E2.
  destruct (step_task w t2 c2) as [t3 c3] eqn:E3.
  destruct (step_task w t3 c3) as [t4 c4] eqn:E4.
  destruct (step_task w t4 c4) as [t5 c5] eqn:E5. simpl.
  eapply steps_trans; [eapply steps_head, E1|].
  eapply steps_trans; [eapply steps_head, E2|].
  eapply steps_trans; [eapply steps_head, E3|].
  eapply steps_trans; [eapply steps_head, E4|].
  eapply steps_head, E5.
Qed.

Lemma finish_all_steps ts c : steps w (ts, c) (finish_all w ts c).
Proof.
  revert c; induction ts as [|t r IH]; intro c; simpl; [apply steps_refl|].
  pose proof (connect_to_server_steps t r c) as H1.
  destruct (_connect_to_server w t c) as [t' c']. simpl in H1.
  pose proof (steps_tail t' (IH c')) as H2.
  destruct (finish_all w r c') as [r' c'']. simpl in H2.
  eapply steps_trans; eassumption.
Qed.

Lemma gather_steps schedule ts c : steps w (ts, c) (gather w schedule ts c).
Proof.
  unfold gather.
  pose proof (run_schedule_steps schedule ts c) as H1.
  destruct (run_schedule w schedule ts c) as [ts1 c1].
  eapply steps_trans; [exact H1 | apply finish_all_steps].
Qed.

(** Case analysis on one step of a task. *)
Ltac step_cases t :=
  destruct t as [cfg h a [[|p| | | ]|r]]; unfold step_task, fail, with_state; simpl;
  [ destruct (validate w cfg) as [p|e] eqn:Hv
  | destruct (spawn a p) as [e|] eqn:Hs
  | destruct (open_session a) as [e|] eqn:Ho
  | destruct (initialize a) as [e|] eqn:Hi
  | destruct (list_tools a) as [announced|e] eqn:Hl
  | ]; simpl.

Lemma step_task_same t c : same_task w t (fst (step_task w t c)).
Proof.
  unfold same_task, fate.
  step_cases t; repeat split; auto; unfold outcome;
    rewrite ?Hv, ?Hs, ?Ho, ?Hi, ?Hl; simpl; try reflexivity;
    repeat (match goal with
            | |- context [match ?x with _ => _ end] => destruct x eqn:?
            end; simpl);
    congruence.
Qed.

Lemma same_task_refl t : same_task w t t.
Proof. unfold same_task; auto. Qed.

Lemma same_task_trans t1 t2 t3 :
  same_task w t1 t2 -> same_task w t2 t3 -> same_task w t1 t3.
Proof. unfold same_task; intuition congruence. Qed.

Lemma Forall2_same_refl ts : Forall2 (same_task w) ts ts.
Proof. induction ts; constructor; auto using same_task_refl. Qed.

Lemma Forall2_same_trans ts1 ts2 ts3 :
  Forall2 (same_task w) ts1 ts2 -> Forall2 (same_task w) ts2 ts3 ->
  Forall2 (same_task w) ts1 ts3.
Proof.
  intro H; revert ts3; induction H; intros ts3 H3; inversion H3; subst;
    constructor; eauto using same_task_trans.
Qed.

Lemma step_at_same i ts c : Forall2 (same_task w) ts (fst (step_at w i ts c)).
Proof.
  revert i c; induction ts as [|t r IH]; intros i c; simpl; [constructor|].
  destruct i as [|j].
  - pose proof (step_task_same t c) as H.
    destruct (step_task w t c) as [t' c']; simpl in *.
    constructor; [assumption | apply Forall2_same_refl].
  - specialize (IH j c). destruct (step_at w j r c) as [r' c']; simpl in *.
    constructor; [apply same_task_refl | assumption].
Qed.

Lemma steps_same x y : steps w x y -> Forall2 (same_task w) (fst x) (fst y).
Proof.
  induction 1 as [x | i ts c y H IH]; [apply Forall2_same_refl|].
  simpl. eapply Forall2_same_trans; [apply (step_at_same i ts c) | exact IH].
Qed.

(** ** What the steps of the tasks leave alone *)

Lemma frame_refl c : frame c c.
Proof. unfold frame; repeat split; auto. now exists []. Qed.

Lemma frame_trans c1 c2 c3 : frame c1 c2 -> frame c2 c3 -> frame c1 c3.
Proof.
  unfold frame. intros (A1 & A2 & A3 & A4 & A5 & A6 & [m1 A7])
                       (B1 & B2 & B3 & B4 & B5 & B6 & [m2 B7]).
  repeat split; try congruence.
  exists (m2 ++ m1). rewrite B7, A7. now rewrite app_assoc.
Qed.

Lemma step_task_frame t c : frame c (snd (step_task w t c)).
Proof.
  unfold frame.
  step_cases t; repeat split; auto;
    rewrite ?filter_app, ?app_nil_r; simpl; rewrite ?app_nil_r; auto;
    try (now exists []);
    try (now eexists [_]).
Qed.

Lemma step_at_frame i ts c : frame c (snd (step_at w i ts c)).
Proof.
  revert i c; induction ts as [|t r IH]; intros i c; simpl; [apply frame_refl|].
  destruct i as [|j].
  - pose proof (step_task_frame t c) as H.
    destruct (step_task w t c) as [t' c']; exact H.
  - specialize (IH j c). destruct (step_at w j r c) as [r' c']; exact IH.
Qed.

Lemma steps_frame x y : steps w x y -> frame (snd x) (snd y).
Proof.
  induction 1 as [x | i ts c y H IH]; [apply frame_refl|].
  simpl. eapply frame_trans; [apply (step_at_frame i ts c) | exact IH].
Qed.

(** ** Every task ends *)

Lemma step_task_remaining t c :
  remaining (fst (step_task w t c)) <= pred (remaining t).
Proof. unfold remaining. step_cases t; lia. Qed.

Lemma connect_to_server_finished t c : finished (fst (_connect_to_server w t c)) = true.
Proof.
  unfold _connect_to_server.
  pose proof (step_task_remaining t c) as H1.
  destruct (step_task w t c) as [t1 c1]; simpl in H1.
  pose proof (step_task_remaining t1 c1) as H2.
  destruct (step_task w t1 c1) as [t2 c2]; simpl in H2.
  pose proof (step_task_remaining t2 c2) as H3.
  destruct (step_task w t2 c2) as [t3 c3]; simpl in H3.
  pose proof (step_task_remaining t3 c3) as H4.
  destruct (step_task w t3 c3) as [t4 c4]; simpl in H4.
  pose proof (step_task_remaining t4 c4) as H5.
  destruct (step_task w t4 c4) as [t5 c5]; simpl in *.
  assert (Hr : remaining t <= 5)
    by (unfold remaining; destruct (t_state t) as [[]|]; lia).
  assert (H0 : remaining t5 = 0) by lia.
  unfold remaining, finished in *.
  destruct (t_state t5) as [[]|]; (reflexivity || discriminate).
Qed.

Lemma finish_all_finished ts c :
  Forall (fun t => finished t = true) (fst (finish_all w ts c)).
Proof.
  revert c; induction ts as [|t r IH]; intro c; simpl; [constructor|].
  pose proof (connect_to_server_finished t c) as H.
  destruct (_connect_to_server w t c) as [t' c']; simpl in H.
  specialize (IH c'). destruct (finish_all w r c') as [r' c''].
  constructor; assumption.
Qed.

Lemma gather_finished schedule ts c :
  Forall (fun t => finished t = true) (fst (gather w schedule ts c)).
Proof.
  unfold gather. destruct (run_schedule w schedule ts c) as [ts1 c1].
  apply finish_all_finished.
Qed.

(** ** The connections that the steps store *)

Lemma step_task_servers t c :
  (servers (snd (step_task w t c)) = servers c
   /\ tool_server_map (snd (step_task w t c)) = tool_server_map c
   /\ returned (fst (step_task w t c)) = returned t)
  \/ (returned t = false /\ returned (fst (step_task w t c)) = true
      /\ t_state t = Running ListTools
      /\ exists announced,
           snd (step_task w t c)
           = register (t_config t) (t_handle t)
                      (tools_of (t_config t) announced) c).
Proof.
  step_cases t; auto.
  right; repeat split; eauto.
Qed.

Lemma done_names_cons t r k :
  In k (done_names (t :: r))
  <-> (returned t = true /\ name (t_config t) = k) \/ In k (done_names r).
Proof.
  unfold done_names; simpl. destruct (returned t); simpl; intuition congruence.
Qed.

Lemma step_at_keys i ts c (A : str -> Prop) :
  (forall k, In k (Dict.keys (servers c)) <-> A k \/ In k (done_names ts)) ->
  forall k, In k (Dict.keys (servers (snd (step_at w i ts c))))
            <-> A k \/ In k (done_names (fst (step_at w i ts c))).
Proof.
  revert i c A; induction ts as [|t r IH]; intros i c A H; simpl; [exact H|].
  destruct i as [|j].
  - pose proof (step_task_servers t c) as Hs.
    pose proof (step_task_same t c) as (Ec & _).
    destruct (step_task w t c) as [t' c']; simpl in *.
    intro k. specialize (H k). rewrite done_names_cons in *. rewrite Ec.
    destruct Hs as [(Es & _ & Er) | (Ef & Et & _ & announced & ->)].
    + rewrite Es, Er. exact H.
    + rewrite Ef in H. rewrite Et.
      unfold register; simpl. rewrite dict_In_keys_set, H.
      intuition (auto; congruence).
  - specialize (IH j c (fun k => A k \/ (returned t = true /\ name (t_config t) = k))).
    destruct (step_at w j r c) as [r' c']; simpl in *.
    intro k. rewrite done_names_cons, IH; [tauto|].
    intro k'. rewrite H, done_names_cons. tauto.
Qed.

Lemma steps_keys x y (A : str -> Prop) :
  steps w x y ->
  (forall k, In k (Dict.keys (servers (snd x))) <-> A k \/ In k (done_names (fst x))) ->
  forall k, In k (Dict.keys (servers (snd y))) <-> A k \/ In k (done_names (fst y)).
Proof.
  induction 1 as [x | i ts c y H IH]; intro Hx; [exact Hx|].
  apply IH. apply step_at_keys. exact Hx.
Qed.

Lemma step_task_NoDup t c :
  NoDup (Dict.keys (servers c)) ->
  NoDup (Dict.keys (servers (snd (step_task w t c)))).
Proof.
  intro H. destruct (step_task_servers t c) as [(Es & _) | (_ & _ & _ & an & ->)].
  - now rewrite Es.
  - unfold register; simpl. now apply dict_NoDup_keys_set.
Qed.

Lemma step_at_NoDup i ts c :
  NoDup (Dict.keys (servers c)) ->
  NoDup (Dict.keys (servers (snd (step_at w i ts c)))).
Proof.
  revert i c; induction ts as [|t r IH]; intros i c H; simpl; [exact H|].
  destruct i as [|j].
  - pose proof (@step_task_NoDup t c H) as H'.
    destruct (step_task w t c); exact H'.
  - specialize (IH j c H). destruct (step_at w j r c); exact IH.
Qed.

Lemma steps_NoDup x y :
  steps w x y -> NoDup (Dict.keys (servers (snd x))) ->
  NoDup (Dict.keys (servers (snd y))).
Proof.
  induction 1 as [x | i ts c y H IH]; intro Hx; [exact Hx|].
  apply IH. now apply step_at_NoDup.
Qed.

(** ** The tasks when [gather] returns *)

Lemma spawn_tasks_done first_handle i cfgs :
  done_names (spawn_tasks w first_handle i cfgs) = [].
Proof. revert i; induction cfgs; intro i; simpl; auto. apply IHcfgs. Qed.

Lemma finished_state t : finished t = true -> t_state t = Finished (fate w t).
Proof. unfold finished, fate. destruct (t_state t); [discriminate | reflexivity]. Qed.

Lemma report_console ts c :
  console (report ts c) = console c ++ flat_map report_line ts.
Proof.
  unfold report. revert c; induction ts as [|t r IH]; intro c; simpl.
  - now rewrite app_nil_r.
  - rewrite IH. unfold report_line.
    destruct (t_state t) as [|[e|]]; simpl; rewrite <- ?app_assoc; reflexivity.
Qed.

Lemma report_servers ts c : servers (report ts c) = servers c.
Proof.
  unfold report. revert c; induction ts as [|t r IH]; intro c; simpl; auto.
  rewrite IH. unfold report_line. destruct (t_state t) as [|[e|]]; reflexivity.
Qed.

Lemma report_tool_server_map ts c :
  tool_server_map (report ts c) = tool_server_map c.
Proof.
  unfold report. revert c; induction ts as [|t r IH]; intro c; simpl; auto.
  rewrite IH. unfold report_line. destruct (t_state t) as [|[e|]]; reflexivity.
Qed.

Lemma report_exit_stack ts c : exit_stack (report ts c) = exit_stack c.
Proof.
  unfold report. revert c; induction ts as [|t r IH]; intro c; simpl; auto.
  rewrite IH. unfold report_line. destruct (t_state t) as [|[e|]]; reflexivity.
Qed.

Lemma report_server_configs ts c : server_configs (report ts c) = server_configs c.
Proof.
  unfold report. revert c; induction ts as [|t r IH]; intro c; simpl; auto.
  rewrite IH. unfold report_line. destruct (t_state t) as [|[e|]]; reflexivity.
Qed.

(** The results that [gather] hands back are the outcomes of the
    attempts, whatever the schedule was. *)
Lemma final_summary first_handle i cfgs ts' :
  Forall2 (same_task w) (spawn_tasks w first_handle i cfgs) ts' ->
  Forall (fun t => finished t = true) ts' ->
  done_names ts'
  = map (fun x => name (fst x)) (filter succeeded (outcomes w i cfgs))
  /\ List.length (filter is_connected_line (flat_map report_line ts'))
     = List.length (filter succeeded (outcomes w i cfgs))
  /\ List.length (filter is_failed_line (flat_map report_line ts'))
     = List.length (filter (fun x => negb (succeeded x)) (outcomes w i cfgs)).
Proof.
  revert i ts'; induction cfgs as [|cfg r IH]; intros i ts' H2 Hf; simpl in *.
  - inversion H2; subst. simpl. auto.
  - inversion H2 as [|t0 t' r0 r' (Ec & _ & _ & Efate) Hr]; subst.
    inversion Hf as [|? ? Hfin Hfr]; subst.
    destruct (IH (S i) r' Hr Hfr) as (I1 & I2 & I3).
    pose proof (finished_state _ Hfin) as Est.
    rewrite Efate in Est. unfold fate in Est; simpl in Est.
    simpl in Ec.
    assert (Hret : returned t' = succeeded (cfg, outcome w cfg (attempt_of w i)))
      by (unfold returned, succeeded; rewrite Est; simpl;
          destruct (outcome w cfg (attempt_of w i)); reflexivity).
    assert (Hline : report_line t'
                    = match outcome w cfg (attempt_of w i) with
                      | Ret _ => [PrintConnected (name cfg)]
                      | Raise e => [PrintFailed (name cfg) e]
                      end)
      by (unfold report_line; rewrite Est, Ec;
          destruct (outcome w cfg (attempt_of w i)); reflexivity).
    unfold done_names in *.
    cbn [filter flat_map]. rewrite Hret, Hline, !filter_app, !length_app, I2, I3.
    unfold succeeded at 1 3 5.
    destruct (outcome w cfg (attempt_of w i)) as [announced|e];
      cbn [snd fst raises negb map filter List.length app];
      rewrite ?Ec, I1; auto.
Qed.

(** ** [connect_to_servers] from any client *)

Lemma connect_to_servers_spec schedule c :
  let c' := connect_to_servers w schedule c in
  (forall k, In k (Dict.keys (servers c'))
             <-> In k (Dict.keys (servers c))
                 \/ In k (connected_names w (server_configs c)))
  /\ List.length (filter is_connected_line (console c'))
     = List.length (filter is_connected_line (console c))
       + successes w (server_configs c)
  /\ List.length (filter is_failed_line (console c'))
     = List.length (filter is_failed_line (console c))
       + failures w (server_configs c)
  /\ (NoDup (Dict.keys (servers c)) -> NoDup (Dict.keys (servers c')))
  /\ server_configs c' = server_configs c.
Proof.
  unfold connect_to_servers, connected_names, successes, failures.
  destruct (filter enabled (server_configs c)) as [|cfg0 rest] eqn:En.
  - simpl. repeat split; auto; tauto.
  - set (cfgs := cfg0 :: rest).
    set (ts0 := spawn_tasks w (next_handle c) 0 cfgs).
    set (c1 := with_next_handle c (next_handle c + List.length ts0)).
    pose proof (gather_steps schedule ts0 c1) as Hsteps.
    pose proof (gather_finished schedule ts0 c1) as Hfin.
    destruct (gather w schedule ts0 c1) as [ts' c2]. simpl in Hfin.
    pose proof (steps_same Hsteps) as Hsame. simpl in Hsame.
    pose proof (steps_frame Hsteps) as (F1 & _ & _ & _ & F5 & F6 & _).
    simpl in F1, F5, F6.
    destruct (final_summary _ _ _ Hsame Hfin) as (S1 & S2 & S3).
    cbv zeta. rewrite report_servers, report_console, report_server_configs.
    rewrite !filter_app, !length_app, F5, F6, S2, S3.
    repeat split; auto.
    + rewrite <- S1.
      apply (@steps_keys _ _ (fun k => In k (Dict.keys (servers c))) Hsteps).
      simpl. unfold ts0. rewrite spawn_tasks_done. simpl. tauto.
    + rewrite <- S1.
      apply (@steps_keys _ _ (fun k => In k (Dict.keys (servers c))) Hsteps).
      simpl. unfold ts0. rewrite spawn_tasks_done. simpl. tauto.
    + intro Hnd. apply (steps_NoDup Hsteps). exact Hnd.
Qed.

(** ** The routing table and the sessions *)

Lemma live_mono c c' h : frame c c' -> live c h = true -> live c' h = true.
Proof.
  intros (_ & _ & _ & _ & _ & _ & [more E]). unfold live. rewrite E, existsb_app.
  intros ->. apply orb_true_r.
Qed.

Lemma holds_session_mono c c' t :
  frame c c' -> holds_session c t = true -> holds_session c' t = true.
Proof.
  intro F. unfold holds_session.
  destruct (t_state t) as [[]|]; auto; apply live_mono; assumption.
Qed.

Lemma In_map_tools server_name ts m e :
  In e (map_tools server_name ts m) -> In e m \/ snd e = server_name.
Proof.
  unfold map_tools. revert m; induction ts as [|t r IH]; intro m; simpl; auto.
  intro H. destruct (IH _ H) as [H'|H']; auto.
  apply dict_In_set in H' as [->|H']; auto.
Qed.

Lemma register_routed cfg h ts c : routed c -> routed (register cfg h ts c).
Proof.
  unfold routed, register, entry_connected. simpl. intros H e He.
  rewrite dict_get_set.
  destruct (Str.eqb (snd e) (name cfg)) eqn:E; [reflexivity|].
  apply In_map_tools in He as [He|He]; [exact (H e He)|].
  rewrite He, str_eqb_refl in E. discriminate.
Qed.

Lemma register_sessions_ok cfg h ts c :
  live c h = true -> sessions_ok c -> sessions_ok (register cfg h ts c).
Proof.
  unfold sessions_ok, register, live. simpl. intros Hl H kv Hin.
  apply dict_In_set in Hin as [->|Hin]; [exact Hl | exact (H kv Hin)].
Qed.

Lemma step_task_safe t c :
  sessions_ok c -> routed c -> holds_session c t = true ->
  sessions_ok (snd (step_task w t c)) /\ routed (snd (step_task w t c))
  /\ holds_session (snd (step_task w t c)) (fst (step_task w t c)) = true.
Proof.
  intros Hsess Hrout Hhold.
  step_cases t; repeat split; auto;
    try (apply register_routed; assumption);
    try (apply register_sessions_ok; assumption);
    try (unfold holds_session, live; simpl; now rewrite Nat.eqb_refl);
    try (unfold sessions_ok, live in *; simpl; intros kv Hin;
         rewrite (Hsess kv Hin); apply orb_true_r).
Qed.

Lemma step_at_safe i ts c :
  sessions_ok c -> routed c -> Forall (fun t => holds_session c t = true) ts ->
  sessions_ok (snd (step_at w i ts c)) /\ routed (snd (step_at w i ts c))
  /\ Forall (fun t => holds_session (snd (step_at w i ts c)) t = true)
            (fst (step_at w i ts c)).
Proof.
  revert i c; induction ts as [|t r IH]; intros i c Hs Hr Hf; simpl; auto.
  inversion Hf as [|? ? Ht Hrest]; subst.
  destruct i as [|j].
  - pose proof (step_task_safe t Hs Hr Ht) as (A & B & C).
    pose proof (step_task_frame t c) as F.
    destruct (step_task w t c) as [t' c']; simpl in *.
    repeat split; auto. constructor; auto.
    eapply Forall_impl; [|exact Hrest].
    intros t0. apply holds_session_mono. exact F.
  - pose proof (IH j c Hs Hr Hrest) as (A & B & C).
    pose proof (step_at_frame j r c) as F.
    destruct (step_at w j r c) as [r' c']; simpl in *.
    repeat split; auto. constructor; auto.
    eapply holds_session_mono; eassumption.
Qed.

Lemma steps_safe x y :
  steps w x y ->
  sessions_ok (snd x) -> routed (snd x) ->
  Forall (fun t => holds_session (snd x) t = true) (fst x) ->
  sessions_ok (snd y) /\ routed (snd y).
Proof.
  induction 1 as [x | i ts c y H IH]; intros Hs Hr Hf; [auto|].
  destruct (step_at_safe i Hs Hr Hf) as (A & B & C). simpl in *.
  apply IH; assumption.
Qed.

Lemma spawn_tasks_hold c first_handle i cfgs :
  Forall (fun t => holds_session c t = true) (spawn_tasks w first_handle i cfgs).
Proof. revert i; induction cfgs; intro i; simpl; constructor; auto. Qed.

Lemma connect_to_servers_safe schedule c :
  sessions_ok c -> routed c ->
  sessions_ok (connect_to_servers w schedule c)
  /\ routed (connect_to_servers w schedule c).
Proof.
  intros Hs Hr. unfold connect_to_servers.
  destruct (filter enabled (server_configs c)) as [|cfg0 rest]; [auto|].
  set (ts0 := spawn_tasks w (next_handle c) 0 (cfg0 :: rest)).
  set (c1 := with_next_handle c (next_handle c + List.length ts0)).
  pose proof (gather_steps schedule ts0 c1) as Hsteps.
  destruct (gather w schedule ts0 c1) as [ts' c2].
  destruct (steps_safe Hsteps) as (A & B); simpl; auto.
  - apply spawn_tasks_hold.
  - split.
    + unfold sessions_ok, live in *. rewrite report_servers, report_exit_stack. exact A.
    + unfold routed, entry_connected in *.
      rewrite report_servers, report_tool_server_map. exact B.
Qed.

Lemma connect_to_servers_routed schedule c :
  routed c -> routed (connect_to_servers w schedule c).
Proof.
  (* the routing table alone: sessions may already be closed *)
  intros Hr. unfold connect_to_servers.
  destruct (filter enabled (server_configs c)) as [|cfg0 rest]; [auto|].
  set (ts0 := spawn_tasks w (next_handle c) 0 (cfg0 :: rest)).
  set (c1 := with_next_handle c (next_handle c + List.length ts0)).
  pose proof (gather_steps schedule ts0 c1) as Hsteps.
  destruct (gather w schedule ts0 c1) as [ts' c2].
  assert (Hc2 : routed c2).
  { clear -Hsteps Hr.
    assert (G : forall x y, steps w x y -> routed (snd x) -> routed (snd y)).
    { clear. induction 1 as [x | i ts c y H IH]; auto. intro Hx. apply IH.
      clear -Hx. revert i c Hx; induction ts as [|t r IHr]; intros i c Hx; simpl; auto.
      destruct i as [|j].
      - destruct (step_task_servers t c) as [(Es & Et & _) | (_ & _ & _ & an & E)];
          destruct (step_task w t c) as [t' c']; simpl in *.
        + unfold routed, entry_connected in *. rewrite Es, Et. exact Hx.
        + rewrite E. now apply register_routed.
      - specialize (IHr j c Hx). destruct (step_at w j r c); exact IHr. }
    exact (G _ _ Hsteps Hr). }
  unfold routed, entry_connected in *.
  rewrite report_servers, report_tool_server_map. exact Hc2.
Qed.

End ConnectionFacts.

(* ================================================================== *)
(** * The claims on the connection manager                             *)
(* ================================================================== *)

Lemma routed_iff c : routed c <-> routing_connected c = true.
Proof. unfold routed, routing_connected. now rewrite forallb_forall. Qed.

Lemma sessions_ok_iff c : sessions_ok c <-> sessions_live c = true.
Proof. unfold sessions_ok, sessions_live. now rewrite forallb_forall. Qed.

Lemma routing_live_of c : routed c -> sessions_ok c -> routing_live c = true.
Proof.
  unfold routed, sessions_ok, routing_live, entry_connected, entry_live.
  intros Hr Hs. apply forallb_forall. intros e He. specialize (Hr e He).
  destruct (Dict.get (snd e) (servers c)) as [conn|] eqn:E; [|discriminate].
  apply dict_get_Some_In in E. exact (Hs _ E).
Qed.

(** Dropping elements keeps their images distinct. *)
Lemma distinct_images_filter (X Y : Type) (image : X -> Y) (keep : X -> bool) :
  forall xs : list X,
    NoDup (map image xs) -> NoDup (map image (filter keep xs)).
Proof.
  intro xs. induction xs as [|x xs IH]; cbn [map filter]; intro Hd.
  - constructor.
  - apply NoDup_cons_iff in Hd as [Hfresh Hrest].
    destruct (keep x); cbn [map]; [|now apply IH].
    apply NoDup_cons; [|now apply IH].
    intro Hin. apply Hfresh.
    apply in_map_iff in Hin as (y & Ey & Hy).
    apply filter_In in Hy as [Hy _].
    rewrite <- Ey. now apply in_map.
Qed.

Lemma outcomes_configs w i cfgs : map fst (outcomes w i cfgs) = cfgs.
Proof. revert i; induction cfgs; intro i; simpl; f_equal; auto. Qed.

Lemma successes_failures w cfgs :
  successes w cfgs + failures w cfgs = List.length (filter enabled cfgs).
Proof.
  unfold successes, failures.
  rewrite <- (outcomes_configs w 0 (filter enabled cfgs)) at 3.
  rewrite length_map.
  induction (outcomes w 0 (filter enabled cfgs)) as [|x l IH]; simpl; auto.
  destruct (succeeded x); simpl; lia.
Qed.

(** C1.  Whatever the interleaving of the connection attempts,
    [connect_to_servers] on a new client prints one line of success for
    each enabled server that connects and one line of failure for each
    enabled server that does not; the keys of [servers] afterwards are
    exactly the names of the servers that connected, so that no failure
    keeps another server from being connected; every enabled server is
    counted once; and when the enabled servers have distinct names there
    are as many keys as successes. *)
Theorem connect_to_servers_partial_success :
  forall (w : world) (schedule : list nat) (cfgs : list ServerConfig)
         (m : model_settings) (p : provider),
  let c' := connect_to_servers w schedule (new_client cfgs m p) in
  List.length (filter is_connected_line (console c')) = successes w cfgs
  /\ List.length (filter is_failed_line (console c')) = failures w cfgs
  /\ successes w cfgs + failures w cfgs = List.length (filter enabled cfgs)
  /\ (forall k, In k (list_connected_servers c') <-> In k (connected_names w cfgs))
  /\ (NoDup (map name (filter enabled cfgs)) ->
      List.length (list_connected_servers c') = successes w cfgs).
Proof.
  intros w schedule cfgs m p c'.
  destruct (connect_to_servers_spec w schedule (new_client cfgs m p))
    as (K & C & F & N & _).
  fold c' in K, C, F, N. simpl in K, C, F, N.
  repeat split; auto using successes_failures.
  - intro H. apply K in H as [[]|H]; exact H.
  - intro H. apply K. auto.
  - intro Hnd.
    assert (Hperm : Permutation (list_connected_servers c')
                                            (connected_names w cfgs)).
    { apply NoDup_Permutation.
      - apply N. constructor.
      - unfold connected_names.
        rewrite <- (outcomes_configs w 0 (filter enabled cfgs)), map_map in Hnd.
        now apply distinct_images_filter.
      - intro k. rewrite K. simpl. tauto. }
    apply Permutation_length in Hperm. rewrite Hperm.
    unfold connected_names, successes. now rewrite length_map.
Qed.

(** Of the three servers of the test script, one has no script and one
    does not answer the handshake: the third is connected all the same. *)
Lemma connect_to_servers_partial_success_witness :
  List.length
    (list_connected_servers
       (connect_to_servers Sample.files [2; 1; 2; 1; 0]
          (new_client Sample.three_servers Sample.settings Qwen)))
  = successes Sample.files Sample.three_servers.
Proof.
  apply (proj2 (proj2 (proj2 (proj2
    (connect_to_servers_partial_success Sample.files [2; 1; 2; 1; 0]
       Sample.three_servers Sample.settings Qwen))))).
  vm_compute.
  repeat constructor; simpl; intro H;
    repeat (destruct H as [H|H]; [discriminate H|]); exact H.
Defined.

(** ** Teardown *)

Lemma cleanup_returns leave c : fst (cleanup leave c) = Ret tt.
Proof.
  unfold cleanup, aclose.
  destruct (unwind leave (exit_stack c) None); reflexivity.
Qed.

Lemma cleanup_state leave c : snd (cleanup leave c) = with_exit_stack c [].
Proof.
  unfold cleanup, aclose.
  destruct (unwind leave (exit_stack c) None); reflexivity.
Qed.

(** [aclose] does raise when a context manager does and none after it
    suppresses the exception: what [cleanup] catches is real. *)
Lemma aclose_raises_last leave r rest e :
  leave r = ExitRaises e ->
  Forall (fun r' => leave r' = ExitReturns false) rest ->
  forall c, exit_stack c = r :: rest -> fst (aclose leave c) = Raise e.
Proof.
  intros Hr Hrest c Ec. unfold aclose. rewrite Ec. simpl. rewrite Hr.
  clear Ec Hr. induction Hrest as [|r' l Hr' _ IH]; simpl; [reflexivity|].
  now rewrite Hr'.
Qed.


(** Leaving the session of the connected server raises: [aclose] raises,
    [cleanup] does not. *)
Example cleanup_swallows :
  fst (aclose Sample.noisy (Sample.calculator_client Qwen))
  = Raise (Exn RuntimeError (lit "cancel scope"))
  /\ fst (cleanup Sample.noisy (Sample.calculator_client Qwen)) = Ret tt.
Proof. split; vm_compute; reflexivity. Qed.

(** ** The routing table along a history *)

Lemma cleanup_routed leave c : routed c -> routed (snd (cleanup leave c)).
Proof. rewrite cleanup_state. exact (fun H => H). Qed.

Lemma run_routed ops c : routed c -> routed (run ops c).
Proof.
  unfold run. revert c; induction ops as [|o ops IH]; intros c H; simpl; auto.
  apply IH. destruct o; simpl; auto.
  - now apply connect_to_servers_routed.
  - now apply cleanup_routed.
Qed.

Lemma run_sessions_ok ops c :
  forallb (fun o => negb (is_cleanup o)) ops = true ->
  sessions_ok c -> routed c -> sessions_ok (run ops c).
Proof.
  unfold run. revert c; induction ops as [|o ops IH]; intros c Hn Hs Hr; simpl; auto.
  simpl in Hn. apply andb_prop in Hn as [Ho Hn].
  destruct o; simpl in *; try discriminate.
  - destruct (connect_to_servers_safe w schedule Hs Hr). apply IH; auto.
  - apply IH; auto.
Qed.

(** C8, as the code has it.  In every state that a new client reaches by
    [connect_to_servers], [call_tool] and [cleanup], in any number and
    order, every entry of [tool_server_map] names a key of [servers]; and
    as long as [cleanup] was not among the operations, the session of
    every stored connection, hence of every connection that an entry
    refers to, is live. *)
Theorem routing_table_names_connected_servers :
  forall (ops : list op) (cfgs : list ServerConfig) (m : model_settings)
         (p : provider),
  let c := run ops (new_client cfgs m p) in
  routing_connected c = true
  /\ (forall tool_name server_name,
        Dict.get tool_name (tool_server_map c) = Some server_name ->
        In server_name (list_connected_servers c))
  /\ (forallb (fun o => negb (is_cleanup o)) ops = true ->
      sessions_live c = true /\ routing_live c = true).
Proof.
  intros ops cfgs m p c.
  assert (R0 : routed (new_client cfgs m p)) by (intros e []).
  assert (S0 : sessions_ok (new_client cfgs m p)) by (intros e []).
  pose proof (run_routed ops R0) as R. fold c in R.
  repeat split.
  - now apply routed_iff.
  - intros t s Hget. apply dict_get_Some_In in Hget. specialize (R _ Hget).
    unfold entry_connected in R. simpl in R.
    apply dict_get_Some_In_keys.
    destruct (Dict.get s (servers c)); [eauto | discriminate].
  - apply sessions_ok_iff. now apply run_sessions_ok.
  - apply routing_live_of; [exact R|]. now apply run_sessions_ok.
Qed.

Lemma routing_table_names_connected_servers_witness :
  sessions_live
    (run [ConnectToServers Sample.files [1; 2]; CallTool (lit "add") empty_args]
         (new_client Sample.three_servers Sample.settings Qwen)) = true
  /\ routing_live
       (run [ConnectToServers Sample.files [1; 2]; CallTool (lit "add") empty_args]
            (new_client Sample.three_servers Sample.settings Qwen)) = true.
Proof.
  apply (proj2 (proj2
    (routing_table_names_connected_servers
       [ConnectToServers Sample.files [1; 2]; CallTool (lit "add") empty_args]
       Sample.three_servers Sample.settings Qwen))).
  reflexivity.
Defined.

(** C8 as it was stated fails after teardown: [cleanup] leaves every
    session and keeps both maps, so the entry of [add] then names a
    connection whose session is no longer live. *)
Lemma routing_entry_outlives_session :
  let c := run [ConnectToServers Sample.calculator_world []; Cleanup Sample.quiet]
               (new_client Sample.calculator_only Sample.settings Qwen) in
  Dict.get (lit "add") (tool_server_map c) = Some (lit "calculator")
  /\ option_map (fun connection => live c (session connection))
                (Dict.get (lit "calculator") (servers c)) = Some false
  /\ routing_live c = false.
Proof. vm_compute. repeat split; reflexivity. Qed.

(* ================================================================== *)
(** * The claims on the tool registry and the dispatcher               *)
(* ================================================================== *)

Section DispatchFacts.

Variable payload : Type.
Variable session_call_tool : nat -> nat -> str -> json -> res (CallToolResult payload).

Lemma map_tools_last server_name ts m tool :
  In tool (map tool_name ts) \/ Dict.get tool m = Some server_name ->
  Dict.get tool (map_tools server_name ts m) = Some server_name.
Proof.
  unfold map_tools. revert m; induction ts as [|t r IH]; intros m H; simpl.
  - destruct H as [[]|H]; exact H.
  - apply IH. rewrite dict_get_set.
    destruct (str_eqb_spec tool (tool_name t)) as [->|Hne]; auto.
    destruct H as [[H|H]|H]; auto. congruence.
Qed.

Lemma map_tools_other server_name ts m tool :
  ~ In tool (map tool_name ts) ->
  Dict.get tool (map_tools server_name ts m) = Dict.get tool m.
Proof.
  unfold map_tools. revert m; induction ts as [|t r IH]; intros m H; simpl; auto.
  rewrite IH by (intro; apply H; now right).
  apply dict_get_set_other. intros ->. apply H. now left.
Qed.

Lemma tools_of_names cfg announced :
  map tool_name (tools_of cfg announced) = map mcp_name announced.
Proof. unfold tools_of. rewrite map_map. reflexivity. Qed.

Lemma unavailable_is_distinct server_name tool :
  server_unavailable server_name <> unknown_tool tool.
Proof.
  unfold server_unavailable, unknown_tool. intro H. injection H as H.
  vm_compute in H. discriminate H.
Qed.

Lemma call_tool_routes c n tool tool_args server_name connection :
  Dict.get tool (tool_server_map c) = Some server_name ->
  server_name <> [] ->
  Dict.get server_name (servers c) = Some connection ->
  call_tool session_call_tool c n tool tool_args
  = (session_call_tool n (session connection) tool tool_args,
     [TransportCall payload (session connection) tool tool_args]).
Proof.
  intros Ht Hne Hs. unfold call_tool. rewrite Ht.
  destruct server_name; [congruence|]. now rewrite Hs.
Qed.

(** C3, as the code has it.  When server A and then server B are
    registered and both announce a tool of the same name, the routing
    table maps the name to B, [servers] holds B's connection under B's
    name, and, B's name being non-empty, [call_tool] for that name makes
    one call, through B's session, and returns what that call returns.
    A server that is registered later and does not announce the name
    leaves the entry with B. *)
Theorem last_registrant_wins :
  forall (c : client) (A B : ServerConfig) (hA hB : nat)
         (announcedA announcedB : list mcp_tool) (foo : str),
  In foo (map mcp_name announcedA) ->
  In foo (map mcp_name announcedB) ->
  let cA := register A hA (tools_of A announcedA) c in
  let cB := register B hB (tools_of B announcedB) cA in
  Dict.get foo (tool_server_map cA) = Some (name A)
  /\ Dict.get foo (tool_server_map cB) = Some (name B)
  /\ option_map (@session) (Dict.get (name B) (servers cB)) = Some hB
  /\ (name B <> [] ->
      forall n tool_args,
        call_tool session_call_tool cB n foo tool_args
        = (session_call_tool n hB foo tool_args,
           [TransportCall payload hB foo tool_args]))
  /\ (forall C hC announcedC,
        ~ In foo (map mcp_name announcedC) ->
        Dict.get foo (tool_server_map (register C hC (tools_of C announcedC) cB))
        = Some (name B)).
Proof.
  intros c A B hA hB announcedA announcedB foo HA HB cA cB.
  assert (EA : Dict.get foo (tool_server_map cA) = Some (name A)).
  { unfold cA, register; simpl. apply map_tools_last. left.
    now rewrite tools_of_names. }
  assert (EB : Dict.get foo (tool_server_map cB) = Some (name B)).
  { unfold cB, register; simpl. apply map_tools_last. left.
    now rewrite tools_of_names. }
  assert (ES : Dict.get (name B) (servers cB)
               = Some {| conn_config := B; session := hB; stdio := hB;
                         write := hB; tools := tools_of B announcedB |}).
  { unfold cB, register; simpl. apply dict_get_set_same. }
  repeat split; auto.
  - now rewrite ES.
  - intros Hne n tool_args.
    now rewrite (call_tool_routes cB n foo tool_args EB Hne ES).
  - intros C hC announcedC Hnot. unfold register at 1; simpl.
    rewrite map_tools_other by (now rewrite tools_of_names). exact EB.
Qed.

(** The branch of lines 187-189, in any state: a name mapped to a
    non-empty server name that is not a key of [servers] gets the
    server-unavailable error, and no call is made. *)
Lemma call_tool_unavailable c n tool tool_args server_name :
  Dict.get tool (tool_server_map c) = Some server_name ->
  server_name <> [] ->
  Dict.get server_name (servers c) = None ->
  call_tool session_call_tool c n tool tool_args
  = (Raise (server_unavailable server_name), []).
Proof.
  intros Ht Hne Hs. unfold call_tool. rewrite Ht.
  destruct server_name; [congruence|]. now rewrite Hs.
Qed.

(** What [routed] says of one entry. *)
Lemma routed_lookup c tool server_name :
  routed c ->
  Dict.get tool (tool_server_map c) = Some server_name ->
  exists connection, Dict.get server_name (servers c) = Some connection.
Proof.
  intros R Ht. apply dict_get_Some_In in Ht. specialize (R _ Ht).
  unfold entry_connected in R. simpl in R.
  destruct (Dict.get server_name (servers c)) as [connection|];
    [now exists connection | discriminate].
Qed.


End DispatchFacts.

(** Servers [a] and [b] both announce [foo]: the call goes to the session
    of [b], also after a server without [foo] was registered. *)
Lemma last_registrant_wins_witness :
  call_tool SampleCalls.echo
    (register (Sample.server "b" "b.py") 1
       (tools_of (Sample.server "b" "b.py") [Sample.announces "foo"])
       (register (Sample.server "a" "a.py") 0
          (tools_of (Sample.server "a" "a.py") [Sample.announces "foo"])
          (new_client [] Sample.settings Qwen)))
    0 (lit "foo") empty_args
  = (Ret {| result_content := lit "foo" |},
     [TransportCall str 1 (lit "foo") empty_args])
  /\ Dict.get (lit "foo")
       (tool_server_map
          (register (Sample.server "c" "c.py") 2
             (tools_of (Sample.server "c" "c.py") [Sample.announces "bar"])
             (register (Sample.server "b" "b.py") 1
                (tools_of (Sample.server "b" "b.py") [Sample.announces "foo"])
                (register (Sample.server "a" "a.py") 0
                   (tools_of (Sample.server "a" "a.py") [Sample.announces "foo"])
                   (new_client [] Sample.settings Qwen)))))
     = Some (lit "b").
Proof.
  pose proof (@last_registrant_wins str SampleCalls.echo
                (new_client [] Sample.settings Qwen)
                (Sample.server "a" "a.py") (Sample.server "b" "b.py") 0 1
                [Sample.announces "foo"] [Sample.announces "foo"] (lit "foo")
                (or_introl eq_refl) (or_introl eq_refl))
    as (_ & _ & _ & Hcall & Hlater).
  split.
  - apply Hcall. discriminate.
  - apply (Hlater (Sample.server "c" "c.py") 2 [Sample.announces "bar"]).
    simpl. intros [H|[]]. discriminate H.
Defined.

(** C3 as it was stated fails for a last registrant whose name is empty:
    the routing table maps [foo] to it, and [call_tool] takes the empty
    name for a missing entry and calls no session. *)
Lemma empty_name_is_not_routed :
  Dict.get (lit "foo") (tool_server_map SampleCalls.nameless_last) = Some []
  /\ option_map (@session) (Dict.get [] (servers SampleCalls.nameless_last)) = Some 1
  /\ call_tool SampleCalls.echo SampleCalls.nameless_last 0 (lit "foo") empty_args
     = (Raise (unknown_tool (lit "foo")), []).
Proof. vm_compute. repeat split; reflexivity. Qed.

(** Which server registers last is a matter of the schedule, not of the
    order of the configurations: when the tasks run one after the other
    the tool goes to [b], and when the task of [b] ends first it goes to
    [a]. *)
Example registration_order_decides :
  Dict.get (lit "foo")
    (tool_server_map
       (connect_to_servers Sample.twins_world []
          (new_client Sample.twins Sample.settings Qwen)))
  = Some (lit "b")
  /\ Dict.get (lit "foo")
       (tool_server_map
          (connect_to_servers Sample.twins_world [1; 1; 1; 1; 1]
             (new_client Sample.twins Sample.settings Qwen)))
     = Some (lit "a").
Proof. split; vm_compute; reflexivity. Qed.


(* ================================================================== *)
(** * Facts about the conversation loop                                *)
(* ================================================================== *)

Section ConversationFacts.

Variable payload : Type.
Variable str_of_payload : payload -> str.
Variable str_of_args : json -> str.
Variable json_loads : str -> res json.
Variable anthropic_create : nat -> anthropic_request payload -> res (list block).
Variable generation_call : nat -> qwen_request payload -> res qwen_response.
Variable session_call_tool : nat -> nat -> str -> json -> res (CallToolResult payload).

Local Abbreviation process_query' :=
  (process_query str_of_payload str_of_args json_loads anthropic_create
                 generation_call session_call_tool).
Local Abbreviation scan_lines' :=
  (scan_lines str_of_payload str_of_args json_loads generation_call
              session_call_tool).
Local Abbreviation use_tool_qwen' :=
  (use_tool_qwen str_of_payload str_of_args json_loads generation_call
                 session_call_tool).
Local Abbreviation use_tool_anthropic' :=
  (use_tool_anthropic str_of_args anthropic_create session_call_tool).
Local Abbreviation process_block' :=
  (process_block str_of_args anthropic_create session_call_tool).
Local Abbreviation call_tool' := (call_tool session_call_tool).
Local Abbreviation parse_tool_call' := (parse_tool_call json_loads).
Local Abbreviation qwen_turn' :=
  (qwen_turn str_of_payload str_of_args json_loads generation_call
             session_call_tool).
Local Abbreviation anthropic_turn' :=
  (anthropic_turn str_of_args anthropic_create session_call_tool).

Lemma first_call_qwen c query :
  _call_model_qwen str_of_payload generation_call c 0
                   (messages (start payload query)) (get_all_tools c)
  = (generation_call 0 (first_qwen_request payload c query),
     [QwenCall (first_qwen_request payload c query)]).
Proof.
  unfold _call_model_qwen, qwen_payload, first_qwen_request. simpl.
  destruct (get_all_tools c); reflexivity.
Qed.

Lemma scan_lines_find c available_tools message_content lines t :
  scan_lines' c available_tools message_content lines t
  = match find is_sentinel_line lines with
    | Some line => use_tool_qwen' c available_tools message_content line t
    | None => say message_content t
    end.
Proof.
  induction lines as [|line rest IH]; simpl; [reflexivity|].
  destruct (is_sentinel_line line); [reflexivity | exact IH].
Qed.

(** The lines behind the first sentinel line are never looked at. *)
Lemma scan_lines_first c available_tools message_content before line after t :
  forallb (fun l => negb (is_sentinel_line l)) before = true ->
  is_sentinel_line line = true ->
  scan_lines' c available_tools message_content (before ++ line :: after) t
  = use_tool_qwen' c available_tools message_content line t.
Proof.
  intros Hb Hl. induction before as [|l r IH]; simpl in *.
  - now rewrite Hl.
  - apply andb_prop in Hb as [Hl' Hr].
    apply negb_true_iff in Hl'. rewrite Hl'. now apply IH.
Qed.

Lemma call_tool_events c n tool tool_args :
  snd (call_tool' c n tool tool_args) = []
  \/ exists h, snd (call_tool' c n tool tool_args)
               = [TransportCall payload h tool tool_args].
Proof.
  unfold call_tool.
  destruct (Dict.get tool (tool_server_map c)) as [[|x s]|]; auto.
  destruct (Dict.get (x :: s) (servers c)); simpl; eauto.
Qed.

(** A call that raised made no call through a session, or one call that
    raised. *)
Lemma call_tool_no_dispatch c n tool tool_args :
  dispatches (snd (call_tool' c n tool tool_args)) = []
  /\ model_calls (snd (call_tool' c n tool tool_args)) = [].
Proof.
  destruct (call_tool_events c n tool tool_args) as [->|[h ->]]; auto.
Qed.

Lemma call_model_qwen_events c n msgs available_tools :
  dispatches (snd (_call_model_qwen str_of_payload generation_call c n msgs
                                    available_tools)) = []
  /\ List.length (model_calls (snd (_call_model_qwen str_of_payload generation_call
                                      c n msgs available_tools))) <= 1.
Proof.
  unfold _call_model_qwen.
  destruct (qwen_payload _ _ _ _); simpl; auto.
Qed.

(** What the [try] statement of a sentinel line adds to a turn. *)
Lemma use_tool_qwen_dispatches c available_tools message_content line t :
  dispatches (events (use_tool_qwen' c available_tools message_content line t))
  = dispatches (events t)
    ++ match parse_tool_call' line with
       | Ret (tool_name, tool_args) => [Dispatch payload tool_name tool_args]
       | Raise _ => []
       end.
Proof.
  unfold use_tool_qwen.
  destruct (parse_tool_call' line) as [[tool_name tool_args]|e]; simpl;
    [|now rewrite app_nil_r].
  - pose proof (call_tool_no_dispatch c
                  (List.length (transport_calls (events t))) tool_name tool_args)
      as [Hd _].
    destruct (call_tool' c _ tool_name tool_args) as [[result|e] evs];
      simpl in *.
    + match goal with
      | |- context [_call_model_qwen ?a ?b ?c ?n ?m ?l] =>
        pose proof (call_model_qwen_events c n m l) as [Hq _];
        destruct (_call_model_qwen a b c n m l) as [[response|e] ev]
      end; simpl in *.
      * destruct (status_code response =? 200)%Z; simpl;
          unfold dispatches in *; rewrite !filter_app; simpl;
          rewrite Hd, Hq, ?app_nil_r; reflexivity.
      * unfold dispatches in *; rewrite !filter_app; simpl.
        rewrite Hd, Hq, ?app_nil_r; reflexivity.
    + unfold dispatches in *; rewrite !filter_app; simpl.
      rewrite Hd; reflexivity.
Qed.

(** ** A query to the second vendor *)

Lemma process_query_qwen c query r :
  client_type c = Qwen ->
  generation_call 0 (first_qwen_request payload c query) = Ret r ->
  process_query' c query
  = (Ret (join nl (final_text (qwen_turn' c query r))), qwen_turn' c query r).
Proof.
  intros Hc Hg. unfold process_query, qwen_turn.
  rewrite Hc, first_call_qwen, Hg.
  destruct (status_code r =? 200)%Z; [|reflexivity].
  rewrite scan_lines_find.
  destruct (find is_sentinel_line (split_char 10 (output_content r)))
    as [line|] eqn:F.
  - apply find_some in F as [Hin Hs].
    now rewrite (sentinel_line_contains _ _ Hin Hs).
  - destruct (contains sentinel (output_content r)); reflexivity.
Qed.

(** A query to the second vendor raises only when the first model call
    does. *)
Lemma process_query_qwen_raises c query e :
  client_type c = Qwen ->
  generation_call 0 (first_qwen_request payload c query) = Raise e ->
  fst (process_query' c query) = Raise e.
Proof.
  intros Hc Hg. unfold process_query. now rewrite Hc, first_call_qwen, Hg.
Qed.

Lemma qwen_turn_dispatches c query r :
  dispatches (events (qwen_turn' c query r))
  = if (status_code r =? 200)%Z then
      match find is_sentinel_line (split_char 10 (output_content r)) with
      | Some line =>
        match parse_tool_call' line with
        | Ret (tool_name, tool_args) => [Dispatch payload tool_name tool_args]
        | Raise _ => []
        end
      | None => []
      end
    else [].
Proof.
  unfold qwen_turn. destruct (status_code r =? 200)%Z; [|reflexivity].
  destruct (find _ _); [|reflexivity].
  now rewrite use_tool_qwen_dispatches.
Qed.

(** On a sentinel line only [json.loads] can make the parse fail. *)
Lemma parse_tool_call_raises line e :
  is_sentinel_line line = true ->
  parse_tool_call' line = Raise e ->
  exists name_text args_text,
    split1 (lit " ") (strip (skipn (List.length sentinel) (strip line)))
    = [name_text; args_text]
    /\ json_loads (strip args_text) = Raise e.
Proof.
  unfold is_sentinel_line. intros Hs.
  set (rest := skipn (List.length sentinel) (strip line)).
  assert (E : split1 sentinel (strip line) = [[]; rest]).
  { unfold split1. now rewrite (find_split_startswith _ _ Hs). }
  unfold parse_tool_call. rewrite E. cbn [nth_error].
  assert (S1 : (exists a, split1 (lit " ") (strip rest) = [a])
               \/ exists a b, split1 (lit " ") (strip rest) = [a; b]).
  { unfold split1. destruct (find_split (lit " ") (strip rest)) as [[x y]|]; eauto. }
  destruct S1 as [[a ->]|(a & b & E')]; [discriminate|].
  rewrite E'. destruct (json_loads (strip b)) eqn:J; [discriminate|].
  intros [= ->]. now exists a, b.
Qed.

(** The turn when the parse of the sentinel line fails. *)
Lemma qwen_turn_parse_failed c query r line e :
  status_code r = 200%Z ->
  find is_sentinel_line (split_char 10 (output_content r)) = Some line ->
  parse_tool_call' line = Raise e ->
  qwen_turn' c query r
  = recover e (output_content r)
            (record [QwenCall (first_qwen_request payload c query)] (start payload query)).
Proof.
  intros Hst Hf Hp. unfold qwen_turn, use_tool_qwen. now rewrite Hst, Hf, Hp.
Qed.

(** The turn when the dispatch of the parsed call fails. *)
Lemma qwen_turn_dispatch_failed c query r line tool_name tool_args e evs :
  status_code r = 200%Z ->
  find is_sentinel_line (split_char 10 (output_content r)) = Some line ->
  parse_tool_call' line = Ret (tool_name, tool_args) ->
  call_tool' c 0 tool_name tool_args = (Raise e, evs) ->
  qwen_turn' c query r
  = recover e (output_content r)
            (record (Dispatch payload tool_name tool_args :: evs)
               (record [QwenCall (first_qwen_request payload c query)]
                       (start payload query))).
Proof.
  intros Hst Hf Hp Hc. unfold qwen_turn, use_tool_qwen.
  rewrite Hst, Hf, Hp. simpl. now rewrite Hc.
Qed.

(** ** A query to the first vendor *)

Lemma first_call_anthropic c query :
  _call_model_anthropic anthropic_create c 0 (messages (start payload query))
                        (get_all_tools c)
  = (anthropic_create 0 (first_anthropic_request payload c query),
     [AnthropicCall (first_anthropic_request payload c query)]).
Proof.
  unfold _call_model_anthropic, first_anthropic_request. simpl.
  destruct (get_all_tools c); reflexivity.
Qed.

Lemma process_query_anthropic c query blocks :
  client_type c = Anthropic ->
  anthropic_create 0 (first_anthropic_request payload c query) = Ret blocks ->
  process_query' c query
  = (Ret (join nl (final_text (anthropic_turn' c query blocks))),
     anthropic_turn' c query blocks).
Proof.
  intros Hc Hg. unfold process_query, anthropic_turn.
  now rewrite Hc, first_call_anthropic, Hg.
Qed.

(** A block that is no tool use adds its text, if it is a text block,
    and nothing else. *)
Lemma fold_no_tool_use c available_tools blocks t :
  forallb (fun b => negb (is_tool_use b)) blocks = true ->
  fold_left (process_block' c available_tools) blocks t
  = {| messages := messages t; final_text := final_text t ++ texts_of blocks;
       tool_results := tool_results t; events := events t |}.
Proof.
  revert t; induction blocks as [|b r IH]; intros t H; simpl in *.
  - rewrite app_nil_r. now destruct t.
  - apply andb_prop in H as [Hb Hr]. rewrite (IH _ Hr).
    destruct b; simpl in *; try discriminate; rewrite <- ?app_assoc; reflexivity.
Qed.

(** One failed dispatch in the loop over the blocks. *)
Lemma process_block_dispatch_failed c available_tools t tool_name tool_args text
      e evs :
  call_tool' c (List.length (transport_calls (events t))) tool_name tool_args
  = (Raise e, evs) ->
  process_block' c available_tools t (ToolUseBlock tool_name tool_args text)
  = say (tool_call_failed e)
        (record (Dispatch payload tool_name tool_args :: evs) t).
Proof. intro H. simpl. unfold use_tool_anthropic. now rewrite H. Qed.

(** The loop only ever adds to the text. *)
Lemma process_block_final_text c available_tools t b :
  exists more,
    final_text (process_block' c available_tools t b) = final_text t ++ more.
Proof.
  destruct b as [s|tool_name tool_args text|cls text]; simpl.
  - now exists [s].
  - unfold use_tool_anthropic.
    destruct (call_tool' c _ tool_name tool_args) as [[result|e] evs]; simpl.
    + unfold _call_model_anthropic.
      match goal with
      | |- context [anthropic_create ?n ?r] =>
        destruct (anthropic_create n r) as [blocks|e]
      end; simpl.
      * destruct (first_text blocks); simpl;
          destruct text as [[|x s]|]; simpl; rewrite <- app_assoc; eauto.
      * destruct text as [[|x s]|]; simpl; rewrite <- app_assoc; eauto.
    + eauto.
  - exists []. now rewrite app_nil_r.
Qed.

Lemma fold_final_text c available_tools blocks t :
  exists more,
    final_text (fold_left (process_block' c available_tools) blocks t)
    = final_text t ++ more.
Proof.
  revert t; induction blocks as [|b r IH]; intro t; simpl.
  - exists []. now rewrite app_nil_r.
  - destruct (IH (process_block' c available_tools t b)) as [m1 E1].
    destruct (process_block_final_text c available_tools t b) as [m2 E2].
    exists (m2 ++ m1). now rewrite E1, E2, app_assoc.
Qed.

End ConversationFacts.

Lemma find_none_forallb {A} (f : A -> bool) (l : list A) :
  forallb (fun x => negb (f x)) l = true -> find f l = None.
Proof.
  induction l as [|x l IH]; simpl; [reflexivity|].
  intro H. apply andb_prop in H as [Hx Hl].
  apply negb_true_iff in Hx. rewrite Hx. auto.
Qed.

Lemma find_first {A} (f : A -> bool) (before : list A) (x : A) (after : list A) :
  forallb (fun y => negb (f y)) before = true -> f x = true ->
  find f (before ++ x :: after) = Some x.
Proof.
  intros Hb Hx. induction before as [|y l IH]; simpl in *.
  - now rewrite Hx.
  - apply andb_prop in Hb as [Hy Hl].
    apply negb_true_iff in Hy. rewrite Hy. auto.
Qed.

(* ================================================================== *)
(** * The claims on the conversation loop                              *)
(* ================================================================== *)

(** C7.  When the first answer holds no tool invocation, [process_query]
    returns after that one model call, without any dispatch.  For the
    first vendor (no [tool_use] block) it returns the texts of the text
    blocks joined by line breaks, which is the text itself when there is
    one text block; for the second vendor (status 200, no sentinel line)
    it returns the text of the answer unchanged. *)
Theorem no_tool_call_single_model_call :
  forall (payload : Type) (str_of_payload : payload -> str)
         (str_of_args : json -> str) (json_loads : str -> res json)
         (anthropic_create : nat -> anthropic_request payload -> res (list block))
         (generation_call : nat -> qwen_request payload -> res qwen_response)
         (session_call_tool : nat -> nat -> str -> json
                              -> res (CallToolResult payload))
         (c : client) (query : str),
  let answer := process_query str_of_payload str_of_args json_loads
                  anthropic_create generation_call session_call_tool c query in
  (forall blocks,
     client_type c = Anthropic ->
     anthropic_create 0 (first_anthropic_request payload c query) = Ret blocks ->
     forallb (fun b => negb (is_tool_use b)) blocks = true ->
     fst answer = Ret (join nl (texts_of blocks))
     /\ events (snd answer)
        = [AnthropicCall (first_anthropic_request payload c query)]
     /\ (forall text, blocks = [TextBlock text] -> fst answer = Ret text))
  /\ (forall r,
        client_type c = Qwen ->
        generation_call 0 (first_qwen_request payload c query) = Ret r ->
        status_code r = 200%Z ->
        forallb (fun l => negb (is_sentinel_line l))
                (split_char 10 (output_content r)) = true ->
        fst answer = Ret (output_content r)
        /\ events (snd answer) = [QwenCall (first_qwen_request payload c query)]).
Proof.
  intros payload str_of_payload str_of_args json_loads anthropic_create
         generation_call session_call_tool c query answer.
  split.
  - intros blocks Hc Hg Hn. unfold answer.
    rewrite process_query_anthropic with (blocks := blocks) by assumption.
    simpl. unfold anthropic_turn. rewrite fold_no_tool_use by assumption. simpl.
    repeat split; auto. now intros text ->.
  - intros r Hc Hg Hst Hn. unfold answer.
    rewrite process_query_qwen with (r := r) by assumption. simpl.
    unfold qwen_turn. rewrite Hst, (find_none_forallb _ _ Hn). simpl. auto.
Qed.

Lemma no_tool_call_single_model_call_witness :
  (fst (SampleTalk.ask_anthropic (Sample.calculator_client Anthropic)
                                 [TextBlock (lit "It is 3.")])
   = Ret (join nl (texts_of [TextBlock (lit "It is 3.")]))
   /\ events (snd (SampleTalk.ask_anthropic (Sample.calculator_client Anthropic)
                                            [TextBlock (lit "It is 3.")]))
      = [AnthropicCall
           (first_anthropic_request str (Sample.calculator_client Anthropic)
                                    (lit "1+2?"))]
   /\ (forall text, [TextBlock (lit "It is 3.")] = [TextBlock text] ->
       fst (SampleTalk.ask_anthropic (Sample.calculator_client Anthropic)
                                     [TextBlock (lit "It is 3.")])
       = Ret text))
  /\ (fst (SampleTalk.ask (Sample.calculator_client Qwen) (lit "It is 3."))
      = Ret (lit "It is 3.")
      /\ events (snd (SampleTalk.ask (Sample.calculator_client Qwen)
                                     (lit "It is 3.")))
         = [QwenCall (first_qwen_request str (Sample.calculator_client Qwen)
                                         (lit "1+2?"))]).
Proof.
  split.
  - apply (proj1 (no_tool_call_single_model_call SampleTalk.show_payload
             SampleTalk.show_args Json.loads
             (SampleTalk.answers [TextBlock (lit "It is 3.")])
             (SampleTalk.says []) SampleCalls.echo
             (Sample.calculator_client Anthropic) (lit "1+2?")));
      reflexivity.
  - apply (proj2 (no_tool_call_single_model_call SampleTalk.show_payload
             SampleTalk.show_args Json.loads (SampleTalk.answers [])
             (SampleTalk.says (lit "It is 3.")) SampleCalls.echo
             (Sample.calculator_client Qwen) (lit "1+2?"))
           {| status_code := 200; response_message := lit "OK";
              output_content := lit "It is 3." |});
      reflexivity.
Defined.

(** C2, as the code has it.  For the answer of the specification the
    first sentinel line is the second line, its parse gives the tool
    [add] with the arguments [a = 1] and [b = 2], and the query dispatches
    that one call and nothing for the line [extra].  For every answer
    with status 200 of the second vendor, whatever stands behind the first
    sentinel line, further sentinel lines included, is not looked at; the
    calls dispatched in the turn are the one that the first sentinel line
    parses to, or none when that parse fails; in every case at most one
    call is dispatched. *)
Theorem one_tool_call_per_turn :
  (find is_sentinel_line (split_char 10 SampleTalk.example)
   = Some SampleTalk.sentinel_line
   /\ parse_tool_call Json.loads SampleTalk.sentinel_line
      = Ret (lit "add", JObj [(lit "a", JInt 1); (lit "b", JInt 2)])
   /\ dispatches
        (events (snd (SampleTalk.ask (Sample.calculator_client Qwen)
                                     SampleTalk.example)))
      = [Dispatch str (lit "add") (JObj [(lit "a", JInt 1); (lit "b", JInt 2)])])
  /\ forall (payload : Type) (str_of_payload : payload -> str)
            (str_of_args : json -> str) (json_loads : str -> res json)
            (anthropic_create : nat -> anthropic_request payload
                                -> res (list block))
            (generation_call : nat -> qwen_request payload -> res qwen_response)
            (session_call_tool : nat -> nat -> str -> json
                                 -> res (CallToolResult payload))
            (c : client) (query : str) (r : qwen_response),
     client_type c = Qwen ->
     generation_call 0 (first_qwen_request payload c query) = Ret r ->
     let t := snd (process_query str_of_payload str_of_args json_loads
                     anthropic_create generation_call session_call_tool
                     c query) in
     List.length (dispatches (events t)) <= 1
     /\ forall before line after,
          status_code r = 200%Z ->
          split_char 10 (output_content r) = before ++ line :: after ->
          forallb (fun l => negb (is_sentinel_line l)) before = true ->
          is_sentinel_line line = true ->
          dispatches (events t)
          = match parse_tool_call json_loads line with
            | Ret (tool_name, tool_args) => [Dispatch payload tool_name tool_args]
            | Raise _ => []
            end.
Proof.
  split.
  - vm_compute. repeat split; reflexivity.
  - intros payload str_of_payload str_of_args json_loads anthropic_create
           generation_call session_call_tool c query r Hc Hg t.
    unfold t. rewrite process_query_qwen with (r := r) by assumption.
    cbn [snd]. rewrite qwen_turn_dispatches. split.
    + destruct (status_code r =? 200)%Z; [|simpl; lia].
      destruct (find _ _); [|simpl; lia].
      destruct (parse_tool_call json_loads s) as [[? ?]|]; simpl; lia.
    + intros before line after Hst Hsplit Hb Hl.
      rewrite Hst, Hsplit, (find_first _ _ _ after Hb Hl). reflexivity.
Qed.

(** The answer of the specification, sent to a client with the
    calculator. *)
Lemma one_tool_call_per_turn_witness :
  dispatches
    (events (snd (SampleTalk.ask (Sample.calculator_client Qwen)
                                 SampleTalk.example)))
  = match parse_tool_call Json.loads SampleTalk.sentinel_line with
    | Ret (tool_name, tool_args) => [Dispatch str tool_name tool_args]
    | Raise _ => []
    end.
Proof.
  refine (proj2 (proj2 one_tool_call_per_turn str SampleTalk.show_payload
            SampleTalk.show_args Json.loads (SampleTalk.answers [])
            (SampleTalk.says SampleTalk.example) SampleCalls.echo
            (Sample.calculator_client Qwen) (lit "1+2?")
            {| status_code := 200; response_message := lit "OK";
               output_content := SampleTalk.example |} _ _)
          [lit "I will help."] SampleTalk.sentinel_line [lit "extra"] _ _ _ _);
    reflexivity.
Defined.

(** C2 as it was stated fails when the first of several sentinel lines
    does not parse: both lines are sentinel lines, and no call is
    dispatched in the turn. *)
Lemma two_sentinel_lines_no_call :
  map is_sentinel_line (split_char 10 SampleTalk.two_sentinels) = [true; true]
  /\ raises (fst (SampleTalk.ask (Sample.calculator_client Qwen)
                                 SampleTalk.two_sentinels)) = false
  /\ dispatches
       (events (snd (SampleTalk.ask (Sample.calculator_client Qwen)
                                    SampleTalk.two_sentinels))) = [].
Proof. vm_compute. repeat split; reflexivity. Qed.

(** C6, as the code has it.  When [json.loads] rejects the arguments of
    the first sentinel line, which is the only way in which the parse of
    a sentinel line fails, no tool invocation is made: nothing is
    dispatched, the one model call of the turn is the first, and the
    transcript stays as it was.  [process_query] returns normally; its
    result is the line that reports the failure followed by the text of
    the answer, unchanged. *)
Theorem malformed_arguments_are_reported :
  forall (payload : Type) (str_of_payload : payload -> str)
         (str_of_args : json -> str) (json_loads : str -> res json)
         (anthropic_create : nat -> anthropic_request payload -> res (list block))
         (generation_call : nat -> qwen_request payload -> res qwen_response)
         (session_call_tool : nat -> nat -> str -> json
                              -> res (CallToolResult payload))
         (c : client) (query : str) (r : qwen_response)
         (before : list str) (line : str) (after : list str) (e : exn),
  client_type c = Qwen ->
  generation_call 0 (first_qwen_request payload c query) = Ret r ->
  status_code r = 200%Z ->
  split_char 10 (output_content r) = before ++ line :: after ->
  forallb (fun l => negb (is_sentinel_line l)) before = true ->
  is_sentinel_line line = true ->
  parse_tool_call json_loads line = Raise e ->
  let answer := process_query str_of_payload str_of_args json_loads
                  anthropic_create generation_call session_call_tool c query in
  (exists name_text args_text,
     split1 (lit " ") (strip (skipn (List.length sentinel) (strip line)))
     = [name_text; args_text]
     /\ json_loads (strip args_text) = Raise e)
  /\ fst answer = Ret (parse_failed e ++ nl ++ output_content r)
  /\ events (snd answer) = [QwenCall (first_qwen_request payload c query)]
  /\ messages (snd answer) = messages (start payload query)
  /\ tool_results (snd answer) = [].
Proof.
  intros payload str_of_payload str_of_args json_loads anthropic_create
         generation_call session_call_tool c query r before line after e
         Hc Hg Hst Hsplit Hb Hl Hp answer.
  split; [exact (parse_tool_call_raises json_loads line Hl Hp)|].
  unfold answer. rewrite process_query_qwen with (r := r) by assumption.
  assert (Hf : find is_sentinel_line (split_char 10 (output_content r))
               = Some line) by (rewrite Hsplit; now apply find_first).
  rewrite qwen_turn_parse_failed with (line := line) (e := e) by assumption.
  repeat split; reflexivity.
Qed.

Lemma malformed_arguments_are_reported_witness :
  events (snd (SampleTalk.ask (Sample.calculator_client Qwen)
                              SampleTalk.malformed))
  = [QwenCall (first_qwen_request str (Sample.calculator_client Qwen)
                                  (lit "1+2?"))].
Proof.
  refine (proj1 (proj2 (proj2
    (@malformed_arguments_are_reported str SampleTalk.show_payload
       SampleTalk.show_args Json.loads (SampleTalk.answers [])
       (SampleTalk.says SampleTalk.malformed) SampleCalls.echo
       (Sample.calculator_client Qwen) (lit "1+2?")
       {| status_code := 200; response_message := lit "OK";
          output_content := SampleTalk.malformed |}
       [] SampleTalk.malformed []
       (Exn JSONDecodeError
            (lit "Expecting property name enclosed in double quotes"))
       _ _ _ _ _ _ _))));
    reflexivity.
Defined.

(** C6 as it was stated fails: for a sentinel line whose arguments are no
    JSON there is no invocation with an empty argument object, and no
    invocation at all; the tool [add] is known to the client and is not
    called. *)
Lemma malformed_arguments_no_invocation :
  is_sentinel_line SampleTalk.malformed = true
  /\ raises (Json.loads (lit "{bad")) = true
  /\ Dict.get (lit "add") (tool_server_map (Sample.calculator_client Qwen))
     = Some (lit "calculator")
  /\ dispatches
       (events (snd (SampleTalk.ask (Sample.calculator_client Qwen)
                                    SampleTalk.malformed))) = []
  /\ transport_calls
       (events (snd (SampleTalk.ask (Sample.calculator_client Qwen)
                                    SampleTalk.malformed))) = [].
Proof. vm_compute. repeat split; reflexivity. Qed.

(** C5, as the code has it.  A dispatch that fails is caught where it is
    made.  In the loop over the blocks of the first vendor's answer the
    failing invocation adds one line that reports the failure to the
    text, leaves the transcript as it is and makes no model call; the
    loop goes on with the blocks that follow, and the line is part of
    what [process_query] returns.  For the second vendor the query
    returns the line that reports the failure followed by the text of
    the answer, after the one model call and with the transcript as it
    was.  In both cases [process_query] returns normally. *)
Theorem dispatch_failure_is_annotated :
  forall (payload : Type) (str_of_payload : payload -> str)
         (str_of_args : json -> str) (json_loads : str -> res json)
         (anthropic_create : nat -> anthropic_request payload -> res (list block))
         (generation_call : nat -> qwen_request payload -> res qwen_response)
         (session_call_tool : nat -> nat -> str -> json
                              -> res (CallToolResult payload))
         (c : client) (query : str),
  let answer := process_query str_of_payload str_of_args json_loads
                  anthropic_create generation_call session_call_tool c query in
  let step := process_block str_of_args anthropic_create session_call_tool
                            c (get_all_tools c) in
  (forall blocks before tool_name tool_args text after e evs,
     client_type c = Anthropic ->
     anthropic_create 0 (first_anthropic_request payload c query) = Ret blocks ->
     blocks = before ++ ToolUseBlock tool_name tool_args text :: after ->
     let t := fold_left step before
                (record [AnthropicCall (first_anthropic_request payload c query)]
                        (start payload query)) in
     call_tool session_call_tool c (List.length (transport_calls (events t)))
               tool_name tool_args = (Raise e, evs) ->
     let t' := step t (ToolUseBlock tool_name tool_args text) in
     final_text t' = final_text t ++ [tool_call_failed e]
     /\ messages t' = messages t
     /\ model_calls (events t') = model_calls (events t)
     /\ snd answer = fold_left step after t'
     /\ In (tool_call_failed e) (final_text (snd answer))
     /\ fst answer = Ret (join nl (final_text (snd answer))))
  /\ (forall r before line after tool_name tool_args e evs,
        client_type c = Qwen ->
        generation_call 0 (first_qwen_request payload c query) = Ret r ->
        status_code r = 200%Z ->
        split_char 10 (output_content r) = before ++ line :: after ->
        forallb (fun l => negb (is_sentinel_line l)) before = true ->
        is_sentinel_line line = true ->
        parse_tool_call json_loads line = Ret (tool_name, tool_args) ->
        call_tool session_call_tool c 0 tool_name tool_args = (Raise e, evs) ->
        fst answer = Ret (parse_failed e ++ nl ++ output_content r)
        /\ model_calls (events (snd answer))
           = [QwenCall (first_qwen_request payload c query)]
        /\ messages (snd answer) = messages (start payload query)).
Proof.
  intros payload str_of_payload str_of_args json_loads anthropic_create
         generation_call session_call_tool c query answer step.
  split.
  - intros blocks before tool_name tool_args text after e evs Hc Hg Hb t Hcall t'.
    assert (Et' : t' = say (tool_call_failed e)
                           (record (Dispatch payload tool_name tool_args :: evs) t))
      by (apply process_block_dispatch_failed; exact Hcall).
    assert (Ea : answer
                 = (Ret (join nl (final_text (fold_left step after t'))),
                    fold_left step after t')).
    { unfold answer.
      rewrite process_query_anthropic with (blocks := blocks) by assumption.
      unfold anthropic_turn. rewrite Hb, fold_left_app. reflexivity. }
    rewrite Ea. cbn [fst snd]. rewrite Et'. cbn [say record final_text messages events].
    repeat split; auto.
    + unfold model_calls. rewrite filter_app. cbn [filter is_model_call].
      pose proof (call_tool_no_dispatch session_call_tool c
                    (List.length (transport_calls (events t)))
                    tool_name tool_args) as [_ Hm].
      rewrite Hcall in Hm. cbn [snd] in Hm. unfold model_calls in Hm.
      rewrite Hm. apply app_nil_r.
    + destruct (fold_final_text str_of_args anthropic_create session_call_tool
                  c (get_all_tools c) after
                  (say (tool_call_failed e)
                       (record (Dispatch payload tool_name tool_args :: evs) t)))
        as [more Em].
      fold step in Em. rewrite Em. cbn [say final_text].
      apply in_or_app. left. apply in_or_app. right. now left.
  - intros r before line after tool_name tool_args e evs
           Hc Hg Hst Hsplit Hb Hl Hp Hcall.
    assert (Hf : find is_sentinel_line (split_char 10 (output_content r))
                 = Some line) by (rewrite Hsplit; now apply find_first).
    unfold answer. rewrite process_query_qwen with (r := r) by assumption.
    rewrite qwen_turn_dispatch_failed
      with (line := line) (tool_name := tool_name) (tool_args := tool_args)
           (e := e) (evs := evs) by assumption.
    repeat split; try reflexivity.
    cbn [snd recover say record events start].
    pose proof (call_tool_no_dispatch session_call_tool c 0 tool_name tool_args)
      as [_ Hm].
    rewrite Hcall in Hm. cbn [snd] in Hm.
    unfold model_calls in *. cbn [app filter is_model_call]. now rewrite Hm.
Qed.

(** Either vendor asks for a tool that no server has: the first between
    two texts, the second in a sentinel line. *)
Lemma dispatch_failure_is_annotated_witness :
  In (tool_call_failed (unknown_tool (lit "nope")))
     (final_text
        (snd (SampleTalk.ask_anthropic (Sample.calculator_client Anthropic)
                [TextBlock (lit "Let me see.");
                 ToolUseBlock (lit "nope") empty_args None;
                 TextBlock (lit "Sorry.")])))
  /\ fst (SampleTalk.ask (Sample.calculator_client Qwen) (lit "TOOL_CALL: nope"))
     = Ret (parse_failed (unknown_tool (lit "nope")) ++ nl ++ lit "TOOL_CALL: nope").
Proof.
  split.
  - refine (proj1 (proj2 (proj2 (proj2 (proj2
      (proj1 (@dispatch_failure_is_annotated str SampleTalk.show_payload
                SampleTalk.show_args Json.loads
                (SampleTalk.answers
                   [TextBlock (lit "Let me see.");
                    ToolUseBlock (lit "nope") empty_args None;
                    TextBlock (lit "Sorry.")])
                (SampleTalk.says []) SampleCalls.echo
                (Sample.calculator_client Anthropic) (lit "1+2?"))
         _ [TextBlock (lit "Let me see.")] (lit "nope") empty_args None
         [TextBlock (lit "Sorry.")] (unknown_tool (lit "nope")) []
         _ _ _ _)))))); reflexivity.
  - refine (proj1
      (proj2 (@dispatch_failure_is_annotated str SampleTalk.show_payload
                SampleTalk.show_args Json.loads (SampleTalk.answers [])
                (SampleTalk.says (lit "TOOL_CALL: nope")) SampleCalls.echo
                (Sample.calculator_client Qwen) (lit "1+2?"))
         {| status_code := 200; response_message := lit "OK";
            output_content := lit "TOOL_CALL: nope" |}
         [] (lit "TOOL_CALL: nope") [] (lit "nope") empty_args
         (unknown_tool (lit "nope")) [] _ _ _ _ _ _ _ _)); reflexivity.
Defined.

(** C5 as it was stated fails: after a dispatch that failed there is no
    further model call.  The one model call of the query is the first,
    and the transcript holds the question alone: the failure is never
    sent to the model. *)
Lemma failed_dispatch_no_further_model_call :
  let answer := SampleTalk.ask_anthropic (Sample.calculator_client Anthropic)
                  [ToolUseBlock (lit "nope") empty_args None] in
  fst answer = Ret (tool_call_failed (unknown_tool (lit "nope")))
  /\ events (snd answer)
     = [AnthropicCall (first_anthropic_request str
                         (Sample.calculator_client Anthropic) (lit "1+2?"));
        Dispatch str (lit "nope") empty_args]
  /\ messages (snd answer)
     = [{| role := lit "user"; content := Text str (lit "1+2?") |}].
Proof. vm_compute. repeat split; reflexivity. Qed.

(* ================================================================== *)
(** * The claim on the adapter of the second vendor                    *)
(* ================================================================== *)

Section AdapterFacts.

Variable payload : Type.
Variable str_of_payload : payload -> str.
Variable marker : str.
Variable describe : list tool -> str.

Local Abbreviation to_qwen' := (to_qwen str_of_payload marker).
Local Abbreviation user_message s :=
  {| role := lit "user"; content := Text payload s |}.

Lemma to_qwen_tool (m : message payload) :
  role m = lit "tool" ->
  to_qwen' m = user_message (marker ++ str_of_content str_of_payload (content m)).
Proof. unfold to_qwen. intros ->. reflexivity. Qed.

Lemma to_qwen_other (m : message payload) :
  role m <> lit "tool" -> to_qwen' m = m.
Proof.
  unfold to_qwen. intro H. apply str_eqb_neq in H. rewrite H. now destruct m.
Qed.

Lemma to_qwen_role (m : message payload) : role (to_qwen' m) <> lit "tool".
Proof.
  unfold to_qwen. destruct (str_eqb_spec (role m) (lit "tool")); simpl; auto.
  discriminate.
Qed.

Lemma to_qwen_known_role (m : message payload) :
  role m = lit "user" \/ role m = lit "assistant" \/ role m = lit "tool" ->
  role (to_qwen' m) = lit "user" \/ role (to_qwen' m) = lit "assistant".
Proof.
  unfold to_qwen. destruct (str_eqb_spec (role m) (lit "tool")); simpl; auto.
  intuition congruence.
Qed.

(** What [add_tools_info] returns: the first message is a user message
    that starts with the description of the tools; it is the converted
    first message of the transcript with the description put in front of
    its text, or a new message in front of the converted transcript. *)
Lemma add_tools_info_spec info (converted sent : list (message payload)) :
  add_tools_info info converted = Ret sent ->
  (exists first s rest,
     converted = first :: rest /\ role first = lit "user"
     /\ content first = Text payload s
     /\ sent = user_message (info ++ nl ++ nl ++ s) :: rest)
  \/ (sent = user_message info :: converted
      /\ match converted with
         | first :: _ => role first <> lit "user"
         | [] => True
         end).
Proof.
  unfold add_tools_info. destruct converted as [|first rest].
  - intros [= <-]. right. auto.
  - destruct (str_eqb_spec (role first) (lit "user")) as [E|E].
    + destruct (content first) eqn:C; [|discriminate].
      intros [= <-]. left. exists first, s, rest. rewrite E. auto.
    + intros [= <-]. right. auto.
Qed.

End AdapterFacts.

(** C10.  For the adapter of the second vendor, with the marker and the
    description of the tools of either client: the messages of the
    transcript are converted one by one, a message with the role [tool]
    into a user message whose text is the marker followed by the content,
    any other message into itself; whatever is sent has no message with
    the role [tool], and only user and assistant messages when the
    transcript has no other roles than these three; without tools the
    converted messages are sent as they are; with tools the first message
    sent is a user message that starts with the description of the tools,
    namely the converted first message with the description put in front
    of its text when that message is a user message, and a new message in
    front of the converted transcript otherwise; the messages are sent
    whenever the first message is not a user message with a content that
    is no text.  The multi-server client puts exactly these messages into
    its request. *)
Theorem qwen_adapter_sends_user_and_assistant :
  forall (payload : Type) (str_of_payload : payload -> str)
         (marker : str) (describe : list tool -> str)
         (transcript : list (message payload)) (available_tools : list tool),
  let converted := qwen_messages_of str_of_payload marker transcript in
  let user_message s := {| role := lit "user"; content := Text payload s |} in
  converted = map (to_qwen str_of_payload marker) transcript
  /\ (forall m, role m = lit "tool" ->
        to_qwen str_of_payload marker m
        = user_message (marker ++ str_of_content str_of_payload (content m)))
  /\ (forall m, role m <> lit "tool" -> to_qwen str_of_payload marker m = m)
  /\ (forall sent,
        qwen_payload str_of_payload marker describe transcript available_tools
        = Ret sent ->
        Forall (fun m => role m <> lit "tool") sent
        /\ (Forall (fun m => role m = lit "user" \/ role m = lit "assistant"
                             \/ role m = lit "tool") transcript ->
            Forall (fun m => role m = lit "user" \/ role m = lit "assistant") sent)
        /\ (available_tools = [] -> sent = converted)
        /\ (available_tools <> [] ->
            (exists first s rest,
               converted = first :: rest /\ role first = lit "user"
               /\ content first = Text payload s
               /\ sent = user_message (describe available_tools ++ nl ++ nl ++ s)
                           :: rest)
            \/ (sent = user_message (describe available_tools) :: converted
                /\ match converted with
                   | first :: _ => role first <> lit "user"
                   | [] => True
                   end)))
  /\ (available_tools = []
      \/ match transcript with
         | first :: _ =>
           role first <> lit "user" \/ exists s, content first = Text payload s
         | [] => True
         end ->
      exists sent,
        qwen_payload str_of_payload marker describe transcript available_tools
        = Ret sent)
  /\ (forall generation_call c n sent,
        qwen_payload str_of_payload multi_marker multi_tools_info transcript
                     available_tools = Ret sent ->
        exists req,
          _call_model_qwen str_of_payload generation_call c n transcript
                           available_tools
          = (generation_call n req, [QwenCall req])
          /\ qreq_messages req = sent).
Proof.
  intros payload str_of_payload marker describe transcript available_tools
         converted user_message.
  assert (Hno : Forall (fun m => role m <> lit "tool") converted).
  { unfold converted, qwen_messages_of. apply Forall_forall. intros m Hm.
    apply in_map_iff in Hm as (m0 & <- & _). apply to_qwen_role. }
  assert (Hknown :
            Forall (fun m => role m = lit "user" \/ role m = lit "assistant"
                             \/ role m = lit "tool") transcript ->
            Forall (fun m => role m = lit "user" \/ role m = lit "assistant")
                   converted).
  { intro H. unfold converted, qwen_messages_of. apply Forall_forall. intros m Hm.
    apply in_map_iff in Hm as (m0 & <- & Hin).
    apply to_qwen_known_role. rewrite Forall_forall in H. auto. }
  split; [reflexivity|].
  split; [apply to_qwen_tool|].
  split; [apply to_qwen_other|].
  split; [|split].
  - intros sent Hsent. unfold qwen_payload in Hsent. fold converted in Hsent.
    destruct available_tools as [|t0 ts].
    + injection Hsent as <-. repeat split; auto. congruence.
    + apply add_tools_info_spec in Hsent.
      destruct Hsent as [(first & s & rest & Ec & Er & Ect & ->) | (-> & Hh)].
      * rewrite Ec in Hno, Hknown.
        repeat split.
        -- constructor; [simpl; discriminate | now inversion Hno].
        -- intro H. specialize (Hknown H).
           constructor; [now left | now inversion Hknown].
        -- discriminate.
        -- intros _. left. exists first, s, rest. auto.
      * repeat split.
        -- constructor; [simpl; discriminate | assumption].
        -- intro H. constructor; [now left | auto].
        -- discriminate.
        -- intros _. right. auto.
  - intros H. unfold qwen_payload.
    destruct available_tools as [|t0 ts]; [eauto|].
    destruct H as [H|H]; [discriminate|].
    unfold qwen_messages_of, add_tools_info.
    destruct transcript as [|first rest]; simpl; [eauto|].
    unfold to_qwen at 1 2.
    destruct (str_eqb_spec (role first) (lit "tool")) as [E|E]; simpl; [eauto|].
    destruct (str_eqb_spec (role first) (lit "user")) as [E'|E']; [|eauto].
    destruct H as [H|[s H]]; [contradiction|]. rewrite H. eauto.
  - intros generation_call c n sent Hsent. unfold _call_model_qwen.
    rewrite Hsent. eexists. split; reflexivity.
Qed.

(** The transcript with the tools of the calculator, the same transcript
    without tools, and a transcript that starts with the assistant. *)
Lemma qwen_adapter_sends_user_and_assistant_witness :
  Forall (fun m => role m = lit "user" \/ role m = lit "assistant")
    [ {| role := lit "user";
         content := Text str (multi_tools_info SampleTranscript.available_tools
                                ++ nl ++ nl ++ lit "1+2?") |};
      {| role := lit "assistant"; content := Text str (lit "TOOL_CALL: add {}") |};
      {| role := lit "user"; content := Text str (multi_marker ++ lit "3") |} ]
  /\ to_qwen SampleTalk.show_payload multi_marker
             {| role := lit "tool"; content := Text str (lit "3") |}
     = {| role := lit "user"; content := Text str (multi_marker ++ lit "3") |}
  /\ to_qwen SampleTalk.show_payload multi_marker
             {| role := lit "assistant"; content := Text str (lit "3") |}
     = {| role := lit "assistant"; content := Text str (lit "3") |}
  /\ qwen_messages_of SampleTalk.show_payload single_marker
                      SampleTranscript.transcript
     = [ {| role := lit "user"; content := Text str (lit "1+2?") |};
         {| role := lit "assistant";
            content := Text str (lit "TOOL_CALL: add {}") |};
         {| role := lit "user"; content := Text str (single_marker ++ lit "3") |} ]
  /\ (exists sent,
        qwen_payload SampleTalk.show_payload single_marker single_tools_info
          (tl SampleTranscript.transcript) SampleTranscript.available_tools
        = Ret sent)
  /\ (exists req,
        _call_model_qwen SampleTalk.show_payload (SampleTalk.says [])
          (Sample.calculator_client Qwen) 0 SampleTranscript.transcript []
        = (SampleTalk.says [] 0 req, [QwenCall req])
        /\ qreq_messages req
           = qwen_messages_of SampleTalk.show_payload multi_marker
                              SampleTranscript.transcript).
Proof.
  pose proof (@qwen_adapter_sends_user_and_assistant str SampleTalk.show_payload
                multi_marker multi_tools_info SampleTranscript.transcript
                SampleTranscript.available_tools)
    as (_ & Htool & Hother & Hsent & _ & _).
  pose proof (@qwen_adapter_sends_user_and_assistant str SampleTalk.show_payload
                single_marker single_tools_info SampleTranscript.transcript [])
    as (_ & _ & _ & Hplain & _ & _).
  pose proof (@qwen_adapter_sends_user_and_assistant str SampleTalk.show_payload
                single_marker single_tools_info (tl SampleTranscript.transcript)
                SampleTranscript.available_tools)
    as (_ & _ & _ & _ & Htotal & _).
  pose proof (@qwen_adapter_sends_user_and_assistant str SampleTalk.show_payload
                multi_marker multi_tools_info SampleTranscript.transcript [])
    as (_ & _ & _ & _ & _ & Hreq).
  refine (conj _ (conj _ (conj _ (conj _ (conj _ _))))).
  - refine (proj1 (proj2 (Hsent _ _)) _).
    + reflexivity.
    + constructor; [left; reflexivity|].
      constructor; [right; left; reflexivity|].
      constructor; [right; right; reflexivity|]. constructor.
  - apply (Htool {| role := lit "tool"; content := Text str (lit "3") |}).
    reflexivity.
  - apply (Hother {| role := lit "assistant"; content := Text str (lit "3") |}).
    discriminate.
  - symmetry. refine (proj1 (proj2 (proj2 (Hplain _ _))) _); reflexivity.
  - apply Htotal. right. left. discriminate.
  - apply (Hreq (SampleTalk.says []) (Sample.calculator_client Qwen) 0).
    reflexivity.
Defined.

(* ================================================================== *)
(** * Facts about the registry after the connections                   *)
(* ================================================================== *)

Section MoreDictFacts.

Variable V : Type.
Implicit Types (d : Dict.dict V) (v : V) (k : str).

Lemma dict_In_set_same k v d : In (k, v) (Dict.set k v d).
Proof.
  induction d as [|[k0 v0] d IH]; simpl; [now left|].
  destruct (Str.eqb k k0); simpl; auto.
Qed.

Lemma dict_In_set_other k v d k0 v0 :
  k0 <> k -> In (k0, v0) d -> In (k0, v0) (Dict.set k v d).
Proof.
  intro Hne. induction d as [|[k1 v1] d IH]; simpl; [tauto|].
  destruct (str_eqb_spec k k1) as [->|Hk]; simpl.
  - intros [[= -> ->]|H]; [congruence | auto].
  - intros [H|H]; auto.
Qed.

Lemma dict_get_of_In k v d : NoDup (Dict.keys d) -> In (k, v) d -> Dict.get k d = Some v.
Proof.
  induction d as [|[k1 v1] d IH]; simpl; [tauto|].
  intros Hnd [[= -> ->]|Hin].
  - now rewrite str_eqb_refl.
  - inversion Hnd as [|? ? Hn Hd]; subst.
    destruct (str_eqb_spec k k1) as [->|Hk]; [|auto].
    exfalso. apply Hn. change (In (fst (k1, v)) (map fst d)). now apply in_map.
Qed.

Lemma dict_get_set_Some k v d k0 :
  (exists v0, Dict.get k0 d = Some v0) ->
  exists v0, Dict.get k0 (Dict.set k v d) = Some v0.
Proof.
  intros [v0 H]. rewrite dict_get_set. destruct (Str.eqb k0 k); eauto.
Qed.

End MoreDictFacts.

Lemma In_map_tools_announced server_name ts m e :
  In e (map_tools server_name ts m) ->
  In e m \/ (snd e = server_name /\ In (fst e) (map tool_name ts)).
Proof.
  unfold map_tools. revert m; induction ts as [|t r IH]; intro m; simpl; auto.
  intro H. destruct (IH _ H) as [H'|[H1 H2]]; auto.
  apply dict_In_set in H' as [->|H']; auto.
Qed.

Lemma map_tools_keeps server_name ts m tool :
  (exists s, Dict.get tool m = Some s) ->
  exists s, Dict.get tool (map_tools server_name ts m) = Some s.
Proof.
  unfold map_tools. revert m; induction ts as [|t r IH]; intros m H; simpl; auto.
  apply IH. now apply dict_get_set_Some.
Qed.

Lemma map_tools_announced server_name ts m tool :
  In tool (map tool_name ts) ->
  Dict.get tool (map_tools server_name ts m) = Some server_name.
Proof.
  unfold map_tools. revert m; induction ts as [|t r IH]; intros m; simpl; [tauto|].
  intros [<-|H]; [|auto].
  clear IH. assert (G : Dict.get (tool_name t)
                          (Dict.set (tool_name t) server_name m)
                        = Some server_name) by apply dict_get_set_same.
  revert G. generalize (Dict.set (tool_name t) server_name m).
  induction r as [|t' r IH]; intros m' G; simpl; auto.
  apply IH. rewrite dict_get_set, G. now destruct (Str.eqb _ _).
Qed.

Section RegistryFacts.

Variable w : world.

(** One step of the event loop changes at most one task. *)
Lemma step_at_cases i ts c :
  step_at w i ts c = (ts, c)
  \/ exists before t after,
       ts = before ++ t :: after
       /\ finished t = false
       /\ step_at w i ts c
          = (before ++ fst (step_task w t c) :: after, snd (step_task w t c)).
Proof.
  revert i c; induction ts as [|t r IH]; intros i c; simpl; [now left|].
  destruct i as [|j].
  - destruct (finished t) eqn:F.
    + left. unfold step_task, finished in *.
      destruct (t_state t); [discriminate | reflexivity].
    + right. exists [], t, r. simpl. destruct (step_task w t c). auto.
  - destruct (IH j c) as [E | (before & t0 & after & E1 & E2 & E3)].
    + left. now rewrite E.
    + right. exists (t :: before), t0, after. rewrite E3, E1. auto.
Qed.

(** A step of a task that still runs either leaves the two maps alone,
    and the task has not returned, or it is the step that registers. *)
Lemma step_task_registers t c :
  finished t = false ->
  t_config (fst (step_task w t c)) = t_config t
  /\ ((servers (snd (step_task w t c)) = servers c
       /\ tool_server_map (snd (step_task w t c)) = tool_server_map c
       /\ returned (fst (step_task w t c)) = false)
      \/ exists announced,
           list_tools (t_attempt t) = Ret announced
           /\ fst (step_task w t c) = with_state t (Finished None)
           /\ snd (step_task w t c)
              = register (t_config t) (t_handle t)
                         (tools_of (t_config t) announced) c).
Proof.
  unfold finished, returned, step_task, fail, with_state.
  destruct t as [cfg h a [[|p| | | ]|r]]; simpl; try discriminate; intros _.
  - destruct (validate w cfg); simpl; auto.
  - destruct (spawn a p); simpl; auto.
  - destruct (open_session a); simpl; auto.
  - destruct (initialize a); simpl; auto.
  - destruct (list_tools a) as [announced|e] eqn:E; simpl; auto.
    split; auto. right. now exists announced.
Qed.

Lemma unfinished_registration t :
  finished t = false -> registration t = None /\ announced_by t = [].
Proof.
  unfold finished, registration, announced_by.
  destruct (t_state t); [auto | discriminate].
Qed.

Lemma not_returned_registration t :
  returned t = false -> registration t = None /\ announced_by t = [].
Proof.
  unfold returned, registration, announced_by.
  destruct (t_state t) as [|[e|]]; auto; discriminate.
Qed.

(** The invariant of the registry is kept by every step, when the tasks
    are for servers of different names. *)
Lemma step_at_registry servers0 routes0 i ts c :
  NoDup (names_of ts) ->
  registry_agrees servers0 routes0 ts c ->
  registry_agrees servers0 routes0 (fst (step_at w i ts c)) (snd (step_at w i ts c))
  /\ names_of (fst (step_at w i ts c)) = names_of ts.
Proof.
  intros Hnd [Ss Sc Rs Rc].
  destruct (step_at_cases i ts c) as [E | (before & t & after & Ets & Hrun & E)];
    rewrite E; simpl; [split; [constructor|]; auto|].
  destruct (step_task_registers t c Hrun) as [Hcfg Hstep].
  destruct (unfinished_registration t Hrun) as [Hreg Hann].
  set (t' := fst (step_task w t c)) in *.
  set (c' := snd (step_task w t c)) in *.
  assert (Hin : forall x, In x (before ++ t' :: after) ->
                          x = t' \/ (In x ts /\ x <> t
                                     /\ name (t_config x) <> name (t_config t))).
  { intros x Hx. apply in_app_or in Hx as [Hx|[Hx|Hx]]; auto; right.
    - rewrite Ets in *. unfold names_of in Hnd. rewrite map_app in Hnd. simpl in Hnd.
      apply NoDup_remove_2 in Hnd.
      assert (Hn : name (t_config x) <> name (t_config t)).
      { intro En. apply Hnd. apply in_or_app. left. rewrite <- En.
        now apply (in_map (fun t => name (t_config t))). }
      repeat split; auto; [apply in_or_app; auto | congruence].
    - rewrite Ets in *. unfold names_of in Hnd. rewrite map_app in Hnd. simpl in Hnd.
      apply NoDup_remove_2 in Hnd.
      assert (Hn : name (t_config x) <> name (t_config t)).
      { intro En. apply Hnd. apply in_or_app. right. rewrite <- En.
        now apply (in_map (fun t => name (t_config t))). }
      repeat split; auto; [apply in_or_app; right; now right | congruence]. }
  assert (Hold : forall x, In x ts -> x <> t -> In x (before ++ t' :: after)).
  { intros x Hx Hne. rewrite Ets in Hx.
    apply in_app_or in Hx as [Hx|[Hx|Hx]]; [| congruence |];
      apply in_or_app; [left | right; right]; assumption. }
  assert (Hnew : In t' (before ++ t' :: after))
    by (apply in_or_app; right; now left).
  split.
  2:{ unfold names_of. rewrite Ets, !map_app. simpl. now rewrite Hcfg. }
  destruct Hstep as [(Es & Er & Hnot) | (announced & Hl & Et' & Ec')].
  - destruct (not_returned_registration t' Hnot) as [Hreg' Hann'].
    constructor; rewrite ?Es, ?Er.
    + intros kv Hkv. destruct (Ss kv Hkv) as [?|(x & Hx & Hxr)]; auto.
      right. exists x. split; auto. apply Hold; auto. congruence.
    + intros x kv Hx Hxr. destruct (Hin x Hx) as [->|(Hx' & _)]; [congruence|].
      eapply Sc; eauto.
    + intros e He. destruct (Rs e He) as [?|(x & Hx & Hxn & Hxa)]; auto.
      right. exists x. repeat split; auto. apply Hold; auto.
      intros ->. rewrite Hann in Hxa. destruct Hxa.
    + intros x n Hx Hxa. destruct (Hin x Hx) as [->|(Hx' & _)].
      * rewrite Hann' in Hxa. destruct Hxa.
      * eapply Rc; eauto.
  - assert (Hreg' : registration t'
                    = Some (name (t_config t),
                            connection_of (t_config t) (t_handle t) announced))
      by (rewrite Et'; unfold registration, with_state; simpl; now rewrite Hl).
    assert (Hann' : announced_by t' = map mcp_name announced)
      by (rewrite Et'; unfold announced_by, with_state; simpl; now rewrite Hl).
    assert (Hcfg' : t_config t' = t_config t) by exact Hcfg.
    constructor; rewrite Ec'; unfold register; simpl.
    + intros kv Hkv. apply dict_In_set in Hkv as [->|Hkv].
      * right. exists t'. auto.
      * destruct (Ss kv Hkv) as [?|(x & Hx & Hxr)]; auto.
        right. exists x. split; auto. apply Hold; auto. congruence.
    + intros x kv Hx Hxr. destruct (Hin x Hx) as [->|(Hx' & Hne & Hname)].
      * rewrite Hreg' in Hxr. injection Hxr as <-. apply dict_In_set_same.
      * pose proof (Sc x kv Hx' Hxr) as Hkv.
        destruct kv as [k v]. apply dict_In_set_other; auto.
        unfold registration in Hxr.
        destruct (t_state x) as [|[|]]; try discriminate.
        destruct (list_tools (t_attempt x)); try discriminate.
        injection Hxr as <- _. exact Hname.
    + intros e He. apply In_map_tools_announced in He as [He|[He1 He2]].
      * destruct (Rs e He) as [?|(x & Hx & Hxn & Hxa)]; auto.
        right. exists x. repeat split; auto. apply Hold; auto.
        intros ->. rewrite Hann in Hxa. destruct Hxa.
      * right. exists t'. rewrite Hcfg', Hann'. repeat split; auto.
        unfold tools_of in He2. now rewrite map_map in He2.
    + intros x n Hx Hxa. destruct (Hin x Hx) as [->|(Hx' & _)].
      * rewrite Hann' in Hxa. exists (name (t_config t)).
        apply map_tools_announced. unfold tools_of. now rewrite map_map.
      * apply map_tools_keeps. eapply Rc; eauto.
Qed.

Lemma steps_registry servers0 routes0 x y :
  steps w x y ->
  NoDup (names_of (fst x)) ->
  registry_agrees servers0 routes0 (fst x) (snd x) ->
  registry_agrees servers0 routes0 (fst y) (snd y)
  /\ names_of (fst y) = names_of (fst x).
Proof.
  induction 1 as [x | i ts c y H IH]; intros Hnd Hr; [auto|].
  destruct (step_at_registry i Hnd Hr) as [Hr' Hn]. simpl in *.
  destruct IH as [Hy Hny]; [now rewrite Hn | assumption |].
  split; [assumption | congruence].
Qed.

Lemma spawn_tasks_names first_handle i cfgs :
  names_of (spawn_tasks w first_handle i cfgs) = map name cfgs.
Proof. revert i; induction cfgs; intro i; simpl; f_equal; auto. Qed.

Lemma spawn_tasks_registry first_handle i cfgs c c' :
  servers c' = servers c -> tool_server_map c' = tool_server_map c ->
  registry_agrees (servers c) (tool_server_map c)
                  (spawn_tasks w first_handle i cfgs) c'.
Proof.
  intros Es Er.
  assert (H : forall t, In t (spawn_tasks w first_handle i cfgs) ->
                        finished t = false).
  { revert i; induction cfgs as [|cfg r IH]; intros i t; simpl; [tauto|].
    intros [<-|Ht]; [reflexivity | eauto]. }
  constructor; rewrite ?Es, ?Er; auto.
  - intros t kv Ht Hr. destruct (unfinished_registration t (H t Ht)). congruence.
  - intros t n Ht Ha. destruct (unfinished_registration t (H t Ht)) as [_ E].
    rewrite E in Ha. destruct Ha.
Qed.

Lemma outcome_list_tools server_config a announced :
  outcome w server_config a = Ret announced -> list_tools a = Ret announced.
Proof.
  unfold outcome. destruct (validate w server_config); [|discriminate].
  destruct (spawn a _); [discriminate|].
  destruct (open_session a); [discriminate|].
  destruct (initialize a); [discriminate|]. auto.
Qed.

Lemma outcomes_nth i cfgs j :
  nth_error (outcomes w i cfgs) j
  = option_map (fun cfg => (cfg, outcome w cfg (attempt_of w (i + j))))
               (nth_error cfgs j).
Proof.
  revert i j; induction cfgs as [|cfg r IH]; intros i j; simpl.
  - now destruct j.
  - destruct j as [|j]; simpl; [now rewrite Nat.add_0_r|].
    rewrite IH. now rewrite Nat.add_succ_comm.
Qed.

(** The task at a position when [gather] returns. *)
Lemma final_task_at first_handle i cfgs ts' :
  Forall2 (same_task w) (spawn_tasks w first_handle i cfgs) ts' ->
  Forall (fun t => finished t = true) ts' ->
  forall j,
    match nth_error ts' j, nth_error cfgs j with
    | Some t, Some cfg =>
      t_config t = cfg /\ t_handle t = first_handle + (i + j)
      /\ t_attempt t = attempt_of w (i + j)
      /\ t_state t = Finished (err_of (outcome w cfg (attempt_of w (i + j))))
    | None, None => True
    | _, _ => False
    end.
Proof.
  revert i ts'; induction cfgs as [|cfg r IH]; intros i ts' H2 Hf j; simpl in H2.
  - inversion H2; subst. now destruct j.
  - inversion H2 as [|t0 t' r0 r' (Ec & Eh & Ea & Efate) Hr]; subst.
    inversion Hf as [|? ? Hfin Hfr]; subst.
    destruct j as [|j]; simpl.
    + rewrite Nat.add_0_r. simpl in *. repeat split; auto.
      rewrite (finished_state w _ Hfin), Efate. reflexivity.
    + specialize (IH (S i) r' Hr Hfr j).
      rewrite <- Nat.add_succ_comm. exact IH.
Qed.

(** What a task that returned has written, in terms of the outcomes. *)
Lemma final_registration first_handle cfgs ts' t kv :
  Forall2 (same_task w) (spawn_tasks w first_handle 0 cfgs) ts' ->
  Forall (fun t => finished t = true) ts' ->
  In t ts' -> registration t = Some kv ->
  exists j cfg announced,
    nth_error (outcomes w 0 cfgs) j = Some (cfg, Ret announced)
    /\ kv = (name cfg, connection_of cfg (first_handle + j) announced)
    /\ announced_by t = map mcp_name announced.
Proof.
  intros H2 Hf Hin Hreg. apply In_nth_error in Hin as [j Hj].
  pose proof (@final_task_at _ _ _ _ H2 Hf j) as Hat. rewrite Hj in Hat.
  destruct (nth_error cfgs j) as [cfg|] eqn:Ecfg; [|contradiction].
  destruct Hat as (Ec & Eh & Ea & Est). simpl in *.
  unfold registration, announced_by in *. rewrite Est, Ea, Ec, Eh in *.
  destruct (outcome w cfg (attempt_of w j)) as [announced|e] eqn:Eo;
    simpl in Hreg; [|discriminate].
  rewrite (outcome_list_tools _ _ Eo) in *. injection Hreg as <-.
  exists j, cfg, announced. rewrite outcomes_nth, Ecfg. simpl. now rewrite Eo.
Qed.

Lemma final_announced first_handle cfgs ts' t tool :
  Forall2 (same_task w) (spawn_tasks w first_handle 0 cfgs) ts' ->
  Forall (fun t => finished t = true) ts' ->
  In t ts' -> In tool (announced_by t) ->
  exists j cfg announced,
    nth_error (outcomes w 0 cfgs) j = Some (cfg, Ret announced)
    /\ t_config t = cfg /\ In tool (map mcp_name announced)
    /\ registration t
       = Some (name cfg, connection_of cfg (first_handle + j) announced).
Proof.
  intros H2 Hf Hin Hann. apply In_nth_error in Hin as [j Hj].
  pose proof (@final_task_at _ _ _ _ H2 Hf j) as Hat. rewrite Hj in Hat.
  destruct (nth_error cfgs j) as [cfg|] eqn:Ecfg; [|contradiction].
  destruct Hat as (Ec & Eh & Ea & Est). simpl in *.
  unfold registration, announced_by in *. rewrite Est, Ea, Ec, Eh in *.
  destruct (outcome w cfg (attempt_of w j)) as [announced|e] eqn:Eo;
    simpl in Hann; [|destruct Hann].
  rewrite (outcome_list_tools _ _ Eo) in *.
  exists j, cfg, announced. rewrite outcomes_nth, Ecfg. simpl. now rewrite Eo.
Qed.

Lemma final_task_of first_handle cfgs ts' j cfg announced :
  Forall2 (same_task w) (spawn_tasks w first_handle 0 cfgs) ts' ->
  Forall (fun t => finished t = true) ts' ->
  nth_error (outcomes w 0 cfgs) j = Some (cfg, Ret announced) ->
  exists t,
    In t ts'
    /\ registration t
       = Some (name cfg, connection_of cfg (first_handle + j) announced)
    /\ announced_by t = map mcp_name announced.
Proof.
  intros H2 Hf Ho. rewrite outcomes_nth in Ho. simpl in Ho.
  pose proof (@final_task_at _ _ _ _ H2 Hf j) as Hat.
  destruct (nth_error cfgs j) as [cfg'|] eqn:Ecfg; [|discriminate].
  simpl in Ho. injection Ho as -> Eo.
  destruct (nth_error ts' j) as [t|] eqn:Et; [|contradiction].
  destruct Hat as (Ec & Eh & Ea & Est). simpl in *.
  exists t. split; [eapply nth_error_In; eauto|].
  unfold registration, announced_by. rewrite Est, Ea, Ec, Eh, Eo. simpl.
  now rewrite (outcome_list_tools _ _ Eo).
Qed.

(** [connect_to_servers] from any client: the tasks at the end and the
    two maps. *)
Lemma connect_to_servers_registry schedule c :
  NoDup (map name (filter enabled (server_configs c))) ->
  exists ts',
    Forall2 (same_task w)
            (spawn_tasks w (next_handle c) 0 (filter enabled (server_configs c)))
            ts'
    /\ Forall (fun t => finished t = true) ts'
    /\ registry_agrees (servers c) (tool_server_map c) ts'
                       (connect_to_servers w schedule c).
Proof.
  intro Hnd. unfold connect_to_servers.
  destruct (filter enabled (server_configs c)) as [|cfg0 rest] eqn:En.
  - exists []. repeat split; auto; try constructor; auto; intros ? ? [].
  - set (ts0 := spawn_tasks w (next_handle c) 0 (cfg0 :: rest)).
    set (c1 := with_next_handle c (next_handle c + List.length ts0)).
    pose proof (gather_steps w schedule ts0 c1) as Hsteps.
    pose proof (gather_finished w schedule ts0 c1) as Hfin.
    destruct (gather w schedule ts0 c1) as [ts' c2]. simpl in Hfin.
    pose proof (steps_same Hsteps) as Hsame. simpl in Hsame.
    exists ts'. split; [assumption | split; [assumption|]].
    assert (H0 : registry_agrees (servers c) (tool_server_map c) ts0 c1)
      by (apply spawn_tasks_registry; reflexivity).
    assert (Hn0 : NoDup (names_of ts0))
      by (unfold ts0; now rewrite spawn_tasks_names).
    destruct (@steps_registry (servers c) (tool_server_map c) _ _ Hsteps Hn0 H0)
      as [[Ss Sc Rs Rc] _]. simpl in *.
    constructor.
    + intros kv H. rewrite report_servers in H. auto.
    + intros t kv Ht Hr. rewrite report_servers. eauto.
    + intros e H. rewrite report_tool_server_map in H. auto.
    + intros t n Ht Ha. rewrite report_tool_server_map. eauto.
Qed.

End RegistryFacts.

(** The registry of a new client after [connect_to_servers], for enabled
    servers of different names. *)
Lemma new_client_registry :
  forall (w : world) (schedule : list nat) (cfgs : list ServerConfig)
         (m : model_settings) (p : provider),
  NoDup (map name (filter enabled cfgs)) ->
  let c' := connect_to_servers w schedule (new_client cfgs m p) in
  (forall i server_config announced,
     connects w cfgs i server_config announced ->
     Dict.get (name server_config) (servers c')
     = Some (connection_of server_config i announced)
     /\ forall t, In t announced ->
          exists s, Dict.get (mcp_name t) (tool_server_map c') = Some s)
  /\ (forall k connection,
        Dict.get k (servers c') = Some connection ->
        exists i server_config announced,
          connects w cfgs i server_config announced
          /\ k = name server_config
          /\ connection = connection_of server_config i announced)
  /\ (forall tool s,
        Dict.get tool (tool_server_map c') = Some s ->
        exists i server_config announced,
          connects w cfgs i server_config announced
          /\ name server_config = s
          /\ In tool (map mcp_name announced)).
Proof.
  intros w schedule cfgs m p Hnd c'.
  destruct (connect_to_servers_registry w schedule (new_client cfgs m p) Hnd)
    as (ts' & H2 & Hf & [Ss Sc Rs Rc]).
  fold c' in Ss, Sc, Rs, Rc. simpl in *.
  assert (Hkeys : NoDup (Dict.keys (servers c'))).
  { destruct (connect_to_servers_spec w schedule (new_client cfgs m p))
      as (_ & _ & _ & N & _). apply N. constructor. }
  repeat split.
  - destruct (@final_task_of _ _ _ _ _ _ _ H2 Hf H) as (t & Ht & Hr & Ha).
    apply dict_get_of_In; auto. exact (Sc t _ Ht Hr).
  - intros tl Htl. destruct (@final_task_of _ _ _ _ _ _ _ H2 Hf H) as (t & Ht & Hr & Ha).
    apply (Rc t (mcp_name tl) Ht). rewrite Ha. now apply in_map.
  - intros k connection Hget. apply dict_get_Some_In in Hget.
    destruct (Ss _ Hget) as [[]|(t & Ht & Hr)].
    destruct (@final_registration _ _ _ _ _ _ H2 Hf Ht Hr) as (j & cfg & an & Ho & [= -> ->] & _).
    exists j, cfg, an. auto.
  - intros tool s Hget. apply dict_get_Some_In in Hget.
    destruct (Rs _ Hget) as [[]|(t & Ht & Hn & Ha)]. simpl in *.
    destruct (@final_announced _ _ _ _ _ _ H2 Hf Ht Ha) as (j & cfg & an & Ho & Hc & Hin & _).
    exists j, cfg, an. repeat split; auto. congruence.
Qed.

(** X1.  After [connect_to_servers] on a new client whose enabled servers
    have different names, [servers] holds exactly the connections of the
    servers that connected: each under the name of its server, with the
    session of its own attempt and the tools that the server announced,
    and nothing else. *)
Theorem servers_after_connect :
  forall (w : world) (schedule : list nat) (cfgs : list ServerConfig)
         (m : model_settings) (p : provider),
  NoDup (map name (filter enabled cfgs)) ->
  let c' := connect_to_servers w schedule (new_client cfgs m p) in
  forall (k : str) (connection : ServerConnection),
    Dict.get k (servers c') = Some connection
    <-> exists i server_config announced,
          connects w cfgs i server_config announced
          /\ k = name server_config
          /\ connection = connection_of server_config i announced.
Proof.
  intros w schedule cfgs m p Hnd c' k connection.
  destruct (@new_client_registry w schedule cfgs m p Hnd) as (A & B & _).
  fold c' in A, B. split; [apply B|].
  intros (i & cfg & an & Hc & -> & ->). now apply A.
Qed.

Lemma servers_after_connect_witness :
  Dict.get (lit "calculator")
    (servers (connect_to_servers Sample.files [2; 1; 2; 1; 0]
                (new_client Sample.three_servers Sample.settings Qwen)))
  = Some (connection_of
            (Sample.server "calculator" "../mcp-server/calculator/calculator.py")
            1 [Sample.announces "add"; Sample.announces "subtract"]).
Proof.
  refine (proj2
    (@servers_after_connect Sample.files [2; 1; 2; 1; 0] Sample.three_servers
       Sample.settings Qwen _ _ _) _).
  - vm_compute.
    repeat constructor; simpl; intro H;
      repeat (destruct H as [H|H]; [discriminate H|]); exact H.
  - exists 1, (Sample.server "calculator" "../mcp-server/calculator/calculator.py"),
      [Sample.announces "add"; Sample.announces "subtract"].
    split; [reflexivity|]. split; reflexivity.
Defined.

(** X2.  After [connect_to_servers] on a new client whose enabled servers
    have different names, a tool name has an entry in [tool_server_map]
    exactly when a connected server announced it, and the entry holds the
    name of a connected server that announced it. *)
Theorem routing_after_connect :
  forall (w : world) (schedule : list nat) (cfgs : list ServerConfig)
         (m : model_settings) (p : provider),
  NoDup (map name (filter enabled cfgs)) ->
  let c' := connect_to_servers w schedule (new_client cfgs m p) in
  forall tool : str,
    ((exists s, Dict.get tool (tool_server_map c') = Some s)
     <-> exists i server_config announced,
           connects w cfgs i server_config announced
           /\ In tool (map mcp_name announced))
    /\ (forall s, Dict.get tool (tool_server_map c') = Some s ->
         exists i server_config announced,
           connects w cfgs i server_config announced
           /\ name server_config = s
           /\ In tool (map mcp_name announced)).
Proof.
  intros w schedule cfgs m p Hnd c' tool.
  destruct (@new_client_registry w schedule cfgs m p Hnd) as (A & _ & C).
  fold c' in A, C. split; [split|].
  - intros [s Hs]. destruct (C _ _ Hs) as (i & cfg & an & Hc & _ & Hin).
    now exists i, cfg, an.
  - intros (i & cfg & an & Hc & Hin).
    apply in_map_iff in Hin as (a & <- & Ha).
    destruct (A _ _ _ Hc) as [_ R]. now apply R.
  - apply C.
Qed.

Lemma routing_after_connect_witness :
  exists s,
    Dict.get (lit "add")
      (tool_server_map (connect_to_servers Sample.files [2; 1; 2; 1; 0]
                          (new_client Sample.three_servers Sample.settings Qwen)))
    = Some s.
Proof.
  refine (proj2 (proj1
    (@routing_after_connect Sample.files [2; 1; 2; 1; 0] Sample.three_servers
       Sample.settings Qwen _ (lit "add"))) _).
  - vm_compute.
    repeat constructor; simpl; intro H;
      repeat (destruct H as [H|H]; [discriminate H|]); exact H.
  - exists 1, (Sample.server "calculator" "../mcp-server/calculator/calculator.py"),
      [Sample.announces "add"; Sample.announces "subtract"].
    split; [reflexivity|]. now left.
Defined.

Section RegistryDispatch.

Variable payload : Type.
Variable session_call_tool : nat -> nat -> str -> json -> res (CallToolResult payload).

(** X3.  After [connect_to_servers] on a new client whose enabled servers
    have different, non-empty names, [call_tool] for a tool that a
    connected server announced makes exactly one call, through the session
    of a connected server that announced a tool of that name, and returns
    what that call returns; when one server alone announced the name, it
    is the session of that server. *)
Theorem announced_tool_is_dispatched :
  forall (w : world) (schedule : list nat) (cfgs : list ServerConfig)
         (m : model_settings) (p : provider)
         (i : nat) (server_config : ServerConfig) (announced : list mcp_tool)
         (tool : str),
  NoDup (map name (filter enabled cfgs)) ->
  Forall (fun cfg => name cfg <> []) (filter enabled cfgs) ->
  connects w cfgs i server_config announced ->
  In tool (map mcp_name announced) ->
  let c' := connect_to_servers w schedule (new_client cfgs m p) in
  exists j server_config' announced',
    connects w cfgs j server_config' announced'
    /\ In tool (map mcp_name announced')
    /\ (forall n tool_args,
          call_tool session_call_tool c' n tool tool_args
          = (session_call_tool n j tool tool_args,
             [TransportCall payload j tool tool_args]))
    /\ ((forall k cfg an, connects w cfgs k cfg an ->
                          In tool (map mcp_name an) -> k = i) -> j = i).
Proof.
  intros w schedule cfgs m p i cfg announced tool Hnd Hne Hc Hin c'.
  destruct (@new_client_registry w schedule cfgs m p Hnd) as (A & B & C).
  fold c' in A, B, C.
  apply in_map_iff in Hin as (tl & <- & Htl).
  destruct (A _ _ _ Hc) as [_ Hrouted].
  destruct (Hrouted tl Htl) as [s Hs].
  destruct (C _ _ Hs) as (j & cfg' & an' & Hc' & Hname & Hin').
  destruct (A _ _ _ Hc') as [Hconn _].
  exists j, cfg', an'.
  split; [assumption|]. split; [assumption|]. split.
  - intros n tool_args.
    rewrite call_tool_routes with (server_name := s)
                                  (connection := connection_of cfg' j an'); auto.
    + subst s. rewrite Forall_forall in Hne. apply Hne.
      unfold connects in Hc'. apply nth_error_In in Hc'.
      apply (in_map fst) in Hc'. now rewrite outcomes_configs in Hc'.
    + now subst s.
  - intros Hu. exact (Hu _ _ _ Hc' Hin').
Qed.

End RegistryDispatch.

Lemma announced_tool_is_dispatched_witness :
  exists j server_config' announced',
    connects Sample.files Sample.three_servers j server_config' announced'
    /\ In (lit "add") (map mcp_name announced')
    /\ (forall n tool_args,
          call_tool SampleCalls.echo
            (connect_to_servers Sample.files [2; 1; 2; 1; 0]
               (new_client Sample.three_servers Sample.settings Qwen))
            n (lit "add") tool_args
          = (SampleCalls.echo n j (lit "add") tool_args,
             [TransportCall str j (lit "add") tool_args]))
    /\ ((forall k cfg an, connects Sample.files Sample.three_servers k cfg an ->
                          In (lit "add") (map mcp_name an) -> k = 1) -> j = 1).
Proof.
  refine (@announced_tool_is_dispatched str SampleCalls.echo Sample.files
            [2; 1; 2; 1; 0] Sample.three_servers Sample.settings Qwen 1
            (Sample.server "calculator" "../mcp-server/calculator/calculator.py")
            [Sample.announces "add"; Sample.announces "subtract"] (lit "add")
            _ _ _ _).
  - vm_compute.
    repeat constructor; simpl; intro H;
      repeat (destruct H as [H|H]; [discriminate H|]); exact H.
  - vm_compute. repeat constructor; discriminate.
  - reflexivity.
  - left. reflexivity.
Defined.

(** X4.  After [connect_to_servers] on a new client whose enabled servers
    have different names, the catalog of [get_all_tools] holds exactly
    the tools that the connected servers announced, each with the name of
    the server that announced it. *)
Theorem catalog_after_connect :
  forall (w : world) (schedule : list nat) (cfgs : list ServerConfig)
         (m : model_settings) (p : provider),
  NoDup (map name (filter enabled cfgs)) ->
  let c' := connect_to_servers w schedule (new_client cfgs m p) in
  forall t : tool,
    In t (get_all_tools c')
    <-> exists i server_config announced a,
          connects w cfgs i server_config announced
          /\ In a announced
          /\ t = {| tool_name := mcp_name a;
                    tool_description := mcp_description a;
                    input_schema := inputSchema a;
                    server := Some (name server_config) |}.
Proof.
  intros w schedule cfgs m p Hnd c' t.
  destruct (@new_client_registry w schedule cfgs m p Hnd) as (A & B & _).
  fold c' in A, B. unfold get_all_tools. rewrite in_flat_map. split.
  - intros ([k conn] & Hkv & Ht). simpl in Ht.
    assert (Hget : Dict.get k (servers c') = Some conn).
    { apply dict_get_of_In; auto.
      destruct (connect_to_servers_spec w schedule (new_client cfgs m p))
        as (_ & _ & _ & N & _). apply N. constructor. }
    destruct (B _ _ Hget) as (i & cfg & an & Hc & -> & ->).
    simpl in Ht. unfold tools_of in Ht. apply in_map_iff in Ht as (a & <- & Ha).
    exists i, cfg, an, a. auto.
  - intros (i & cfg & an & a & Hc & Ha & ->).
    destruct (A _ _ _ Hc) as [Hget _]. apply dict_get_Some_In in Hget.
    eexists. split; [exact Hget|]. simpl. unfold tools_of.
    apply in_map_iff. now exists a.
Qed.

Lemma catalog_after_connect_witness :
  In {| tool_name := lit "add"; tool_description := Some (lit "add");
        input_schema := []; server := Some (lit "calculator") |}
     (get_all_tools
        (connect_to_servers Sample.files [2; 1; 2; 1; 0]
           (new_client Sample.three_servers Sample.settings Qwen))).
Proof.
  refine (proj2
    (@catalog_after_connect Sample.files [2; 1; 2; 1; 0] Sample.three_servers
       Sample.settings Qwen _ _) _).
  - vm_compute.
    repeat constructor; simpl; intro H;
      repeat (destruct H as [H|H]; [discriminate H|]); exact H.
  - exists 1, (Sample.server "calculator" "../mcp-server/calculator/calculator.py"),
      [Sample.announces "add"; Sample.announces "subtract"],
      (Sample.announces "add").
    repeat split. now left.
Defined.

(* ================================================================== *)
(** * Facts about the calls of a query                                 *)
(* ================================================================== *)

Section CallFacts.

Variable payload : Type.
Variable str_of_payload : payload -> str.
Variable str_of_args : json -> str.
Variable json_loads : str -> res json.
Variable anthropic_create : nat -> anthropic_request payload -> res (list block).
Variable generation_call : nat -> qwen_request payload -> res qwen_response.
Variable session_call_tool : nat -> nat -> str -> json -> res (CallToolResult payload).

Local Abbreviation process_query' :=
  (process_query str_of_payload str_of_args json_loads anthropic_create
                 generation_call session_call_tool).
Local Abbreviation use_tool_qwen' :=
  (use_tool_qwen str_of_payload str_of_args json_loads generation_call
                 session_call_tool).
Local Abbreviation process_block' :=
  (process_block str_of_args anthropic_create session_call_tool).
Local Abbreviation call_tool' := (call_tool session_call_tool).
Local Abbreviation parse_tool_call' := (parse_tool_call json_loads).
Local Abbreviation qwen_turn' :=
  (qwen_turn str_of_payload str_of_args json_loads generation_call
             session_call_tool).
Local Abbreviation anthropic_turn' :=
  (anthropic_turn str_of_args anthropic_create session_call_tool).

Lemma events_record_length (f : event payload -> bool) evs (t : turn payload) :
  List.length (filter f (events (record evs t)))
  = List.length (filter f (events t)) + List.length (filter f evs).
Proof. simpl. now rewrite filter_app, length_app. Qed.

Lemma call_tool_cases c n tool_name tool_args :
  (exists e, call_tool' c n tool_name tool_args = (Raise e, []))
  \/ (exists h, call_tool' c n tool_name tool_args
                = (session_call_tool n h tool_name tool_args,
                   [TransportCall payload h tool_name tool_args])).
Proof.
  unfold call_tool.
  destruct (Dict.get tool_name (tool_server_map c)) as [[|x s]|]; eauto.
  destruct (Dict.get (x :: s) (servers c)); eauto.
Qed.

Ltac count_events :=
  unfold counted, transport_calls, dispatches, model_calls in *; simpl in *;
  rewrite ?filter_app, ?length_app in *; simpl in *;
  rewrite ?length_app in *; simpl in *.

Lemma use_tool_qwen_counted c available_tools message_content line t :
  counted t ->
  counted (use_tool_qwen' c available_tools message_content line t).
Proof.
  intros H. unfold use_tool_qwen.
  destruct (parse_tool_call' line) as [[tool_name tool_args]|e];
    [|count_events; lia].
  destruct (call_tool_cases c (List.length (transport_calls (events t)))
              tool_name tool_args) as [[e ->]|[h ->]];
    [count_events; lia|].
  destruct (session_call_tool _ h tool_name tool_args) as [result|e];
    [|count_events; lia].
  unfold _call_model_qwen.
  destruct (qwen_payload _ _ _ _) as [msgs|e]; simpl; [|count_events; lia].
  match goal with
  | |- context [generation_call ?n ?r] =>
    destruct (generation_call n r) as [response|e]
  end; [destruct (status_code response =? 200)%Z|];
    count_events; lia.
Qed.

Lemma process_block_counted c available_tools t b :
  counted t -> counted (process_block' c available_tools t b).
Proof.
  intros H. destruct b as [s|tool_name tool_args text|cls text]; simpl;
    [count_events; lia| |exact H].
  unfold use_tool_anthropic.
  destruct (call_tool_cases c (List.length (transport_calls (events t)))
              tool_name tool_args) as [[e ->]|[h ->]];
    [count_events; lia|].
  destruct (session_call_tool _ h tool_name tool_args) as [result|e];
    [|count_events; lia].
  unfold _call_model_anthropic.
  match goal with
  | |- context [anthropic_create ?n ?r] =>
    destruct (anthropic_create n r) as [blocks|e]
  end; [destruct (first_text blocks)|];
    destruct text as [[|x s]|]; count_events; lia.
Qed.

Lemma fold_counted c available_tools blocks t :
  counted t ->
  counted (fold_left (process_block' c available_tools) blocks t).
Proof.
  revert t; induction blocks as [|b r IH]; intros t H; simpl; [exact H|].
  apply IH. now apply process_block_counted.
Qed.

Lemma scan_lines_counted c available_tools message_content lines t :
  counted t ->
  counted (scan_lines str_of_payload str_of_args json_loads generation_call
                      session_call_tool c available_tools message_content
                      lines t).
Proof.
  intros H. rewrite scan_lines_find. destruct (find _ _).
  - now apply use_tool_qwen_counted.
  - count_events; lia.
Qed.

Lemma process_query_counted c query :
  counted (snd (process_query' c query)).
Proof.
  unfold process_query. destruct (client_type c).
  - unfold _call_model_anthropic.
    match goal with
    | |- context [anthropic_create ?n ?r] =>
      destruct (anthropic_create n r) as [blocks|e]
    end; simpl.
    + apply fold_counted. count_events; lia.
    + count_events; lia.
  - unfold _call_model_qwen.
    destruct (qwen_payload _ _ _ _) as [msgs|e]; [|count_events; lia].
    match goal with
    | |- context [generation_call ?n ?r] =>
      destruct (generation_call n r) as [response|e]
    end; simpl; [|count_events; lia].
    destruct (status_code response =? 200)%Z; [|count_events; lia].
    destruct (contains sentinel (output_content response));
      [|count_events; lia].
    apply scan_lines_counted. count_events; lia.
Qed.

Lemma process_query_qwen_dispatches c query :
  client_type c = Qwen ->
  List.length (dispatches (events (snd (process_query' c query)))) <= 1.
Proof.
  intros Hc. unfold process_query. rewrite Hc, first_call_qwen.
  destruct (generation_call 0 _) as [response|e]; simpl; [|lia].
  destruct (status_code response =? 200)%Z; [|simpl; lia].
  destruct (contains sentinel (output_content response)); [|simpl; lia].
  rewrite scan_lines_find. destruct (find _ _); [|simpl; lia].
  rewrite use_tool_qwen_dispatches. simpl.
  destruct (parse_tool_call' _) as [[? ?]|?]; simpl; lia.
Qed.

(** X5.  The numbers of calls of a query, for either vendor and whatever the
    collaborators answer: every tool result comes from one call through a
    session, every call through a session from one dispatch, and every
    model call but the first follows a tool result. *)
Theorem process_query_call_counts :
  forall (c : client) (query : str),
  let t := snd (process_query' c query) in
  List.length (tool_results t) <= List.length (transport_calls (events t))
  /\ List.length (transport_calls (events t))
     <= List.length (dispatches (events t))
  /\ List.length (model_calls (events t)) <= 1 + List.length (tool_results t).
Proof. intros c query t. exact (process_query_counted c query). Qed.

(** X6.  With the second vendor a query dispatches at most one tool, makes at
    most one call through a session and calls the model at most twice,
    whatever the answers are. *)
Theorem qwen_query_is_bounded :
  forall (c : client) (query : str),
  client_type c = Qwen ->
  let t := snd (process_query' c query) in
  List.length (dispatches (events t)) <= 1
  /\ List.length (transport_calls (events t)) <= 1
  /\ List.length (model_calls (events t)) <= 2.
Proof.
  intros c query Hc t.
  destruct (process_query_counted c query) as (H1 & H2 & H3).
  pose proof (process_query_qwen_dispatches c query Hc) as H4.
  fold t in H1, H2, H3, H4. lia.
Qed.

Lemma process_block_dispatches c available_tools t b :
  dispatches (events (process_block' c available_tools t b))
  = dispatches (events t) ++ asked_for payload [b].
Proof.
  destruct b as [s|tool_name tool_args text|cls text]; simpl;
    rewrite ?app_nil_r; try reflexivity.
  unfold use_tool_anthropic.
  destruct (call_tool_cases c (List.length (transport_calls (events t)))
              tool_name tool_args) as [[e ->]|[h ->]].
  - unfold dispatches. simpl. now rewrite filter_app.
  - destruct (session_call_tool _ h tool_name tool_args) as [result|e].
    + unfold _call_model_anthropic.
      match goal with
      | |- context [anthropic_create ?n ?r] =>
        destruct (anthropic_create n r) as [blocks|e]
      end; [destruct (first_text blocks)|];
        destruct text as [[|x s]|]; unfold dispatches; simpl;
          rewrite !filter_app; simpl; now rewrite app_nil_r.
    + unfold dispatches. simpl. now rewrite filter_app.
Qed.

Lemma fold_dispatches c available_tools blocks t :
  dispatches (events (fold_left (process_block' c available_tools) blocks t))
  = dispatches (events t) ++ asked_for payload blocks.
Proof.
  revert t; induction blocks as [|b r IH]; intro t; simpl.
  - now rewrite app_nil_r.
  - rewrite IH, process_block_dispatches. simpl.
    now rewrite app_nil_r, <- app_assoc.
Qed.

(** X7.  With the first vendor the tools that a query dispatches are the
    [tool_use] blocks of the first answer, all of them and in their order,
    whether the calls succeed or not: a [tool_use] block of a later answer
    is never executed. *)
Theorem anthropic_dispatches_first_answer :
  forall (c : client) (query : str) (blocks : list block),
  client_type c = Anthropic ->
  anthropic_create 0 (first_anthropic_request payload c query) = Ret blocks ->
  dispatches (events (snd (process_query' c query))) = asked_for payload blocks.
Proof.
  intros c query blocks Hc Hr.
  rewrite process_query_anthropic with (blocks := blocks) by assumption. simpl.
  unfold anthropic_turn. now rewrite fold_dispatches.
Qed.

(** X8.  [process_query] raises exactly when its first model call raises, and
    then with the same exception: nothing that happens afterwards, be it
    in a tool call, in a later model call or in the reading of an answer,
    leaves the method as an exception. *)
Theorem process_query_raises_with_first_call :
  forall (c : client) (query : str) (e : exn),
  fst (process_query' c query) = Raise e
  <-> match client_type c with
      | Anthropic =>
        anthropic_create 0 (first_anthropic_request payload c query) = Raise e
      | Qwen =>
        generation_call 0 (first_qwen_request payload c query) = Raise e
      end.
Proof.
  intros c query e. unfold process_query.
  destruct (client_type c).
  - rewrite first_call_anthropic.
    destruct (anthropic_create 0 _) as [blocks|e']; simpl;
      split; congruence.
  - rewrite first_call_qwen.
    destruct (generation_call 0 _) as [response|e']; simpl;
      split; congruence.
Qed.

(** X9.  When the second vendor answers the first call with a status other
    than 200, [process_query] returns the error text with the vendor's
    message, whatever the content says: the one model call of the query
    is the first, and no tool is dispatched. *)
Theorem qwen_error_status :
  forall (c : client) (query : str) (r : qwen_response),
  client_type c = Qwen ->
  generation_call 0 (first_qwen_request payload c query) = Ret r ->
  status_code r <> 200%Z ->
  fst (process_query' c query) = Ret (lit "错误: " ++ response_message r)
  /\ events (snd (process_query' c query))
     = [QwenCall (first_qwen_request payload c query)]
  /\ messages (snd (process_query' c query))
     = [{| role := lit "user"; content := Text payload query |}].
Proof.
  intros c query r Hc Hr Hs.
  rewrite process_query_qwen with (r := r) by assumption. simpl.
  unfold qwen_turn. apply Z.eqb_neq in Hs. rewrite Hs.
  split; [|split]; reflexivity.
Qed.

Lemma user_is_no_tool : Str.eqb (lit "user") (lit "tool") = false.
Proof. reflexivity. Qed.

Lemma assistant_is_no_tool : Str.eqb (lit "assistant") (lit "tool") = false.
Proof. reflexivity. Qed.

Lemma user_is_user : Str.eqb (lit "user") (lit "user") = true.
Proof. reflexivity. Qed.

(** The model call of line 338 sends the follow-up request. *)
Lemma follow_up_call_qwen c n query message_content result :
  _call_model_qwen str_of_payload generation_call c n
                   (qwen_transcript str_of_payload query message_content result)
                   (get_all_tools c)
  = (generation_call n (follow_up_qwen_request str_of_payload c query
                                               message_content result),
     [QwenCall (follow_up_qwen_request str_of_payload c query
                                       message_content result)]).
Proof.
  unfold _call_model_qwen, qwen_payload, qwen_messages_of, qwen_transcript,
    follow_up_qwen_request, first_qwen_request, to_qwen.
  cbn [map role content qreq_messages skipn app].
  rewrite user_is_no_tool, assistant_is_no_tool.
  destruct (get_all_tools c) as [|x l]; [reflexivity|].
  unfold add_tools_info. cbn [role content]. rewrite user_is_user. reflexivity.
Qed.

(** X10.  A tool call that the text of the second vendor asks for and that
    returns.  The query makes, in this order, the first model call, the
    dispatch, the call through the session of the server that the routing
    table names, and one more model call, whose request holds the message
    of the first request, the answer that asked for the tool and the
    result, marked, as a user message.  It returns the line that reports
    the call, followed by the content of the second answer when that has
    status 200 and by nothing otherwise; when the second model call
    raises, the report of the call is followed by the annotation with the
    error and by the first answer. *)
Theorem qwen_tool_round_trip :
  forall (c : client) (query : str) (r : qwen_response) (line tool_name : str)
         (tool_args : json) (server_name : str) (connection : ServerConnection)
         (result : CallToolResult payload),
  client_type c = Qwen ->
  generation_call 0 (first_qwen_request payload c query) = Ret r ->
  status_code r = 200%Z ->
  find is_sentinel_line (split_char 10 (output_content r)) = Some line ->
  parse_tool_call' line = Ret (tool_name, tool_args) ->
  Dict.get tool_name (tool_server_map c) = Some server_name ->
  server_name <> [] ->
  Dict.get server_name (servers c) = Some connection ->
  session_call_tool 0 (session connection) tool_name tool_args = Ret result ->
  let follow_up :=
    follow_up_qwen_request str_of_payload c query (output_content r) result in
  let t := snd (process_query' c query) in
  events t
  = [ QwenCall (first_qwen_request payload c query);
      Dispatch payload tool_name tool_args;
      TransportCall payload (session connection) tool_name tool_args;
      QwenCall follow_up ]
  /\ messages t = qwen_transcript str_of_payload query (output_content r) result
  /\ tool_results t
     = [{| tr_call := tool_name; tr_result := result; tr_server := server_name |}]
  /\ fst (process_query' c query)
     = Ret (join nl
              (calling str_of_args server_name tool_name tool_args
                 :: match generation_call 1 follow_up with
                    | Ret r2 =>
                      if (status_code r2 =? 200)%Z then [output_content r2]
                      else []
                    | Raise e => [parse_failed e; output_content r]
                    end)).
Proof.
  intros c query r line tool_name tool_args server_name connection result
         Hc Hr Hs Hf Hp Hm Hne Hg Hcall follow_up t.
  unfold t. rewrite process_query_qwen with (r := r) by assumption.
  cbn [fst snd]. unfold qwen_turn. rewrite Hs, Hf. cbn [Z.eqb Pos.eqb].
  unfold use_tool_qwen. rewrite Hp.
  cbn [events record start app transport_calls filter List.length
       is_transport_call].
  rewrite (call_tool_routes session_call_tool c 0 tool_name tool_args Hm Hne Hg).
  rewrite Hcall.
  unfold server_name_of. rewrite Hm.
  cbn [messages add_message say add_result record start app events
       model_calls filter is_model_call List.length].
  change ([{| role := lit "user"; content := Text payload query |};
           {| role := lit "assistant";
              content := Text payload (output_content r) |};
           {| role := lit "user";
              content := Text payload
                           (multi_marker
                              ++ str_of_payload (result_content result)) |}])
    with (qwen_transcript str_of_payload query (output_content r) result).
  rewrite follow_up_call_qwen. fold follow_up.
  destruct (generation_call 1 follow_up) as [r2|e];
    [destruct (status_code r2 =? 200)%Z|]; repeat split; reflexivity.
Qed.

(** X11.  A [tool_use] block of the first vendor's answer whose call returns,
    with no other [tool_use] block around it.  The query makes, in this
    order, the first model call, the dispatch, the call through the
    session of the server that the routing table names, and one more
    model call, whose request holds the question, the text of the block
    when it has one that is not empty, and the payload of the result as a
    user message.  It returns the texts of the blocks before, the line
    that reports the call, the text of the first block of the second
    answer, and the texts of the blocks behind; when the second model call
    raises or its answer has no first block with a text, the annotation of
    a failed tool call stands in the place of that text. *)
Theorem anthropic_tool_round_trip :
  forall (c : client) (query : str) (before after : list block)
         (tool_name : str) (tool_args : json) (text : option str)
         (server_name : str) (connection : ServerConnection)
         (result : CallToolResult payload),
  client_type c = Anthropic ->
  anthropic_create 0 (first_anthropic_request payload c query)
  = Ret (before ++ ToolUseBlock tool_name tool_args text :: after) ->
  forallb (fun b => negb (is_tool_use b)) before = true ->
  forallb (fun b => negb (is_tool_use b)) after = true ->
  Dict.get tool_name (tool_server_map c) = Some server_name ->
  server_name <> [] ->
  Dict.get server_name (servers c) = Some connection ->
  session_call_tool 0 (session connection) tool_name tool_args = Ret result ->
  let follow_up := follow_up_anthropic_request c query text result in
  let t := snd (process_query' c query) in
  events t
  = [ AnthropicCall (first_anthropic_request payload c query);
      Dispatch payload tool_name tool_args;
      TransportCall payload (session connection) tool_name tool_args;
      AnthropicCall follow_up ]
  /\ messages t = anthropic_transcript query text result
  /\ tool_results t
     = [{| tr_call := tool_name; tr_result := result; tr_server := server_name |}]
  /\ fst (process_query' c query)
     = Ret (join nl
              (texts_of before
                 ++ calling str_of_args server_name tool_name tool_args
                 :: match anthropic_create 1 follow_up with
                    | Ret answer =>
                      match first_text answer with
                      | Ret s => s
                      | Raise e => tool_call_failed e
                      end
                    | Raise e => tool_call_failed e
                    end
                 :: texts_of after)).
Proof.
  intros c query before after tool_name tool_args text server_name connection
         result Hc Hr Hb Ha Hm Hne Hg Hcall follow_up t.
  unfold t.
  rewrite process_query_anthropic
    with (blocks := before ++ ToolUseBlock tool_name tool_args text :: after)
    by assumption.
  cbn [fst snd]. unfold anthropic_turn.
  rewrite fold_left_app. cbn [fold_left].
  rewrite (fold_no_tool_use str_of_args anthropic_create session_call_tool
             c (get_all_tools c) before _ Hb).
  rewrite (fold_no_tool_use str_of_args anthropic_create session_call_tool
             c (get_all_tools c) after _ Ha).
  cbn [process_block]. unfold use_tool_anthropic.
  cbn [events record start app transport_calls filter List.length
       is_transport_call messages final_text tool_results].
  rewrite (call_tool_routes session_call_tool c 0 tool_name tool_args Hm Hne Hg).
  rewrite Hcall.
  unfold server_name_of. rewrite Hm.
  unfold follow_up, follow_up_anthropic_request, anthropic_transcript,
    _call_model_anthropic.
  destruct text as [[|x s]|];
    cbn [messages add_message say add_result record start app events
         model_calls filter is_model_call List.length final_text tool_results];
    (destruct (anthropic_create 1 _) as [answer|e];
     [destruct (first_text answer)|]);
    cbn [messages add_message say add_result record start app events
         final_text tool_results];
    (split; [reflexivity|]); (split; [reflexivity|]); (split; [reflexivity|]);
    rewrite <- ?app_assoc; reflexivity.
Qed.

End CallFacts.

(* ================================================================== *)
(** * Facts about the sentinel line                                    *)
(* ================================================================== *)

Lemma lstrip_head (s : str) :
  lstrip s = [] \/ exists a r, lstrip s = a :: r /\ isspace a = false.
Proof.
  induction s as [|c r IH]; simpl; [now left|].
  destruct (isspace c) eqn:E; [exact IH|]. right. now exists c, r.
Qed.

Lemma lstrip_keeps (a : N) (r : str) : isspace a = false -> lstrip (a :: r) = a :: r.
Proof. simpl. now intros ->. Qed.

Lemma rstrip_keeps (r : str) (z : N) :
  isspace z = false -> rstrip (r ++ [z]) = r ++ [z].
Proof.
  intro H. unfold rstrip. rewrite rev_app_distr. simpl. rewrite H.
  simpl. now rewrite rev_involutive.
Qed.

Lemma rstrip_prefix (s : str) : exists b, s = rstrip s ++ b.
Proof.
  unfold rstrip. destruct (lstrip_suffix (rev s)) as [a Ha].
  exists (rev a). rewrite <- rev_app_distr, <- Ha. now rewrite rev_involutive.
Qed.

Lemma rstrip_last (s : str) :
  rstrip s = [] \/ exists r z, rstrip s = r ++ [z] /\ isspace z = false.
Proof.
  unfold rstrip. destruct (lstrip_head (rev s)) as [->|(a & r & -> & Ha)].
  - now left.
  - right. exists (rev r), a. simpl. auto.
Qed.

(** A text that [strip] leaves as it is begins and ends with a character
    that is no white space. *)
Lemma strip_fixed_ends (s : str) :
  strip s = s -> s <> [] ->
  (exists a r, s = a :: r /\ isspace a = false)
  /\ (exists r z, s = r ++ [z] /\ isspace z = false).
Proof.
  intros E Hne. split.
  - unfold strip in E.
    destruct (lstrip_head s) as [H|(a & r & H & Ha)]; rewrite H in E.
    + now subst s.
    + destruct (rstrip_prefix (a :: r)) as [b Hb]. rewrite E in Hb.
      destruct s as [|x s]; [contradiction|].
      injection Hb as -> _. now exists x, s.
  - unfold strip in E.
    destruct (rstrip_last (lstrip s)) as [H|(r & z & H & Hz)]; rewrite H in E.
    + now subst s.
    + now exists r, z.
Qed.

Lemma strip_keeps (a z : N) (r r' : str) :
  isspace a = false -> isspace z = false ->
  a :: r = r' ++ [z] -> strip (a :: r) = a :: r.
Proof.
  intros Ha Hz E. unfold strip. rewrite lstrip_keeps by assumption. rewrite E.
  now apply rstrip_keeps.
Qed.

Lemma lstrip_blank (s : str) : lstrip (lit " " ++ s) = lstrip s.
Proof. reflexivity. Qed.

Lemma skipn_length_app {A} (l r : list A) : skipn (List.length l) (l ++ r) = r.
Proof. induction l; simpl; auto. Qed.

(** Splitting at the first blank of a text whose first word has none. *)
Lemma find_split_blank (word rest : str) :
  forallb (fun c => negb (isspace c)) word = true ->
  find_split (lit " ") (word ++ lit " " ++ rest) = Some (word, rest).
Proof.
  induction word as [|c w IH]; intro H; [reflexivity|].
  simpl in H. apply andb_prop in H as [Hc Hw].
  change (find_split (lit " ") ((c :: w) ++ lit " " ++ rest))
    with (if (32 =? c)%N && true
          then Some ([], skipn 1 (c :: w ++ lit " " ++ rest))
          else match find_split (lit " ") (w ++ lit " " ++ rest) with
               | Some (a, b) => Some (c :: a, b)
               | None => None
               end).
  destruct (N.eqb_spec 32 c) as [<-|_]; [discriminate Hc|].
  cbn [andb]. now rewrite (IH Hw).
Qed.

Lemma find_split_no_blank (word : str) :
  forallb (fun c => negb (isspace c)) word = true ->
  find_split (lit " ") word = None.
Proof.
  induction word as [|c w IH]; intro H; [reflexivity|].
  simpl in H. apply andb_prop in H as [Hc Hw].
  change (find_split (lit " ") (c :: w))
    with (if (32 =? c)%N && true
          then Some ([], skipn 1 (c :: w))
          else match find_split (lit " ") w with
               | Some (a, b) => Some (c :: a, b)
               | None => None
               end).
  destruct (N.eqb_spec 32 c) as [<-|_]; [discriminate Hc|].
  cbn [andb]. now rewrite (IH Hw).
Qed.

Lemma word_ends (word : str) :
  word <> [] ->
  forallb (fun c => negb (isspace c)) word = true ->
  (exists a r, word = a :: r /\ isspace a = false)
  /\ (exists r z, word = r ++ [z] /\ isspace z = false).
Proof.
  intros Hne H. split.
  - destruct word as [|a r]; [contradiction|]. simpl in H.
    apply andb_prop in H as [Ha _]. apply negb_true_iff in Ha. now exists a, r.
  - destruct (exists_last Hne) as (r & z & ->).
    rewrite forallb_app in H. apply andb_prop in H as [_ Hz]. simpl in Hz.
    rewrite andb_true_r in Hz. apply negb_true_iff in Hz. now exists r, z.
Qed.

Section SentinelFacts.

Variable json_loads : str -> res json.

(** X12.  A line in the form that the description of the tools asks for,
    [TOOL_CALL: name arguments], is a sentinel line and is taken apart
    into the name and what [json.loads] makes of the argument text; the
    line [TOOL_CALL: name] gives the name with an empty argument object.
    The name has no white space, and the argument text none at its
    ends. *)
Theorem parse_tool_call_format :
  forall (tool_name args_text : str),
  tool_name <> [] ->
  forallb (fun c => negb (isspace c)) tool_name = true ->
  args_text <> [] ->
  strip args_text = args_text ->
  is_sentinel_line (tool_call_line tool_name (Some args_text)) = true
  /\ is_sentinel_line (tool_call_line tool_name None) = true
  /\ parse_tool_call json_loads (tool_call_line tool_name (Some args_text))
     = match json_loads args_text with
       | Ret tool_args => Ret (tool_name, tool_args)
       | Raise e => Raise e
       end
  /\ parse_tool_call json_loads (tool_call_line tool_name None)
     = Ret (tool_name, empty_args).
Proof.
  intros tool_name args_text Hne Hw Hane Hs.
  destruct (word_ends Hne Hw) as [(a & r & Ew & Ha) (r' & z & Ew' & Hz)].
  destruct (strip_fixed_ends Hs Hane) as [(b & q & Eb & Hb) (q' & y & Eb' & Hy)].
  assert (Sname : strip tool_name = tool_name).
  { rewrite Ew. apply strip_keeps with (z := z) (r' := r'); auto. congruence. }
  (* the two lines are left as they are by [strip] *)
  assert (L1 : strip (tool_call_line tool_name (Some args_text))
               = tool_call_line tool_name (Some args_text)).
  { unfold tool_call_line.
    change sentinel with (84%N :: skipn 1 sentinel).
    cbn [app].
    apply strip_keeps
      with (z := y)
           (r' := 84%N :: skipn 1 sentinel ++ lit " " ++ tool_name ++ lit " " ++ q');
      auto.
    rewrite Eb' at 1. cbn [app]. now rewrite <- !app_assoc. }
  assert (L2 : strip (tool_call_line tool_name None)
               = tool_call_line tool_name None).
  { unfold tool_call_line. rewrite app_nil_r.
    change sentinel with (84%N :: skipn 1 sentinel).
    cbn [app].
    apply strip_keeps
      with (z := z) (r' := 84%N :: skipn 1 sentinel ++ lit " " ++ r'); auto.
    rewrite Ew' at 1. cbn [app]. now rewrite <- !app_assoc. }
  assert (R1 : strip (lit " " ++ tool_name ++ lit " " ++ args_text)
               = tool_name ++ lit " " ++ args_text).
  { unfold strip. rewrite lstrip_blank.
    rewrite Ew at 1. cbn [app]. rewrite lstrip_keeps by assumption.
    rewrite Eb' at 1.
    change (a :: r ++ lit " " ++ q' ++ [y])
      with ((a :: r) ++ lit " " ++ q' ++ [y]).
    rewrite !app_assoc. rewrite rstrip_keeps by assumption.
    rewrite <- !app_assoc. now rewrite <- Ew, <- Eb'. }
  assert (R2 : strip (lit " " ++ tool_name) = tool_name).
  { unfold strip. rewrite lstrip_blank. exact Sname. }
  unfold is_sentinel_line. rewrite L1, L2.
  split; [apply startswith_app|]. split; [apply startswith_app|].
  unfold parse_tool_call, split1. rewrite L1, L2.
  unfold tool_call_line. rewrite app_nil_r.
  rewrite !find_split_startswith by apply startswith_app.
  rewrite !skipn_length_app. cbn [nth_error].
  rewrite R1, R2. rewrite (find_split_blank _ _ Hw), (find_split_no_blank _ Hw).
  rewrite Sname, Hs. split; reflexivity.
Qed.

End SentinelFacts.

Lemma qwen_query_is_bounded_witness :
  List.length (dispatches (events (snd (SampleTalk.ask (Sample.calculator_client Qwen)
                                                       SampleTalk.example)))) <= 1
  /\ List.length (transport_calls
                    (events (snd (SampleTalk.ask (Sample.calculator_client Qwen)
                                                 SampleTalk.example)))) <= 1
  /\ List.length (model_calls
                    (events (snd (SampleTalk.ask (Sample.calculator_client Qwen)
                                                 SampleTalk.example)))) <= 2.
Proof.
  apply (@qwen_query_is_bounded str SampleTalk.show_payload SampleTalk.show_args
           Json.loads (SampleTalk.answers []) (SampleTalk.says SampleTalk.example)
           SampleCalls.echo (Sample.calculator_client Qwen) (lit "1+2?")).
  reflexivity.
Defined.

Lemma anthropic_dispatches_first_answer_witness :
  dispatches (events (snd (SampleTalk.ask_anthropic
                             (Sample.calculator_client Anthropic)
                             SampleAnswers.with_tool_use)))
  = [Dispatch str (lit "add") empty_args].
Proof.
  apply (@anthropic_dispatches_first_answer str SampleTalk.show_payload
           SampleTalk.show_args Json.loads
           (SampleTalk.answers SampleAnswers.with_tool_use) (SampleTalk.says [])
           SampleCalls.echo
           (Sample.calculator_client Anthropic) (lit "1+2?")
           SampleAnswers.with_tool_use);
    reflexivity.
Defined.

Lemma qwen_error_status_witness :
  fst (process_query SampleTalk.show_payload SampleTalk.show_args Json.loads
         (SampleTalk.answers []) SampleAnswers.refuses SampleCalls.echo
         (Sample.calculator_client Qwen) (lit "1+2?"))
  = Ret (lit "错误: " ++ lit "InvalidApiKey").
Proof.
  refine (proj1 (@qwen_error_status str SampleTalk.show_payload SampleTalk.show_args
                   Json.loads (SampleTalk.answers []) SampleAnswers.refuses
                   SampleCalls.echo (Sample.calculator_client Qwen) (lit "1+2?")
                   {| status_code := 401; response_message := lit "InvalidApiKey";
                      output_content := [] |} _ _ _)).
  - reflexivity.
  - reflexivity.
  - discriminate.
Defined.

Lemma qwen_tool_round_trip_witness :
  fst (SampleTalk.ask (Sample.calculator_client Qwen) SampleTalk.example)
  = Ret (join nl [calling SampleTalk.show_args (lit "calculator") (lit "add")
                          (JObj [(lit "a", JInt 1); (lit "b", JInt 2)]);
                  lit "3"]).
Proof.
  refine (proj2 (proj2 (proj2
    (@qwen_tool_round_trip str SampleTalk.show_payload SampleTalk.show_args
       Json.loads (SampleTalk.answers []) (SampleTalk.says SampleTalk.example)
       SampleCalls.echo (Sample.calculator_client Qwen) (lit "1+2?")
       {| status_code := 200; response_message := lit "OK";
          output_content := SampleTalk.example |}
       SampleTalk.sentinel_line (lit "add")
       (JObj [(lit "a", JInt 1); (lit "b", JInt 2)])
       (lit "calculator")
       (connection_of (Sample.server "calculator" "calculator.py") 0
                      [Sample.announces "add"])
       SampleAnswers.added _ _ _ _ _ _ _ _ _)))).
  - reflexivity.
  - reflexivity.
  - reflexivity.
  - reflexivity.
  - reflexivity.
  - reflexivity.
  - discriminate.
  - reflexivity.
  - reflexivity.
Defined.

Lemma anthropic_tool_round_trip_witness :
  fst (SampleTalk.ask_anthropic (Sample.calculator_client Anthropic)
                                SampleAnswers.with_tool_use)
  = Ret (join nl [lit "I will add.";
                  calling SampleTalk.show_args (lit "calculator") (lit "add")
                          empty_args;
                  lit "3"; lit "Done."]).
Proof.
  refine (proj2 (proj2 (proj2
    (@anthropic_tool_round_trip str SampleTalk.show_payload
       SampleTalk.show_args Json.loads
       (SampleTalk.answers SampleAnswers.with_tool_use) (SampleTalk.says [])
       SampleCalls.echo
       (Sample.calculator_client Anthropic) (lit "1+2?")
       [TextBlock (lit "I will add.")] [TextBlock (lit "Done.")]
       (lit "add") empty_args None (lit "calculator")
       (connection_of (Sample.server "calculator" "calculator.py") 0
                      [Sample.announces "add"])
       SampleAnswers.added _ _ _ _ _ _ _ _)))).
  - reflexivity.
  - reflexivity.
  - reflexivity.
  - reflexivity.
  - reflexivity.
  - discriminate.
  - reflexivity.
  - reflexivity.
Defined.

Lemma parse_tool_call_format_witness :
  parse_tool_call Json.loads (tool_call_line (lit "add") (Some (lit "{}")))
  = match Json.loads (lit "{}") with
    | Ret tool_args => Ret (lit "add", tool_args)
    | Raise e => Raise e
    end.
Proof.
  refine (proj1 (proj2 (proj2
    (@parse_tool_call_format Json.loads (lit "add") (lit "{}") _ _ _ _)))).
  - discriminate.
  - reflexivity.
  - discriminate.
  - reflexivity.
Defined.

(* ================================================================== *)
(** * Facts about the exit stack                                       *)
(* ================================================================== *)

Section ExitStackFacts.

Variable w : world.

(** One step of a task that still runs: what it enters. *)
Lemma step_task_enters t c :
  on_course w t ->
  on_course w (fst (step_task w t c))
  /\ exists new,
       exit_stack (snd (step_task w t c)) = new ++ exit_stack c
       /\ held w (fst (step_task w t c)) = new ++ held w t
       /\ (new = [] \/ new = [StdioTransport (t_handle t)]
           \/ (new = [Session (t_handle t)]
               /\ In (StdioTransport (t_handle t)) (held w t))).
Proof.
  unfold on_course, held, step_task, fail, with_state, entered.
  destruct t as [cfg h a [[|p| | | ]|[e|]]]; simpl.
  - intros _. destruct (validate w cfg) as [p|e] eqn:V; simpl; rewrite ?V;
      (split; [auto|]); exists []; auto.
  - intros V.
    destruct (spawn a p) as [e|] eqn:S; simpl; rewrite ?V, ?S.
    + split; [auto|]. exists []. auto.
    + split; [eauto|]. exists [StdioTransport h]. auto.
  - intros (p & V & S).
    destruct (open_session a) as [e|] eqn:O; simpl; rewrite ?V, ?S, ?O.
    + split; [auto|]. exists []. auto.
    + split; [auto|]. exists [Session h]. simpl. tauto.
  - intros E. destruct (initialize a) as [e|] eqn:I; simpl; rewrite ?E;
      (split; [auto|]); exists []; auto.
  - intros E. destruct (list_tools a) as [announced|e] eqn:L; simpl; rewrite ?E;
      (split; [auto|]); exists []; auto.
  - intros _. split; [auto|]. exists []. auto.
  - intros E. split; [auto|]. exists []. auto.
Qed.

(** The invariant of the exit stack: the tasks are on course, the stack
    holds what the tasks have entered and what was there before, and
    every session lies above its transport. *)
Lemma step_at_exit_stack stack0 i ts c :
  Forall (on_course w) ts ->
  Permutation (exit_stack c) (flat_map (held w) ts ++ stack0) ->
  Forall (on_course w) (fst (step_at w i ts c))
  /\ Permutation (exit_stack (snd (step_at w i ts c)))
                 (flat_map (held w) (fst (step_at w i ts c)) ++ stack0)
  /\ (sessions_above_transports (exit_stack c) ->
      sessions_above_transports (exit_stack (snd (step_at w i ts c)))).
Proof.
  intros Hc Hp.
  destruct (step_at_cases w i ts c) as [E | (before & t & after & Ets & Hrun & E)];
    rewrite E; simpl; [auto|].
  subst ts. apply Forall_app in Hc as [Hb Hta].
  inversion Hta as [|? ? Ht Ha]; subst.
  destruct (step_task_enters t c Ht) as (Ht' & new & Es & Eh & Hnew).
  split; [|split].
  - apply Forall_app. split; [assumption|]. now constructor.
  - rewrite Es. rewrite !flat_map_app in *. simpl in *. rewrite Eh.
    rewrite <- !app_assoc in *.
    transitivity (new ++ flat_map (held w) before ++ held w t
                      ++ flat_map (held w) after ++ stack0).
    + now apply Permutation_app_head.
    + apply Permutation_app_swap_app.
  - rewrite Es. intros Ho h above below E0.
    destruct Hnew as [->|[->|[-> Hin]]]; simpl in E0.
    + eapply Ho; eauto.
    + destruct above as [|x above]; simpl in E0; [discriminate|].
      injection E0 as _ E0. eapply Ho; eauto.
    + destruct above as [|x above]; simpl in E0.
      * injection E0 as <- <-.
        apply (Permutation_in _ (Permutation_sym Hp)).
        apply in_or_app. left. rewrite flat_map_app. apply in_or_app. right.
        simpl. apply in_or_app. now left.
      * injection E0 as _ E0. eapply Ho; eauto.
Qed.

Lemma steps_exit_stack stack0 x y :
  steps w x y ->
  Forall (on_course w) (fst x) ->
  Permutation (exit_stack (snd x)) (flat_map (held w) (fst x) ++ stack0) ->
  Forall (on_course w) (fst y)
  /\ Permutation (exit_stack (snd y)) (flat_map (held w) (fst y) ++ stack0)
  /\ (sessions_above_transports (exit_stack (snd x)) ->
      sessions_above_transports (exit_stack (snd y))).
Proof.
  induction 1 as [x | i ts c y H IH]; intros Hc Hp; [auto|].
  destruct (@step_at_exit_stack stack0 i ts c Hc Hp) as (Hc' & Hp' & Ho').
  destruct (IH Hc' Hp') as (Hc2 & Hp2 & Ho2). auto.
Qed.

Lemma spawn_tasks_hold_nothing first_handle i cfgs :
  Forall (on_course w) (spawn_tasks w first_handle i cfgs)
  /\ flat_map (held w) (spawn_tasks w first_handle i cfgs) = [].
Proof.
  revert i; induction cfgs as [|cfg r IH]; intro i; simpl; [auto|].
  destruct (IH (S i)) as [Hc Hh]. split; [constructor; [exact I | exact Hc]|].
  exact Hh.
Qed.

(** A task at its end holds what its attempt enters. *)
Lemma finished_held t :
  finished t = true -> on_course w t ->
  held w t = entered w (t_config t) (t_attempt t) (t_handle t).
Proof.
  unfold finished, on_course, held.
  destruct (t_state t) as [|[e|]]; [discriminate | reflexivity | now intros _ ->].
Qed.

Lemma finished_tasks_held first_handle i cfgs ts' :
  Forall2 (same_task w) (spawn_tasks w first_handle i cfgs) ts' ->
  Forall (fun t => finished t = true) ts' ->
  Forall (on_course w) ts' ->
  flat_map (held w) ts' = entered_by w first_handle i cfgs.
Proof.
  revert i ts'; induction cfgs as [|cfg r IH]; intros i ts' H2 Hf Hc;
    simpl in H2.
  - now inversion H2.
  - inversion H2 as [|t0 t' r0 r' (Ec & Eh & Ea & _) Hr]; subst.
    inversion Hf as [|? ? Hfin Hfr]; subst.
    inversion Hc as [|? ? Hon Hcr]; subst.
    simpl in *. rewrite (finished_held t' Hfin Hon), Ec, Eh, Ea.
    f_equal. now apply IH.
Qed.

Lemma connect_to_servers_exit_stack schedule c :
  Permutation (exit_stack (connect_to_servers w schedule c))
              (entered_by w (next_handle c) 0 (filter enabled (server_configs c))
                 ++ exit_stack c)
  /\ (sessions_above_transports (exit_stack c) ->
      sessions_above_transports (exit_stack (connect_to_servers w schedule c))).
Proof.
  unfold connect_to_servers.
  destruct (filter enabled (server_configs c)) as [|cfg0 rest] eqn:En;
    [simpl; auto|].
  set (ts0 := spawn_tasks w (next_handle c) 0 (cfg0 :: rest)).
  set (c1 := with_next_handle c (next_handle c + List.length ts0)).
  pose proof (gather_steps w schedule ts0 c1) as Hsteps.
  pose proof (gather_finished w schedule ts0 c1) as Hfin.
  destruct (gather w schedule ts0 c1) as [ts' c2]. simpl in Hfin.
  pose proof (steps_same Hsteps) as Hsame. simpl in Hsame.
  destruct (spawn_tasks_hold_nothing (next_handle c) 0 (cfg0 :: rest))
    as [Hc0 Hh0]. fold ts0 in Hc0, Hh0.
  assert (Hp0 : Permutation (exit_stack c1)
                            (flat_map (held w) ts0 ++ exit_stack c))
    by (rewrite Hh0; reflexivity).
  rewrite report_exit_stack.
  destruct (@steps_exit_stack (exit_stack c) _ _ Hsteps Hc0 Hp0)
    as (Hc' & Hp' & Ho'); cbn [fst snd] in *.
  split; [|exact Ho'].
  now rewrite <- (@finished_tasks_held (next_handle c) 0 (cfg0 :: rest) ts'
                    Hsame Hfin Hc').
Qed.

Lemma entered_handles server_config a h r :
  In r (entered w server_config a h) -> handle_of r = h.
Proof.
  unfold entered. destruct (validate w server_config); [|intros []].
  destruct (spawn a _); [intros []|].
  destruct (open_session a); simpl; intuition (subst; reflexivity).
Qed.

Lemma entered_NoDup server_config a h : NoDup (entered w server_config a h).
Proof.
  unfold entered. destruct (validate w server_config); [|constructor].
  destruct (spawn a _); [constructor|].
  destruct (open_session a); repeat constructor; simpl; intuition discriminate.
Qed.

Lemma entered_by_handles first_handle i cfgs r :
  In r (entered_by w first_handle i cfgs) ->
  first_handle + i <= handle_of r < first_handle + i + List.length cfgs.
Proof.
  revert i; induction cfgs as [|cfg rest IH]; intro i; simpl; [intros []|].
  intro H. apply in_app_or in H as [H|H].
  - apply entered_handles in H. lia.
  - apply IH in H. lia.
Qed.

Lemma entered_by_NoDup first_handle i cfgs :
  NoDup (entered_by w first_handle i cfgs).
Proof.
  revert i; induction cfgs as [|cfg rest IH]; intro i; simpl; [constructor|].
  apply NoDup_app.
  - apply entered_NoDup.
  - apply IH.
  - intros r H1 H2. apply entered_handles in H1. apply entered_by_handles in H2.
    lia.
Qed.

Lemma report_next_handle ts c : next_handle (report ts c) = next_handle c.
Proof.
  unfold report. revert c; induction ts as [|t r IH]; intro c; simpl; auto.
  rewrite IH. unfold report_line. destruct (t_state t) as [|[e|]]; reflexivity.
Qed.

Lemma spawn_tasks_length first_handle i cfgs :
  List.length (spawn_tasks w first_handle i cfgs) = List.length cfgs.
Proof. revert i; induction cfgs; intro i; simpl; auto. Qed.

Lemma connect_to_servers_next_handle schedule c :
  next_handle (connect_to_servers w schedule c)
  = next_handle c + List.length (filter enabled (server_configs c)).
Proof.
  unfold connect_to_servers.
  destruct (filter enabled (server_configs c)) as [|cfg0 rest] eqn:En;
    [simpl; lia|].
  set (ts0 := spawn_tasks w (next_handle c) 0 (cfg0 :: rest)).
  set (c1 := with_next_handle c (next_handle c + List.length ts0)).
  pose proof (gather_steps w schedule ts0 c1) as Hsteps.
  destruct (gather w schedule ts0 c1) as [ts' c2].
  destruct (steps_frame Hsteps) as (_ & _ & _ & Hn & _). cbn [fst snd] in Hn.
  rewrite report_next_handle, Hn. unfold c1, ts0. cbn [next_handle with_next_handle].
  now rewrite spawn_tasks_length.
Qed.

Lemma exit_stack_entered schedule c :
  Permutation (exit_stack (connect_to_servers w schedule c))
              (entered_by w (next_handle c) 0 (filter enabled (server_configs c))
                 ++ exit_stack c).
Proof. apply connect_to_servers_exit_stack. Qed.

Lemma entered_by_nth first_handle i cfgs j server_config r :
  nth_error cfgs j = Some server_config ->
  In r (entered w server_config (attempt_of w (i + j)) (first_handle + (i + j))) ->
  In r (entered_by w first_handle i cfgs).
Proof.
  revert i j; induction cfgs as [|cfg rest IH]; intros i j Hj Hr.
  - now destruct j.
  - simpl. apply in_or_app. destruct j as [|j]; simpl in Hj.
    + injection Hj as ->. left. now rewrite Nat.add_0_r in Hr.
    + right. apply (IH (S i) j Hj). now rewrite Nat.add_succ_comm.
Qed.

Lemma connect_to_servers_tidy schedule c :
  tidy c -> tidy (connect_to_servers w schedule c).
Proof.
  intros (Hnd & Ho & Hh).
  destruct (connect_to_servers_exit_stack schedule c) as [Hp Ho'].
  split; [|split].
  - apply (Permutation_NoDup (Permutation_sym Hp)). apply NoDup_app.
    + apply entered_by_NoDup.
    + exact Hnd.
    + intros r H1 H2. apply entered_by_handles in H1.
      rewrite Forall_forall in Hh. apply Hh in H2. lia.
  - auto.
  - rewrite Forall_forall in *. intros r Hr.
    apply (Permutation_in _ Hp) in Hr. rewrite connect_to_servers_next_handle.
    apply in_app_or in Hr as [Hr|Hr].
    + apply entered_by_handles in Hr. lia.
    + apply Hh in Hr. lia.
Qed.

End ExitStackFacts.

(** X13.  [connect_to_servers], from any client and whatever the interleaving
    of the attempts, adds to the exit stack what the attempts for the
    enabled servers have entered and nothing else: for each of them the
    transport when its process was started and the session when that was
    opened, also when the attempt failed afterwards.  What was on the
    stack before stays there. *)
Theorem exit_stack_after_connect :
  forall (w : world) (schedule : list nat) (c : client),
  Permutation (exit_stack (connect_to_servers w schedule c))
              (entered_by w (next_handle c) 0 (filter enabled (server_configs c))
                 ++ exit_stack c).
Proof. intros w schedule c. apply exit_stack_entered. Qed.

Lemma run_tidy (ops : list op) (c : client) : tidy c -> tidy (run ops c).
Proof.
  unfold run. revert c; induction ops as [|o ops IH]; intros c H; simpl; auto.
  apply IH. destruct o as [w schedule| |leave]; simpl.
  - now apply connect_to_servers_tidy.
  - exact H.
  - unfold cleanup, aclose.
    destruct (unwind leave (exit_stack c) None); simpl;
      (split; [constructor | split; [|constructor]]);
      intros h [|x above] below E; discriminate E.
Qed.

(** X14.  In every state that a new client reaches by [connect_to_servers],
    [call_tool] and [cleanup], in any number and order, every context
    manager is on the exit stack at most once and every session lies above
    the transport it runs on: [aclose] leaves each of them once, a session
    before its transport. *)
Theorem exit_stack_is_tidy :
  forall (ops : list op) (cfgs : list ServerConfig) (m : model_settings)
         (p : provider),
  NoDup (exit_stack (run ops (new_client cfgs m p)))
  /\ sessions_above_transports (exit_stack (run ops (new_client cfgs m p))).
Proof.
  intros ops cfgs m p.
  destruct (@run_tidy ops (new_client cfgs m p)) as (H1 & H2 & _); auto.
  split; [constructor | split; [|constructor]].
  intros h [|x above] below E; discriminate E.
Qed.

(** X15.  A server whose attempt fails after its session was opened, in
    [initialize] or in [list_tools], is not stored as a connection, yet
    its session and its transport stay on the exit stack: they are left
    only by [cleanup].  The client is new and the enabled servers have
    different names. *)
Theorem failed_handshake_stays_open :
  forall (w : world) (schedule : list nat) (cfgs : list ServerConfig)
         (m : model_settings) (p : provider) (i : nat)
         (server_config : ServerConfig) (params : StdioServerParameters)
         (e : exn) (leave : resource -> exit_outcome),
  NoDup (map name (filter enabled cfgs)) ->
  nth_error (filter enabled cfgs) i = Some server_config ->
  validate w server_config = Ret params ->
  spawn (attempt_of w i) params = None ->
  open_session (attempt_of w i) = None ->
  outcome w server_config (attempt_of w i) = Raise e ->
  let c' := connect_to_servers w schedule (new_client cfgs m p) in
  Dict.get (name server_config) (servers c') = None
  /\ In (Session i) (exit_stack c')
  /\ In (StdioTransport i) (exit_stack c')
  /\ exit_stack (snd (cleanup leave c')) = [].
Proof.
  intros w schedule cfgs m p i cfg params e leave Hnd Hi Hv Hs Ho Hout c'.
  assert (Hin : forall r, In r [Session i; StdioTransport i] ->
                          In r (exit_stack c')).
  { intros r Hr.
    apply (Permutation_in _ (Permutation_sym
             (exit_stack_entered w schedule (new_client cfgs m p)))).
    cbn [next_handle new_client server_configs exit_stack].
    rewrite app_nil_r.
    apply entered_by_nth with (j := i) (server_config := cfg); [exact Hi|].
    cbn [Nat.add]. unfold entered. now rewrite Hv, Hs, Ho. }
  split; [|split; [|split]].
  - destruct (Dict.get (name cfg) (servers c')) as [connection|] eqn:G;
      [exfalso | reflexivity].
    destruct (@new_client_registry w schedule cfgs m p Hnd) as (_ & B & _).
    destruct (B _ _ G) as (j & cfg' & announced & Hc & Hname & _).
    unfold connects in Hc. rewrite outcomes_nth in Hc. simpl in Hc.
    destruct (nth_error (filter enabled cfgs) j) as [cfg2|] eqn:Ej;
      [|discriminate].
    simpl in Hc. injection Hc as -> Hc.
    assert (j = i).
    { eapply (proj1 (NoDup_nth_error (map name (filter enabled cfgs))) Hnd).
      - rewrite length_map. apply nth_error_Some. congruence.
      - rewrite !nth_error_map, Ej, Hi. simpl. congruence. }
    subst j. congruence.
  - apply Hin. now left.
  - apply Hin. right. now left.
  - unfold cleanup, aclose.
    destruct (unwind _ (exit_stack c') None); reflexivity.
Qed.

Lemma failed_handshake_stays_open_witness :
  Dict.get (lit "text_processor")
    (servers (connect_to_servers Sample.files [2; 1; 2; 1; 0]
                (new_client Sample.three_servers Sample.settings Qwen)))
  = None
  /\ In (Session 2)
        (exit_stack (connect_to_servers Sample.files [2; 1; 2; 1; 0]
                       (new_client Sample.three_servers Sample.settings Qwen)))
  /\ In (StdioTransport 2)
        (exit_stack (connect_to_servers Sample.files [2; 1; 2; 1; 0]
                       (new_client Sample.three_servers Sample.settings Qwen)))
  /\ exit_stack
       (snd (cleanup Sample.noisy
               (connect_to_servers Sample.files [2; 1; 2; 1; 0]
                  (new_client Sample.three_servers Sample.settings Qwen))))
     = [].
Proof.
  refine (@failed_handshake_stays_open Sample.files [2; 1; 2; 1; 0]
            Sample.three_servers Sample.settings Qwen 2
            (Sample.server "text_processor"
                           "../mcp-server/text_processor/text_processor.py")
            {| command := lit "python";
               args := [lit "../mcp-server/text_processor/text_processor.py"] |}
            (Exn RuntimeError (lit "Connection closed")) Sample.noisy
            _ _ _ _ _ _).
  - vm_compute.
    repeat constructor; simpl; intro H;
      repeat (destruct H as [H|H]; [discriminate H|]); exact H.
  - reflexivity.
  - reflexivity.
  - reflexivity.
  - reflexivity.
  - reflexivity.
Defined.

(* ================================================================== *)
(** * Facts about the interactive loop and the entry point             *)
(* ================================================================== *)

Section EventFacts.

Variable payload : Type.
Variable str_of_payload : payload -> str.
Variable str_of_args : json -> str.
Variable json_loads : str -> res json.
Variable anthropic_create : nat -> anthropic_request payload -> res (list block).
Variable generation_call : nat -> qwen_request payload -> res qwen_response.
Variable session_call_tool : nat -> nat -> str -> json -> res (CallToolResult payload).

(** The loop over the blocks only adds to the events. *)
Lemma process_block_events c available_tools t b :
  exists more,
    events (process_block str_of_args anthropic_create session_call_tool
                          c available_tools t b)
    = events t ++ more.
Proof.
  destruct b as [s|tool_name tool_args text|cls text]; simpl.
  - exists []. now rewrite app_nil_r.
  - unfold use_tool_anthropic.
    destruct (call_tool session_call_tool c _ tool_name tool_args)
      as [[result|e] evs]; simpl; [|eauto].
    unfold _call_model_anthropic.
    match goal with
    | |- context [anthropic_create ?n ?r] =>
      destruct (anthropic_create n r) as [blocks|e]
    end; [destruct (first_text blocks)|];
      destruct text as [[|x s]|]; simpl; rewrite <- app_assoc; eauto.
  - exists []. now rewrite app_nil_r.
Qed.

Lemma fold_events c available_tools blocks t :
  exists more,
    events (fold_left (process_block str_of_args anthropic_create
                                     session_call_tool c available_tools)
                      blocks t)
    = events t ++ more.
Proof.
  revert t; induction blocks as [|b r IH]; intro t; simpl.
  - exists []. now rewrite app_nil_r.
  - destruct (IH (process_block str_of_args anthropic_create session_call_tool
                                c available_tools t b)) as [m1 E1].
    destruct (process_block_events c available_tools t b) as [m2 E2].
    exists (m2 ++ m1). now rewrite E1, E2, app_assoc.
Qed.

Lemma use_tool_qwen_events c available_tools message_content line t :
  exists more,
    events (use_tool_qwen str_of_payload str_of_args json_loads generation_call
                          session_call_tool c available_tools message_content
                          line t)
    = events t ++ more.
Proof.
  unfold use_tool_qwen.
  destruct (parse_tool_call json_loads line) as [[tool_name tool_args]|e];
    [|exists []; simpl; now rewrite app_nil_r].
  destruct (call_tool session_call_tool c _ tool_name tool_args)
    as [[result|e] evs]; simpl; [|eauto].
  destruct (_call_model_qwen _ _ _ _ _ _) as [[response|e] ev]; simpl;
    [destruct (status_code response =? 200)%Z|]; simpl;
    rewrite <- app_assoc; eauto.
Qed.

(** A query begins with its first model call. *)
Lemma process_query_first_event c query :
  exists rest,
    events (snd (process_query str_of_payload str_of_args json_loads
                               anthropic_create generation_call
                               session_call_tool c query))
    = first_call payload c query :: rest.
Proof.
  unfold process_query, first_call. destruct (client_type c).
  - rewrite first_call_anthropic.
    destruct (anthropic_create 0 _) as [blocks|e]; simpl; [|eauto].
    match goal with
    | |- context [fold_left ?f blocks ?t] =>
      destruct (fold_events c (get_all_tools c) blocks t) as [more E]
    end.
    rewrite E. simpl. eauto.
  - rewrite first_call_qwen.
    destruct (generation_call 0 _) as [response|e]; simpl; [|eauto].
    destruct (status_code response =? 200)%Z; [|simpl; eauto].
    destruct (contains sentinel (output_content response)); [|simpl; eauto].
    rewrite scan_lines_find. destruct (find _ _) as [line|]; [|simpl; eauto].
    match goal with
    | |- context [use_tool_qwen _ _ _ _ _ _ ?tools ?mc line ?t] =>
      destruct (use_tool_qwen_events c tools mc line t) as [more E]
    end.
    rewrite E. simpl. eauto.
Qed.

End EventFacts.

Section ChatFacts.

Variable payload : Type.
Variable str_of_payload : payload -> str.
Variable str_of_args : json -> str.
Variable json_loads : str -> res json.
Variable lower : str -> str.
Variable anthropic_create
  : nat -> nat -> anthropic_request payload -> res (list block).
Variable generation_call : nat -> nat -> qwen_request payload -> res qwen_response.
Variable session_call_tool
  : nat -> nat -> nat -> str -> json -> res (CallToolResult payload).

Local Abbreviation iterate' :=
  (iterate str_of_payload str_of_args json_loads lower anthropic_create
           generation_call session_call_tool).
Local Abbreviation chat_loop' :=
  (chat_loop str_of_payload str_of_args json_loads lower anthropic_create
             generation_call session_call_tool).
Local Abbreviation nth_query' :=
  (nth_query str_of_payload str_of_args json_loads anthropic_create
             generation_call session_call_tool).

Lemma iterate_ends c inputs s :
  fst (iterate' c inputs s)
  = match find (stops lower) inputs with
    | None => AwaitsInput
    | Some Interrupted => KeyboardInterrupt
    | Some _ => Quit
    end.
Proof.
  revert s; induction inputs as [|ev rest IH]; intro s; [reflexivity|].
  destruct ev as [line|e|]; simpl; [| apply IH | reflexivity].
  destruct (Str.eqb (lower (strip line)) (lit "quit")); [reflexivity|].
  destruct (Str.eqb (lower (strip line)) (lit "servers")); [apply IH|].
  destruct (Str.eqb (lower (strip line)) (lit "tools")); [apply IH|].
  destruct (nth_query _ _ _ _ _ _ _ _ _) as [[response|e] t]; apply IH.
Qed.

Lemma iterate_reads c inputs s :
  iterate' c inputs s
  = iterate' c (firstn (S (List.length (read lower inputs))) inputs) s.
Proof.
  revert s; induction inputs as [|ev rest IH]; intro s; [reflexivity|].
  destruct ev as [line|e|]; cbn [read stops].
  - destruct (Str.eqb (lower (strip line)) (lit "quit")) eqn:Q.
    + simpl. now rewrite Q.
    + cbn [List.length firstn]. simpl. rewrite Q.
      destruct (Str.eqb (lower (strip line)) (lit "servers")); [apply IH|].
      destruct (Str.eqb (lower (strip line)) (lit "tools")); [apply IH|].
      destruct (nth_query _ _ _ _ _ _ _ _ _) as [[response|e] t]; apply IH.
  - cbn [List.length firstn]. simpl. apply IH.
  - reflexivity.
Qed.


Lemma iterate_closed_input c e n s :
  iterate' c (repeat (InputRaises e) n) s
  = (AwaitsInput,
     {| terminal :=
          terminal s
            ++ List.concat (repeat [Prompt (nl ++ lit "查询: "); error_line e] n)
            ++ [Prompt (nl ++ lit "查询: ")];
        asked := asked s |}).
Proof.
  revert s; induction n as [|n IH]; intro s; simpl; [reflexivity|].
  rewrite IH. simpl. now rewrite <- !app_assoc.
Qed.

(** X17.  When [input] raises, as it does with [EOFError] once the input is
    closed, the loop prints the error and asks again: after any number of
    such failures in a row it still waits for a line, has printed one
    error line for each and has asked the model nothing. *)
Theorem closed_input_keeps_the_loop :
  forall (c : client) (e : exn) (n : nat),
  chat_loop' c (repeat (InputRaises e) n)
  = (AwaitsInput,
     {| terminal :=
          banner
            ++ List.concat (repeat [Prompt (nl ++ lit "查询: "); error_line e] n)
            ++ [Prompt (nl ++ lit "查询: ")];
        asked := [] |}).
Proof. intros c e n. unfold chat_loop. now rewrite iterate_closed_input. Qed.

Lemma iterate_asked c inputs s :
  map fst (asked (snd (iterate' c inputs s)))
  = map fst (asked s) ++ flat_map (question_of lower) (read lower inputs)
  /\ ((forall k q t, nth_error (asked s) k = Some (q, t) ->
                     t = snd (nth_query' k c q)) ->
      forall k q t, nth_error (asked (snd (iterate' c inputs s))) k = Some (q, t) ->
                    t = snd (nth_query' k c q)).
Proof.
  revert s; induction inputs as [|ev rest IH]; intro s.
  - simpl. rewrite app_nil_r. auto.
  - destruct ev as [line|e|]; cbn [read stops question_of].
    + simpl.
      destruct (Str.eqb (lower (strip line)) (lit "quit")) eqn:Q;
        [simpl; rewrite app_nil_r; auto|].
      destruct (Str.eqb (lower (strip line)) (lit "servers")) eqn:S;
        [cbn [flat_map question_of]; rewrite Q, S; cbn [orb app];
         match goal with
         | |- context [iterate _ _ _ _ _ _ _ c rest ?s'] => exact (IH s')
         end|].
      destruct (Str.eqb (lower (strip line)) (lit "tools")) eqn:T;
        [cbn [flat_map question_of]; rewrite Q, S, T; cbn [orb app];
         match goal with
         | |- context [iterate _ _ _ _ _ _ _ c rest ?s'] => exact (IH s')
         end|].
      cbn [flat_map question_of]. rewrite Q, S, T. cbn [orb app].
      destruct (nth_query _ _ _ _ _ _ (List.length (asked s)) c (strip line))
        as [r t] eqn:E.
      assert (Hs : forall s',
                 asked s' = asked s ++ [(strip line, t)] ->
                 map fst (asked (snd (iterate' c rest s')))
                 = map fst (asked s)
                     ++ strip line :: flat_map (question_of lower) (read lower rest)
                 /\ ((forall k q t0, nth_error (asked s) k = Some (q, t0) ->
                                     t0 = snd (nth_query' k c q)) ->
                     forall k q t0,
                       nth_error (asked (snd (iterate' c rest s'))) k = Some (q, t0) ->
                       t0 = snd (nth_query' k c q))).
      { intros s' Hs'. destruct (IH s') as [H1 H2]. split.
        - rewrite H1, Hs', map_app. simpl. now rewrite <- app_assoc.
        - intros H. apply H2. rewrite Hs'. intros k q t0 Hk.
          destruct (Nat.lt_ge_cases k (List.length (asked s))) as [Hlt|Hge].
          + rewrite nth_error_app1 in Hk by assumption. eauto.
          + rewrite nth_error_app2 in Hk by assumption.
            destruct (k - List.length (asked s)) as [|j] eqn:Ek; simpl in Hk.
            * injection Hk as <- <-.
              replace k with (List.length (asked s)) by lia. now rewrite E.
            * now destruct j. }
      destruct r as [response|e]; apply Hs; reflexivity.
    + simpl.
      match goal with
      | |- context [iterate _ _ _ _ _ _ _ c rest ?s'] => exact (IH s')
      end.
    + simpl. rewrite app_nil_r. auto.
Qed.

Lemma iterate_first_calls c inputs s :
  Forall (fun qt => exists rest,
            events (snd qt) = first_call payload c (fst qt) :: rest) (asked s) ->
  Forall (fun qt => exists rest,
            events (snd qt) = first_call payload c (fst qt) :: rest)
         (asked (snd (iterate' c inputs s))).
Proof.
  revert s; induction inputs as [|ev rest IH]; intros s H; [exact H|].
  destruct ev as [line|e|]; simpl; [| now apply IH | exact H].
  destruct (Str.eqb (lower (strip line)) (lit "quit")); [exact H|].
  destruct (Str.eqb (lower (strip line)) (lit "servers")); [now apply IH|].
  destruct (Str.eqb (lower (strip line)) (lit "tools")); [now apply IH|].
  pose proof (process_query_first_event str_of_payload str_of_args json_loads
                (anthropic_create (List.length (asked s)))
                (generation_call (List.length (asked s)))
                (session_call_tool (List.length (asked s))) c (strip line)) as F.
  fold (nth_query' (List.length (asked s)) c (strip line)) in F.
  destruct (nth_query' (List.length (asked s)) c (strip line)) as [r t].
  assert (H' : Forall (fun qt => exists rest,
                         events (snd qt) = first_call payload c (fst qt) :: rest)
                      (asked s ++ [(strip line, t)])).
  { apply Forall_app. split; [exact H|]. constructor; [exact F | constructor]. }
  destruct r as [response|e]; apply IH; exact H'.
Qed.

(** X18.  The questions that [chat_loop] gives to [process_query] are the lines
    that were read, without the white space around them and without the
    commands [servers] and [tools], in their order and each once.  Every
    one of them is a conversation of its own: its first model call is the
    first request for that question alone, which holds nothing of the
    questions and answers before. *)
Theorem chat_loop_asks :
  forall (c : client) (inputs : list input_event),
  let s := snd (chat_loop' c inputs) in
  map fst (asked s) = flat_map (question_of lower) (read lower inputs)
  /\ (forall k q t, nth_error (asked s) k = Some (q, t) ->
                    t = snd (nth_query' k c q))
  /\ Forall (fun qt => exists rest,
               events (snd qt) = first_call payload c (fst qt) :: rest)
            (asked s).
Proof.
  intros c inputs s. unfold s, chat_loop.
  destruct (iterate_asked c inputs {| terminal := banner; asked := [] |})
    as [H1 H2].
  split; [exact H1|]. split.
  - apply H2. intros k q t Hk. now destruct k.
  - apply iterate_first_calls. constructor.
Qed.

End ChatFacts.

(** X19.  The command [tools] prints a title, one header for each stored
    connection and one line for each tool of the catalog that
    [get_all_tools] offers to the model, whatever the state of the
    client. *)
Theorem show_tools_lists_catalog :
  forall c : client,
  List.length (_show_tools c)
  = 1 + List.length (servers c) + List.length (get_all_tools c)
  /\ (forall t, In t (get_all_tools c) -> In (tool_line t) (_show_tools c)).
Proof.
  intro c. unfold _show_tools, get_all_tools. split.
  - simpl. f_equal. induction (servers c) as [|kv r IH]; [reflexivity|].
    simpl. rewrite !length_app, length_map, IH.
    f_equal. apply Nat.add_shuffle3.
  - intros t Ht. right. apply in_flat_map in Ht as (kv & Hkv & Ht).
    apply in_flat_map. exists kv. split; [exact Hkv|].
    right. now apply in_map.
Qed.

(** X20.  After [connect_to_servers] on a new client whose enabled servers
    have different names, the command [servers] prints its title and one
    line for each server that connected, with the name, the description
    and the number of the tools that the server announced; a server that
    did not connect has no line. *)
Theorem show_servers_after_connect :
  forall (w : world) (schedule : list nat) (cfgs : list ServerConfig)
         (m : model_settings) (p : provider),
  NoDup (map name (filter enabled cfgs)) ->
  let c' := connect_to_servers w schedule (new_client cfgs m p) in
  forall o : output,
    In o (_show_servers c')
    <-> o = Printed (nl ++ lit "已连接的服务器:")
        \/ exists i server_config announced,
             connects w cfgs i server_config announced
             /\ o = Printed (lit "- " ++ name server_config ++ lit ": "
                               ++ description server_config ++ lit " ("
                               ++ str_of_nat (List.length announced)
                               ++ lit " 个工具)").
Proof.
  intros w schedule cfgs m p Hnd c' o.
  destruct (@new_client_registry w schedule cfgs m p Hnd) as (A & B & _).
  fold c' in A, B.
  assert (Hkeys : NoDup (Dict.keys (servers c'))).
  { destruct (connect_to_servers_spec w schedule (new_client cfgs m p))
      as (_ & _ & _ & N & _). apply N. constructor. }
  unfold _show_servers. split.
  - intros [<-|H]; [now left|]. right.
    apply in_map_iff in H as ([k connection] & <- & Hkv).
    apply dict_get_of_In in Hkv; [|exact Hkeys].
    destruct (B _ _ Hkv) as (i & cfg & announced & Hc & -> & ->).
    exists i, cfg, announced. split; [exact Hc|].
    simpl. unfold tools_of. now rewrite length_map.
  - intros [->|(i & cfg & announced & Hc & ->)]; [now left|]. right.
    destruct (A _ _ _ Hc) as [Hget _]. apply dict_get_Some_In in Hget.
    apply in_map_iff. eexists. split; [|exact Hget].
    simpl. unfold tools_of. now rewrite length_map.
Qed.

Lemma show_servers_after_connect_witness :
  In (Printed (lit "- " ++ lit "calculator" ++ lit ": " ++ lit "calculator"
                 ++ lit " (" ++ str_of_nat 2 ++ lit " 个工具)"))
     (_show_servers
        (connect_to_servers Sample.files [2; 1; 2; 1; 0]
           (new_client Sample.three_servers Sample.settings Qwen))).
Proof.
  refine (proj2
    (@show_servers_after_connect Sample.files [2; 1; 2; 1; 0]
       Sample.three_servers Sample.settings Qwen _ _) _).
  - vm_compute.
    repeat constructor; simpl; intro H;
      repeat (destruct H as [H|H]; [discriminate H|]); exact H.
  - right.
    exists 1, (Sample.server "calculator" "../mcp-server/calculator/calculator.py"),
      [Sample.announces "add"; Sample.announces "subtract"].
    split; reflexivity.
Defined.

Lemma show_tools_lists_catalog_witness :
  In (tool_line {| tool_name := lit "add"; tool_description := Some (lit "add");
                   input_schema := []; server := Some (lit "calculator") |})
     (_show_tools (Sample.calculator_client Qwen)).
Proof.
  apply (proj2 (show_tools_lists_catalog (Sample.calculator_client Qwen))).
  left. reflexivity.
Defined.

Lemma chat_loop_asks_witness :
  snd (SampleTalk.ask (Sample.calculator_client Qwen) (lit "It is 3."))
  = snd (nth_query SampleTalk.show_payload SampleTalk.show_args Json.loads
                   (fun _ => SampleTalk.answers [])
                   (fun _ => SampleTalk.says (lit "It is 3."))
                   (fun _ => SampleCalls.echo)
                   0 (Sample.calculator_client Qwen) (lit "1+2?")).
Proof.
  apply (proj1 (proj2
    (@chat_loop_asks str SampleTalk.show_payload SampleTalk.show_args Json.loads
       SampleChat.lower (fun _ => SampleTalk.answers [])
       (fun _ => SampleTalk.says (lit "It is 3.")) (fun _ => SampleCalls.echo)
       (Sample.calculator_client Qwen) SampleChat.session))
    0 (lit "1+2?")).
  reflexivity.
Defined.

Section MainFacts.

Variable payload : Type.
Variable str_of_payload : payload -> str.
Variable str_of_args : json -> str.
Variable json_loads : str -> res json.
Variable lower : str -> str.
Variable anthropic_create
  : nat -> nat -> anthropic_request payload -> res (list block).
Variable generation_call : nat -> nat -> qwen_request payload -> res qwen_response.
Variable session_call_tool
  : nat -> nat -> nat -> str -> json -> res (CallToolResult payload).
Variable provider_text : client -> str.

Local Abbreviation main' :=
  (main str_of_payload str_of_args json_loads lower anthropic_create
        generation_call session_call_tool provider_text).


(** X22.  Whenever [main] has ended and a client was constructed, [cleanup] has
    run on it: the exit stack is empty, whatever the context managers do
    when they are left, and the two maps are as the connections left
    them.  No client exists at the end only when the constructor
    raised. *)
Theorem main_cleans_up :
  forall (construct : res client) (w : world) (schedule : list nat)
         (inputs : list input_event) (leave : resource -> exit_outcome),
  fst (fst (main' construct w schedule inputs leave)) <> Awaits ->
  match snd (main' construct w schedule inputs leave) with
  | Some c' =>
    exit_stack c' = []
    /\ exists c, construct = Ret c
                 /\ servers c' = servers (connect_to_servers w schedule c)
                 /\ tool_server_map c'
                    = tool_server_map (connect_to_servers w schedule c)
  | None => exists e, construct = Raise e
  end.
Proof.
  intros construct w schedule inputs leave. unfold main.
  destruct construct as [c|e]; [|simpl; eauto].
  assert (C : forall c0, exit_stack (snd (cleanup leave c0)) = []
                         /\ servers (snd (cleanup leave c0)) = servers c0
                         /\ tool_server_map (snd (cleanup leave c0))
                            = tool_server_map c0).
  { intro c0. unfold cleanup, aclose.
    destruct (unwind leave (exit_stack c0) None); auto. }
  destruct (servers (connect_to_servers w schedule c)) as [|kv r] eqn:E.
  - simpl. intros _. destruct (C (connect_to_servers w schedule c)) as (H1 & H2 & H3).
    split; [exact H1|]. exists c. rewrite H2, H3. auto.
  - destruct (chat_loop _ _ _ _ _ _ _ _ _) as [[| |] s]; simpl.
    + intros _. destruct (C (connect_to_servers w schedule c)) as (H1 & H2 & H3).
      split; [exact H1|]. exists c. rewrite H2, H3. auto.
    + intros _. destruct (C (connect_to_servers w schedule c)) as (H1 & H2 & H3).
      split; [exact H1|]. exists c. rewrite H2, H3. auto.
    + intros H. now contradiction H.
Qed.

End MainFacts.

Lemma main_cleans_up_witness :
  match snd (SampleChat.run_main
               (Ret (new_client Sample.calculator_only Sample.settings Qwen))
               Sample.calculator_world SampleChat.session) with
  | Some c' =>
    exit_stack c' = []
    /\ exists c,
         Ret (new_client Sample.calculator_only Sample.settings Qwen) = Ret c
         /\ servers c' = servers (connect_to_servers Sample.calculator_world [] c)
         /\ tool_server_map c'
            = tool_server_map (connect_to_servers Sample.calculator_world [] c)
  | None =>
    exists e,
      Ret (new_client Sample.calculator_only Sample.settings Qwen) = Raise e
  end.
Proof.
  apply (@main_cleans_up str SampleTalk.show_payload SampleTalk.show_args
           Json.loads SampleChat.lower (fun _ => SampleTalk.answers [])
           (fun _ => SampleTalk.says (lit "It is 3."))
           (fun _ => SampleCalls.echo) (fun _ => lit "qwen")
           (Ret (new_client Sample.calculator_only Sample.settings Qwen))
           Sample.calculator_world [] SampleChat.session Sample.noisy).
  intro H. vm_compute in H. discriminate H.
Defined.

(* ================================================================== *)
(** * Facts about the single-server client                             *)
(* ================================================================== *)

(** A stack on which no context manager raises when it is left is left
    without an exception. *)
Lemma unwind_none leave stack :
  (forall r e, In r stack -> leave r <> ExitRaises e) ->
  unwind leave stack None = None.
Proof.
  induction stack as [|r rest IH]; intro H; simpl; [reflexivity|].
  destruct (leave r) as [suppress|e] eqn:E.
  - destruct suppress; apply IH; intros r' e' Hin; apply H; now right.
  - exfalso. apply (H r e); [now left | exact E].
Qed.

(** The exception of the context manager that was entered first is the
    one that [aclose] raises. *)
Lemma unwind_bottom leave above r e in_flight :
  leave r = ExitRaises e ->
  unwind leave (above ++ [r]) in_flight = Some e.
Proof.
  intro H. revert in_flight; induction above as [|x above IH]; intro in_flight;
    simpl.
  - now rewrite H.
  - destruct (leave x); apply IH.
Qed.

(** X24.  [cleanup] of the single-server client raises what [aclose] raises:
    when the context manager that was entered first raises on exit, that
    exception leaves [cleanup], while the [cleanup] of the multi-server
    client returns for the same exit stack.  When no context manager
    raises, it returns.  The exit stack is empty afterwards in both
    cases. *)
Theorem single_cleanup_raises :
  forall (leave : resource -> exit_outcome) (c : MCPClient),
  mc_exit_stack (snd (single_cleanup leave c)) = []
  /\ ((forall r e, In r (mc_exit_stack c) -> leave r <> ExitRaises e) ->
      fst (single_cleanup leave c) = Ret tt)
  /\ (forall above r e (multi : client),
        mc_exit_stack c = above ++ [r] ->
        leave r = ExitRaises e ->
        exit_stack multi = mc_exit_stack c ->
        fst (single_cleanup leave c) = Raise e
        /\ fst (cleanup leave multi) = Ret tt).
Proof.
  intros leave c. unfold single_cleanup. simpl. split; [reflexivity|]. split.
  - intro H. now rewrite (unwind_none leave _ H).
  - intros above r e multi Es Hl Em. rewrite Es.
    rewrite (unwind_bottom leave above r None Hl). split; [reflexivity|].
    unfold cleanup, aclose. rewrite Em, Es.
    now rewrite (unwind_bottom leave above r None Hl).
Qed.

(** X23.  [connect_to_server] of the single-server client.  A script that is
    neither a [.py] nor a [.js] file is refused before anything is
    started.  Otherwise the file is not looked for: the process is
    started, and what was entered stays on the exit stack when a later
    step fails.  The session is stored once its context is entered, also
    when the handshake or the listing of the tools fails afterwards. *)
Theorem single_connect_to_server_outcomes :
  forall (a : attempt) (handle : nat) (c : MCPClient) (server_script_path : str),
  let r := single_connect_to_server a handle c server_script_path in
  let server_params :=
    {| command := if endswith (lit ".py") server_script_path
                  then lit "python" else lit "node";
       args := [server_script_path] |} in
  if negb (endswith (lit ".py") server_script_path
           || endswith (lit ".js") server_script_path)
  then r = (Raise (Exn ValueError (lit "Server script must be a .py or .js file")),
            c)
  else
    mc_model_config (snd r) = mc_model_config c
    /\ mc_client_type (snd r) = mc_client_type c
    /\ match spawn a server_params, open_session a with
       | Some e, _ =>
         fst r = Raise e /\ mc_exit_stack (snd r) = mc_exit_stack c
         /\ mc_session (snd r) = mc_session c
       | None, Some e =>
         fst r = Raise e
         /\ mc_exit_stack (snd r) = StdioTransport handle :: mc_exit_stack c
         /\ mc_session (snd r) = mc_session c
       | None, None =>
         mc_exit_stack (snd r)
         = Session handle :: StdioTransport handle :: mc_exit_stack c
         /\ mc_session (snd r) = Some handle
         /\ fst r = match initialize a, list_tools a with
                    | Some e, _ => Raise e
                    | None, Raise e => Raise e
                    | None, Ret announced => Ret (map mcp_name announced)
                    end
       end.
Proof.
  intros a handle c path r server_params. unfold r, single_connect_to_server.
  destruct (negb (endswith (lit ".py") path || endswith (lit ".js") path));
    [reflexivity|].
  fold server_params.
  destruct (spawn a server_params) as [e|]; simpl; [auto|].
  destruct (open_session a) as [e|]; simpl; [auto|].
  destruct (initialize a) as [e|]; simpl; [auto|].
  destruct (list_tools a) as [announced|e]; simpl; auto.
Qed.

Section SingleFacts.

Variable payload : Type.
Variable str_of_payload : payload -> str.
Variable str_of_args : json -> str.
Variable json_loads : str -> res json.
Variable anthropic_create : nat -> anthropic_request payload -> res (list block).
Variable generation_call : nat -> qwen_request payload -> res qwen_response.
Variable session_list_tools : nat -> res (list mcp_tool).
Variable session_call_tool : nat -> nat -> str -> json -> res (CallToolResult payload).

Local Abbreviation single_process_query' :=
  (single_process_query str_of_payload str_of_args json_loads anthropic_create
                        generation_call session_list_tools session_call_tool).
Local Abbreviation single_blocks' :=
  (single_blocks str_of_args anthropic_create session_call_tool).
Local Abbreviation single_use_tool_qwen' :=
  (single_use_tool_qwen str_of_payload str_of_args json_loads generation_call
                        session_call_tool).

(** X25.  [process_query] of the single-server client asks the session for its
    tools before anything else.  Without a session, as on a client that
    never connected, it raises the [AttributeError] of [None]; when the
    listing raises, it raises that exception; in both cases the model is
    not called and no tool is invoked. *)
Theorem single_process_query_needs_session :
  forall (c : MCPClient) (query : str),
  match mc_session c with
  | None =>
    single_process_query' c query
    = (Raise (Exn AttributeError
                (lit "'NoneType' object has no attribute 'list_tools'")),
       st_start payload query)
  | Some h =>
    match session_list_tools h with
    | Raise e =>
      single_process_query' c query = (Raise e, st_start payload query)
    | Ret _ => True
    end
  end
  /\ (st_events (snd (single_process_query' c query)) <> [] ->
      exists h announced,
        mc_session c = Some h /\ session_list_tools h = Ret announced).
Proof.
  intros c query. unfold single_process_query.
  destruct (mc_session c) as [h|]; [|split; [reflexivity | intro H; exfalso; apply H; reflexivity]].
  destruct (session_list_tools h) as [announced|e] eqn:E;
    [|split; [reflexivity | intro H; exfalso; apply H; reflexivity]].
  split; [exact I|]. intros _. now exists h, announced.
Qed.

(** The text blocks before the first [tool_use] block only add their
    text. *)
Lemma single_blocks_no_tool_use c h available_tools before rest t :
  forallb (fun b => negb (is_tool_use b)) before = true ->
  single_blocks' c h available_tools (before ++ rest) t
  = single_blocks' c h available_tools rest
      {| st_messages := st_messages t;
         st_final_text := st_final_text t ++ texts_of before;
         st_tool_results := st_tool_results t; st_events := st_events t |}.
Proof.
  revert t; induction before as [|b r IH]; intros t H; simpl in *.
  - rewrite app_nil_r. now destruct t.
  - apply andb_prop in H as [Hb Hr].
    destruct b; simpl in *; try discriminate; rewrite (IH _ Hr); simpl;
      rewrite <- ?app_assoc; reflexivity.
Qed.

(** The first request of a query of the single-server client. *)
Lemma single_first_call_anthropic c query announced :
  single_call_model_anthropic anthropic_create c 0
                              (st_messages (st_start payload query))
                              (single_tools_of announced)
  = (anthropic_create 0 (single_first_anthropic_request payload c query announced),
     [AnthropicCall (single_first_anthropic_request payload c query announced)]).
Proof.
  unfold single_call_model_anthropic, single_first_anthropic_request. simpl.
  destruct (single_tools_of announced); reflexivity.
Qed.

(** X26.  With the first vendor the single-server client catches nothing: a
    tool call that raises leaves [process_query] with that exception.
    The texts that were gathered are lost, the blocks behind are not
    looked at, and no further model call is made. *)
Theorem single_anthropic_failure_propagates :
  forall (c : MCPClient) (h : nat) (query : str) (announced : list mcp_tool)
         (before after : list block) (tool_name : str) (tool_args : json)
         (text : option str) (e : exn),
  mc_session c = Some h ->
  session_list_tools h = Ret announced ->
  mc_client_type c = Anthropic ->
  anthropic_create 0 (single_first_anthropic_request payload c query announced)
  = Ret (before ++ ToolUseBlock tool_name tool_args text :: after) ->
  forallb (fun b => negb (is_tool_use b)) before = true ->
  session_call_tool 0 h tool_name tool_args = Raise e ->
  fst (single_process_query' c query) = Raise e
  /\ st_events (snd (single_process_query' c query))
     = [ AnthropicCall (single_first_anthropic_request payload c query announced);
         TransportCall payload h tool_name tool_args ].
Proof.
  intros c h query announced before after tool_name tool_args text e
         Hs Hl Hc Hr Hb Hcall.
  unfold single_process_query. rewrite Hs, Hl, Hc.
  rewrite single_first_call_anthropic, Hr.
  rewrite single_blocks_no_tool_use by assumption.
  cbn [single_blocks]. unfold single_use_tool_anthropic.
  cbn [st_events st_record st_start app transport_calls filter
       is_transport_call List.length].
  rewrite Hcall. split; reflexivity.
Qed.

(** The first request of a query to the second vendor. *)
Lemma single_first_call_qwen c query announced :
  single_call_model_qwen str_of_payload generation_call c 0
                         (st_messages (st_start payload query))
                         (single_tools_of announced)
  = (generation_call 0 (single_first_qwen_request payload c query announced),
     [QwenCall (single_first_qwen_request payload c query announced)]).
Proof.
  unfold single_call_model_qwen, qwen_payload, single_first_qwen_request. simpl.
  destruct (single_tools_of announced); reflexivity.
Qed.

Lemma single_scan_lines_find c h available_tools message_content lines t :
  single_scan_lines str_of_payload str_of_args json_loads generation_call
                    session_call_tool c h available_tools message_content
                    lines t
  = match find is_sentinel_line lines with
    | Some line =>
      single_use_tool_qwen' c h available_tools message_content line t
    | None => st_say message_content t
    end.
Proof.
  induction lines as [|line rest IH]; simpl; [reflexivity|].
  destruct (is_sentinel_line line); [reflexivity | exact IH].
Qed.

(** X27.  With the second vendor the single-server client catches the failure
    of a tool call as the multi-server client does: [process_query]
    returns the annotation with the error, followed by the answer of the
    model, and makes no further model call. *)
Theorem single_qwen_failure_is_annotated :
  forall (c : MCPClient) (h : nat) (query : str) (announced : list mcp_tool)
         (r : qwen_response) (line tool_name : str) (tool_args : json) (e : exn),
  mc_session c = Some h ->
  session_list_tools h = Ret announced ->
  mc_client_type c = Qwen ->
  generation_call 0 (single_first_qwen_request payload c query announced) = Ret r ->
  status_code r = 200%Z ->
  find is_sentinel_line (split_char 10 (output_content r)) = Some line ->
  parse_tool_call json_loads line = Ret (tool_name, tool_args) ->
  session_call_tool 0 h tool_name tool_args = Raise e ->
  fst (single_process_query' c query)
  = Ret (single_parse_failed e ++ nl ++ output_content r)
  /\ st_events (snd (single_process_query' c query))
     = [ QwenCall (single_first_qwen_request payload c query announced);
         TransportCall payload h tool_name tool_args ].
Proof.
  intros c h query announced r line tool_name tool_args e
         Hs Hl Hc Hr Hst Hf Hp Hcall.
  unfold single_process_query. rewrite Hs, Hl, Hc.
  rewrite single_first_call_qwen, Hr, Hst. cbn [Z.eqb Pos.eqb].
  assert (Hin : contains sentinel (output_content r) = true).
  { apply find_some in Hf as [Hin Hsl].
    exact (sentinel_line_contains _ _ Hin Hsl). }
  rewrite Hin, single_scan_lines_find, Hf.
  unfold single_use_tool_qwen. rewrite Hp.
  cbn [st_events st_record st_start app transport_calls filter
       is_transport_call List.length].
  rewrite Hcall. split; reflexivity.
Qed.

End SingleFacts.

Lemma single_cleanup_raises_witness :
  fst (single_cleanup Sample.noisy
         {| mc_model_config := Sample.settings; mc_client_type := Qwen;
            mc_session := Some 0; mc_exit_stack := [StdioTransport 0; Session 0] |})
  = Raise (Exn RuntimeError (lit "cancel scope"))
  /\ fst (cleanup Sample.noisy
            (with_exit_stack (new_client [] Sample.settings Qwen)
                             [StdioTransport 0; Session 0]))
     = Ret tt.
Proof.
  apply (proj2 (proj2
    (single_cleanup_raises Sample.noisy
       {| mc_model_config := Sample.settings; mc_client_type := Qwen;
          mc_session := Some 0;
          mc_exit_stack := [StdioTransport 0; Session 0] |}))
    [StdioTransport 0] (Session 0) (Exn RuntimeError (lit "cancel scope"))
    (with_exit_stack (new_client [] Sample.settings Qwen)
                     [StdioTransport 0; Session 0]));
    reflexivity.
Defined.

Lemma single_process_query_needs_session_witness :
  exists h announced,
    mc_session (SampleSingle.connected Qwen) = Some h
    /\ SampleSingle.lists h = Ret announced.
Proof.
  apply (proj2
    (@single_process_query_needs_session str SampleTalk.show_payload
       SampleTalk.show_args Json.loads (SampleTalk.answers [])
       (SampleTalk.says (lit "It is 3.")) SampleSingle.lists SampleSingle.broken
       (SampleSingle.connected Qwen) (lit "1+2?"))).
  vm_compute. discriminate.
Defined.

Lemma single_anthropic_failure_propagates_witness :
  fst (SampleSingle.ask (SampleSingle.connected Anthropic)
                        SampleAnswers.with_tool_use [])
  = Raise (Exn RuntimeError (lit "Connection closed")).
Proof.
  refine (proj1
    (@single_anthropic_failure_propagates str SampleTalk.show_payload
       SampleTalk.show_args Json.loads
       (SampleTalk.answers SampleAnswers.with_tool_use) (SampleTalk.says [])
       SampleSingle.lists SampleSingle.broken
       (SampleSingle.connected Anthropic) 0 (lit "1+2?")
       [Sample.announces "add"] [TextBlock (lit "I will add.")]
       [TextBlock (lit "Done.")] (lit "add") empty_args None
       (Exn RuntimeError (lit "Connection closed")) _ _ _ _ _ _));
    reflexivity.
Defined.

Lemma single_qwen_failure_is_annotated_witness :
  fst (SampleSingle.ask (SampleSingle.connected Qwen) [] SampleTalk.example)
  = Ret (single_parse_failed (Exn RuntimeError (lit "Connection closed"))
           ++ nl ++ SampleTalk.example).
Proof.
  refine (proj1
    (@single_qwen_failure_is_annotated str SampleTalk.show_payload
       SampleTalk.show_args Json.loads (SampleTalk.answers [])
       (SampleTalk.says SampleTalk.example) SampleSingle.lists
       SampleSingle.broken (SampleSingle.connected Qwen) 0 (lit "1+2?")
       [Sample.announces "add"]
       {| status_code := 200; response_message := lit "OK";
          output_content := SampleTalk.example |}
       SampleTalk.sentinel_line (lit "add")
       (JObj [(lit "a", JInt 1); (lit "b", JInt 2)])
       (Exn RuntimeError (lit "Connection closed")) _ _ _ _ _ _ _ _));
    reflexivity.
Defined.

Section SingleMainFacts.

Variable payload : Type.
Variable str_of_payload : payload -> str.
Variable str_of_args : json -> str.
Variable json_loads : str -> res json.
Variable lower : str -> str.
Variable anthropic_create
  : nat -> nat -> anthropic_request payload -> res (list block).
Variable generation_call : nat -> nat -> qwen_request payload -> res qwen_response.
Variable session_list_tools : nat -> nat -> res (list mcp_tool).
Variable session_call_tool
  : nat -> nat -> nat -> str -> json -> res (CallToolResult payload).
Variable connected_text : list str -> str.
Variable using_text : MCPClient -> str.

Local Abbreviation single_main' :=
  (single_main str_of_payload str_of_args json_loads lower anthropic_create
               generation_call session_list_tools session_call_tool
               connected_text using_text).

Lemma single_finally_cases leave c ending out :
  snd (single_finally leave c ending out) = Some (snd (single_cleanup leave c))
  /\ mc_exit_stack (snd (single_cleanup leave c)) = []
  /\ ((fst (fst (single_finally leave c ending out)) = ending
       /\ fst (single_cleanup leave c) = Ret tt)
      \/ exists e, fst (fst (single_finally leave c ending out)) = SingleRaises e
                   /\ fst (single_cleanup leave c) = Raise e).
Proof.
  unfold single_finally, single_cleanup.
  destruct (unwind leave (mc_exit_stack c) None) as [e|]; simpl; eauto 6.
Qed.


End SingleMainFacts.

